(** * PinTracer: the trace instrumentation planner and its trace buffer

    A shallow embedding of [src/PinTracer/PinTracer.cpp].

    The tool is a client of a dynamic binary instrumentation host.  Two
    things are modelled:

    - the _planner_: [InstrumentTrace] and [InstrumentImage] walk what the
      host hands them and answer with a sequence of [INS_Insert*Call] /
      [RTN_InsertCall] requests.  The embedding returns that sequence, in
      the order in which the source issues the requests;
    - the _analysis routines_ that those requests name
      ([CheckBufferAndStore], [TestcaseStart], [ChangeRandomNumber], ...)
      together with the host's rule for running installed calls around an
      executed instruction.

    [TraceEntry*] values are counted in [TraceEntry] slots, as C pointer
    arithmetic on a typed pointer does; [NULL] is [0]. *)

From Stdlib Require Import ZArith Lia Bool Ascii String.
From Stdlib Require DecimalString HexadecimalString.
From stdpp Require Import base option list strings gmap.

Local Open Scope string_scope.
Local Open Scope list_scope.
Local Open Scope Z_scope.

(** ** Host vocabulary *)

Abbreviation ADDRINT := Z (only parsing).
Abbreviation THREADID := Z (only parsing).
Abbreviation OPCODE := Z (only parsing).
Definition NULL : Z := 0.

(** Where the host runs an installed call, relative to the instruction. *)
Inductive IPOINT := IPOINT_BEFORE | IPOINT_AFTER | IPOINT_TAKEN_BRANCH.

(** Registers.  A general register is named together with the width it
    is accessed at: [REG_GPR n W64] is the [n]-th 64-bit register and
    [REG_GPR n W32], [REG_GPR n W16] are its low 32 and 16 bits, so that
    [RAX], [EAX] and [AX] are three views of one register.  [REG_INST_G n]
    are the host's tool registers, the ones [PIN_ClaimToolRegister] hands
    out; the application never touches them. *)
Inductive REG_WIDTH := W16 | W32 | W64.

Global Instance REG_WIDTH_eq_dec : EqDecision REG_WIDTH.
Proof. solve_decision. Defined.

Definition width_bits (w : REG_WIDTH) : Z :=
  match w with W16 => 16 | W32 => 32 | W64 => 64 end.

Inductive REG :=
| REG_INST_PTR
| REG_GPR (n : nat) (w : REG_WIDTH)
| REG_INST_G (n : nat).

(** The register names the source uses, in the hardware's numbering. *)
Abbreviation REG_RAX := (REG_GPR 0 W64).
Abbreviation REG_EAX := (REG_GPR 0 W32).
Abbreviation REG_ECX := (REG_GPR 1 W32).
Abbreviation REG_EDX := (REG_GPR 2 W32).
Abbreviation REG_EBX := (REG_GPR 3 W32).
Abbreviation REG_GR n := (REG_GPR n W64).

Global Instance REG_eq_dec : EqDecision REG.
Proof. solve_decision. Defined.

Definition is_tool_register (r : REG) : bool :=
  match r with REG_INST_G _ => true | _ => false end.

(** Two names overlap when they are views of the same register. *)
Definition reg_overlap (r1 r2 : REG) : bool :=
  match r1, r2 with
  | REG_GPR n1 _, REG_GPR n2 _ => bool_decide (n1 = n2)
  | _, _ => bool_decide (r1 = r2)
  end.

(** What a register of the width of [r] keeps of [v]: a general register
    keeps the low bits of its width; the instruction pointer and the tool
    registers hold addresses, which are kept as they are. *)
Definition reg_trunc (r : REG) (v : Z) : Z :=
  match r with
  | REG_GPR _ w => v mod 2 ^ width_bits w
  | _ => v
  end.

(** [main] claims four tool registers, in this order (lines 97-102). *)
Definition _nextBufferEntryReg : REG := REG_INST_G 0.
Definition _entryBufferEndReg : REG := REG_INST_G 1.
Definition _cpuIdEaxInputReg : REG := REG_INST_G 2.
Definition _cpuIdEcxInputReg : REG := REG_INST_G 3.

(** Argument descriptors of an inserted call. *)
Inductive IARG :=
| IARG_CONTEXT
| IARG_UINT32 (n : Z)
| IARG_UINT32_REG (r : REG)
| IARG_BOOL (b : Z)
| IARG_REG_VALUE (r : REG)
| IARG_REG_REFERENCE (r : REG)
| IARG_INST_PTR
| IARG_BRANCH_TARGET_ADDR
| IARG_BRANCH_TAKEN
| IARG_MEMORYREAD_EA
| IARG_MEMORYREAD2_EA
| IARG_MEMORYWRITE_EA
| IARG_THREAD_ID
| IARG_FUNCARG_ENTRYPOINT_VALUE (n : nat)
| IARG_RETURN_REGS (r : REG).

Global Instance IARG_eq_dec : EqDecision IARG.
Proof. solve_decision. Defined.

(** The analysis routines the tool passes as [AFUNPTR]; [fp_F] is the
    address of routine [F]. *)
Inductive AFUNPTR :=
| fp_PIN_SetContextReg
| fp_ChangeCpuId
| fp_ChangeRandomNumber
| fp_CheckNextTraceEntryPointerValid
| fp_TraceWriter_InsertBranchEntry
| fp_TraceWriter_InsertRetBranchEntry
| fp_TraceWriter_InsertMemoryReadEntry
| fp_TraceWriter_InsertMemoryWriteEntry
| fp_TraceWriter_InsertStackPointerWriteEntry
| fp_TraceWriter_InsertAllocSizeParameterEntry
| fp_TraceWriter_InsertAllocAddressReturnEntry
| fp_TraceWriter_InsertFreeAddressParameterEntry
| fp_TraceWriter_CheckBufferFull
| fp_CheckBufferAndStore
| fp_TestcaseStart
| fp_TestcaseEnd.

Global Instance AFUNPTR_eq_dec : EqDecision AFUNPTR.
Proof. solve_decision. Defined.

(** One instrumentation request on the instruction (or routine) at hand. *)
Inductive PinCall :=
| INS_InsertCall (ip : IPOINT) (f : AFUNPTR) (args : list IARG)
| INS_InsertIfCall (ip : IPOINT) (f : AFUNPTR) (args : list IARG)
| INS_InsertThenCall (ip : IPOINT) (f : AFUNPTR) (args : list IARG)
| RTN_InsertCall (ip : IPOINT) (f : AFUNPTR) (args : list IARG).

Global Instance IPOINT_eq_dec : EqDecision IPOINT.
Proof. solve_decision. Defined.

Global Instance PinCall_eq_dec : EqDecision PinCall.
Proof. solve_decision. Defined.

Definition call_ipoint (c : PinCall) : IPOINT :=
  match c with
  | INS_InsertCall ip _ _ | INS_InsertIfCall ip _ _ | INS_InsertThenCall ip _ _
  | RTN_InsertCall ip _ _ => ip
  end.

Definition call_fun (c : PinCall) : AFUNPTR :=
  match c with
  | INS_InsertCall _ f _ | INS_InsertIfCall _ f _ | INS_InsertThenCall _ f _
  | RTN_InsertCall _ f _ => f
  end.

(** The opcode constants of [xed-interface.h] that the planner compares
    against.  The header belongs to the decoder library, not to this
    repository, so the numbers are a parameter of the development. *)
Record xed_iclass_enum := {
  XED_ICLASS_CPUID : OPCODE;
  XED_ICLASS_LEA : OPCODE;
  XED_ICLASS_POP : OPCODE;
  XED_ICLASS_POPFQ : OPCODE;
  XED_ICLASS_PUSH : OPCODE;
  XED_ICLASS_PUSHFQ : OPCODE;
  XED_ICLASS_RDRAND : OPCODE
}.

(** What the host answers about one decoded instruction. *)
Record INS := {
  INS_Address : ADDRINT;
  INS_SegmentPrefix : bool;
  INS_Opcode : OPCODE;
  INS_IsCall : bool;
  INS_IsBranch : bool;
  INS_IsRet : bool;
  INS_IsMemoryRead : bool;
  INS_HasMemoryRead2 : bool;
  INS_IsMemoryWrite : bool;
  INS_IsStandardMemop : bool;
  INS_RegW0 : REG
}.

Record BBL := {
  BBL_Address : ADDRINT;
  BBL_Ins : list INS
}.

Definition TRACE := list BBL.

(** ** Image registry *)

(** [ImageData] of [Utilities.h], as the constructor call at line 431
    fills it. *)
Record ImageData := {
  _interesting : bool;
  _name : string;
  _startAddress : Z;
  _endAddress : Z
}.

(** Modelled from the spec: [ImageData::ContainsBasicBlock] is declared in
    [Utilities.h], which is not part of the sources at hand.  Section 4.1:
    an image owns a basic block when its [[low, high]] range contains the
    block's address. *)
Definition ContainsBasicBlock (i : ImageData) (bbl : BBL) : bool :=
  (_startAddress i <=? BBL_Address bbl) && (BBL_Address bbl <=? _endAddress i).

(** Modelled from the spec: [ImageData::IsInteresting] (also [Utilities.h])
    reads the interest flag stored at construction. *)
Definition IsInteresting (i : ImageData) : bool := _interesting i.

(** ** The error stream

    [cerr] is written line by line; the [hex] manipulator is sticky, so the
    stream carries its base field along. *)
Record ostream := {
  os_lines : list string;
  os_hex : bool
}.

Definition dec_string (z : Z) : string := DecimalString.NilZero.string_of_int (Z.to_int z).

Definition hex_string (z : Z) : string :=
  HexadecimalString.NilZero.string_of_uint (N.to_hex_uint (Z.to_N z)).

(** [os << z] for an unsigned integer under the stream's current base. *)
Definition show_unsigned (os : ostream) (z : Z) : string :=
  if os_hex os then hex_string z else dec_string z.

(** [os << text << endl]. *)
Definition put_line (os : ostream) (text : string) : ostream :=
  {| os_lines := os_lines os ++ [text]; os_hex := os_hex os |}.

Definition set_hex (os : ostream) : ostream :=
  {| os_lines := os_lines os; os_hex := true |}.

(** ** Trace entries and the writer's data

    The entry kinds of [TraceWriter.h], with the payloads the requests in
    this file pass to the [Insert*Entry] routines. *)
Inductive TraceEntry :=
| MemoryRead (ip ea : ADDRINT)
| MemoryWrite (ip ea : ADDRINT)
| Branch (source target : ADDRINT) (taken : bool) (isCall : bool)
| Ret (source target : ADDRINT)
| AllocSize (size : ADDRINT)
| AllocReturn (address : ADDRINT)
| FreeAddress (address : ADDRINT)
| StackPointer (value : ADDRINT)
| TestcaseMarker (isStart : bool) (id : Z).

Global Instance TraceEntry_eq_dec : EqDecision TraceEntry.
Proof. solve_decision. Defined.


(** A [TraceWriter] object: where its entry array starts, how many slots
    it has, the open output file (if any) and the current testcase id.
    The slots themselves live in the heap of the tool state. *)
Record TraceWriter := {
  tw_prefix : string;
  tw_begin : Z;
  tw_size : Z;
  tw_file : option string;
  tw_testcase : option Z
}.

(** ** The tool's global state *)

Record Globals := {
  KnobOutputFilePrefix : string;
  _interestingImages : list string;
  _images : list ImageData;
  _useFixedRandomNumber : bool;
  _fixedRandomNumber : Z;
  cerr : ostream;
  image_log : list string;
  (** thread data under [_traceWriterTlsKey]; no binding is [nullptr] *)
  tls : gmap Z TraceWriter;
  (** the allocated [TraceEntry] slots *)
  heap : gmap Z TraceEntry;
  (** the trace files written so far *)
  disk : gmap string (list TraceEntry);
  (** observation log: every entry stored through a write pointer, with
      its slot, oldest first; not a variable of the program *)
  stores : list (Z * TraceEntry)
}.

Definition set_cerr (g : Globals) (os : ostream) : Globals :=
  {| KnobOutputFilePrefix := KnobOutputFilePrefix g;
     _interestingImages := _interestingImages g; _images := _images g;
     _useFixedRandomNumber := _useFixedRandomNumber g;
     _fixedRandomNumber := _fixedRandomNumber g;
     cerr := os; image_log := image_log g;
     tls := tls g; heap := heap g; disk := disk g; stores := stores g |}.

Definition set_images (g : Globals) (imgs : list ImageData) (log : list string) : Globals :=
  {| KnobOutputFilePrefix := KnobOutputFilePrefix g;
     _interestingImages := _interestingImages g; _images := imgs;
     _useFixedRandomNumber := _useFixedRandomNumber g;
     _fixedRandomNumber := _fixedRandomNumber g;
     cerr := cerr g; image_log := log;
     tls := tls g; heap := heap g; disk := disk g; stores := stores g |}.

Definition set_fixed_random (g : Globals) (use : bool) (v : Z) : Globals :=
  {| KnobOutputFilePrefix := KnobOutputFilePrefix g;
     _interestingImages := _interestingImages g; _images := _images g;
     _useFixedRandomNumber := use;
     _fixedRandomNumber := v;
     cerr := cerr g; image_log := image_log g;
     tls := tls g; heap := heap g; disk := disk g; stores := stores g |}.

Definition set_tls (g : Globals) (t : gmap Z TraceWriter) : Globals :=
  {| KnobOutputFilePrefix := KnobOutputFilePrefix g;
     _interestingImages := _interestingImages g; _images := _images g;
     _useFixedRandomNumber := _useFixedRandomNumber g;
     _fixedRandomNumber := _fixedRandomNumber g;
     cerr := cerr g; image_log := image_log g;
     tls := t; heap := heap g; disk := disk g; stores := stores g |}.

Definition set_heap (g : Globals) (h : gmap Z TraceEntry) : Globals :=
  {| KnobOutputFilePrefix := KnobOutputFilePrefix g;
     _interestingImages := _interestingImages g; _images := _images g;
     _useFixedRandomNumber := _useFixedRandomNumber g;
     _fixedRandomNumber := _fixedRandomNumber g;
     cerr := cerr g; image_log := image_log g;
     tls := tls g; heap := h; disk := disk g; stores := stores g |}.

Definition set_disk (g : Globals) (d : gmap string (list TraceEntry)) : Globals :=
  {| KnobOutputFilePrefix := KnobOutputFilePrefix g;
     _interestingImages := _interestingImages g; _images := _images g;
     _useFixedRandomNumber := _useFixedRandomNumber g;
     _fixedRandomNumber := _fixedRandomNumber g;
     cerr := cerr g; image_log := image_log g;
     tls := tls g; heap := heap g; disk := d; stores := stores g |}.

Definition log_store (g : Globals) (ev : Z * TraceEntry) : Globals :=
  {| KnobOutputFilePrefix := KnobOutputFilePrefix g;
     _interestingImages := _interestingImages g; _images := _images g;
     _useFixedRandomNumber := _useFixedRandomNumber g;
     _fixedRandomNumber := _fixedRandomNumber g;
     cerr := cerr g; image_log := image_log g;
     tls := tls g; heap := heap g; disk := disk g; stores := stores g ++ [ev] |}.

(** ** The instrumentation planner: [InstrumentTrace] *)

(** The guarded store of one entry: the [If] call hands the write pointer
    to the host, which runs the [Then] call only when it is not null. *)
Definition if_next_valid (ip : IPOINT) : PinCall :=
  INS_InsertIfCall ip fp_CheckNextTraceEntryPointerValid
    [IARG_REG_VALUE _nextBufferEntryReg].

(** The flush check issued after every guarded store. *)
Definition flush_check (ip : IPOINT) : list PinCall :=
  [ INS_InsertIfCall ip fp_TraceWriter_CheckBufferFull
      [IARG_REG_VALUE _nextBufferEntryReg; IARG_REG_VALUE _entryBufferEndReg];
    INS_InsertThenCall ip fp_CheckBufferAndStore
      [IARG_REG_VALUE _nextBufferEntryReg; IARG_REG_VALUE _entryBufferEndReg;
       IARG_THREAD_ID; IARG_RETURN_REGS _nextBufferEntryReg] ].

(** The request sequence of one traced event, as the source repeats it for
    every kind of entry: a store guarded by the null check, followed by the
    flush check. *)
Definition guarded_store (ip : IPOINT) (insert : AFUNPTR) (args : list IARG)
  : list PinCall :=
  [ if_next_valid ip; INS_InsertThenCall ip insert args ] ++ flush_check ip.

(** Lines 185-204. *)
Definition cpuid_calls : list PinCall :=
  [ INS_InsertCall IPOINT_BEFORE fp_PIN_SetContextReg
      [IARG_CONTEXT; IARG_UINT32_REG _cpuIdEaxInputReg; IARG_REG_VALUE REG_EAX];
    INS_InsertCall IPOINT_BEFORE fp_PIN_SetContextReg
      [IARG_CONTEXT; IARG_UINT32_REG _cpuIdEcxInputReg; IARG_REG_VALUE REG_ECX];
    INS_InsertCall IPOINT_AFTER fp_ChangeCpuId
      [IARG_REG_VALUE _cpuIdEaxInputReg; IARG_REG_VALUE _cpuIdEcxInputReg;
       IARG_REG_REFERENCE REG_EAX; IARG_REG_REFERENCE REG_EBX;
       IARG_REG_REFERENCE REG_ECX; IARG_REG_REFERENCE REG_EDX] ].

(** Lines 212-214. *)
Definition rdrand_calls (ins : INS) : list PinCall :=
  [ INS_InsertCall IPOINT_AFTER fp_ChangeRandomNumber
      [IARG_REG_REFERENCE (INS_RegW0 ins)] ].

(** Lines 221-241. *)
Definition call_calls : list PinCall :=
  guarded_store IPOINT_BEFORE fp_TraceWriter_InsertBranchEntry
    [IARG_REG_VALUE _nextBufferEntryReg; IARG_INST_PTR; IARG_BRANCH_TARGET_ADDR;
     IARG_BOOL 1; IARG_UINT32 1; IARG_RETURN_REGS _nextBufferEntryReg].

(** Lines 246-266. *)
Definition branch_calls : list PinCall :=
  guarded_store IPOINT_BEFORE fp_TraceWriter_InsertBranchEntry
    [IARG_REG_VALUE _nextBufferEntryReg; IARG_INST_PTR; IARG_BRANCH_TARGET_ADDR;
     IARG_BRANCH_TAKEN; IARG_UINT32 0; IARG_RETURN_REGS _nextBufferEntryReg].

(** Lines 272-290. *)
Definition ret_calls : list PinCall :=
  guarded_store IPOINT_TAKEN_BRANCH fp_TraceWriter_InsertRetBranchEntry
    [IARG_REG_VALUE _nextBufferEntryReg; IARG_INST_PTR; IARG_CONTEXT;
     IARG_RETURN_REGS _nextBufferEntryReg].

(** Lines 300-318, 324-342 and 348-366: one memory operand, whose
    effective address the host supplies through [ea]. *)
Definition memory_calls (insert : AFUNPTR) (ea : IARG) : list PinCall :=
  guarded_store IPOINT_BEFORE insert
    [IARG_REG_VALUE _nextBufferEntryReg; IARG_INST_PTR; ea;
     IARG_RETURN_REGS _nextBufferEntryReg].

Definition memread_calls : list PinCall :=
  memory_calls fp_TraceWriter_InsertMemoryReadEntry IARG_MEMORYREAD_EA.
Definition memread2_calls : list PinCall :=
  memory_calls fp_TraceWriter_InsertMemoryReadEntry IARG_MEMORYREAD2_EA.
Definition memwrite_calls : list PinCall :=
  memory_calls fp_TraceWriter_InsertMemoryWriteEntry IARG_MEMORYWRITE_EA.

(** The statement at which one iteration of the instruction loop ends:
    one of its [continue]s, or the closing brace of the loop body. *)
Inductive WalkExit :=
| continue_segment_prefix   (* line 170 *)
| continue_push             (* line 175 *)
| continue_pop              (* line 177 *)
| continue_lea              (* line 179 *)
| continue_cpuid            (* line 205 *)
| continue_rdrand           (* line 215 *)
| continue_call             (* line 242 *)
| continue_branch           (* line 267 *)
| continue_uninteresting    (* line 295 *)
| end_of_body.              (* line 368 *)

Global Instance WalkExit_eq_dec : EqDecision WalkExit.
Proof. solve_decision. Defined.

Section Planner.

Variable xed : xed_iclass_enum.

(** The memory-operand stage, lines 297-367. *)
Definition memory_stage (ins : INS) : list PinCall :=
  (if INS_IsMemoryRead ins && INS_IsStandardMemop ins then memread_calls else [])
  ++ (if INS_HasMemoryRead2 ins && INS_IsStandardMemop ins then memread2_calls else [])
  ++ (if INS_IsMemoryWrite ins && INS_IsStandardMemop ins then memwrite_calls else []).

(** The body of the instruction loop, lines 166-367, for one instruction of
    a block whose image has interest flag [interesting].  The result is the
    requests issued for [ins], in order, and where the iteration ended. *)
Definition InstrumentIns (useFixedRandomNumber interesting : bool) (ins : INS)
  : list PinCall * WalkExit :=
  if INS_SegmentPrefix ins then ([], continue_segment_prefix) else
  let opc := INS_Opcode ins in
  if (XED_ICLASS_PUSH xed <=? opc) && (opc <=? XED_ICLASS_PUSHFQ xed)
  then ([], continue_push) else
  if (XED_ICLASS_POP xed <=? opc) && (opc <=? XED_ICLASS_POPFQ xed)
  then ([], continue_pop) else
  if opc =? XED_ICLASS_LEA xed then ([], continue_lea) else
  if opc =? XED_ICLASS_CPUID xed then (cpuid_calls, continue_cpuid) else
  if (opc =? XED_ICLASS_RDRAND xed) && useFixedRandomNumber
  then (rdrand_calls ins, continue_rdrand) else
  if INS_IsCall ins then (call_calls, continue_call) else
  if INS_IsBranch ins then (branch_calls, continue_branch) else
  let ret := if INS_IsRet ins then ret_calls else [] in
  if negb interesting then (ret, continue_uninteresting) else
  (ret ++ memory_stage ins, end_of_body).

(** Lines 148-154: the first registered image that contains the block. *)
Fixpoint image_of_bbl (images : list ImageData) (bbl : BBL) : option ImageData :=
  match images with
  | [] => None
  | i :: rest => if ContainsBasicBlock i bbl then Some i else image_of_bbl rest bbl
  end.

(** Line 158. *)
Definition unresolved_bbl_line (bbl : BBL) : string :=
  "Error: Cannot resolve image of basic block " +:+ hex_string (BBL_Address bbl).

(** The instruction loop of one block, lines 164-368. *)
Definition InstrumentBblIns (useFixedRandomNumber interesting : bool)
    (inss : list INS) : list (INS * PinCall) :=
  flat_map (fun ins =>
    map (fun c => (ins, c)) (InstrumentIns useFixedRandomNumber interesting ins).1) inss.

(** [InstrumentTrace], lines 141-370: the requests issued for the trace, in
    order, each with the instruction it is attached to, and the globals
    afterwards (only [cerr] can change). *)
Fixpoint InstrumentTrace (trace : TRACE) (g : Globals)
  : list (INS * PinCall) * Globals :=
  match trace with
  | [] => ([], g)
  | bbl :: rest =>
    match image_of_bbl (_images g) bbl with
    | None =>
      InstrumentTrace rest
        (set_cerr g (put_line (set_hex (cerr g)) (unresolved_bbl_line bbl)))
    | Some img =>
      let interesting := IsInteresting img in
      let here := InstrumentBblIns (_useFixedRandomNumber g) interesting (BBL_Ins bbl) in
      let '(later, g') := InstrumentTrace rest g in
      (here ++ later, g')
    end
  end.

(** Steps 1-3 of the walk: the instruction is dropped before it is
    classified. *)
Definition in_push_range (ins : INS) : bool :=
  (XED_ICLASS_PUSH xed <=? INS_Opcode ins) && (INS_Opcode ins <=? XED_ICLASS_PUSHFQ xed).

Definition in_pop_range (ins : INS) : bool :=
  (XED_ICLASS_POP xed <=? INS_Opcode ins) && (INS_Opcode ins <=? XED_ICLASS_POPFQ xed).

Definition is_lea (ins : INS) : bool := INS_Opcode ins =? XED_ICLASS_LEA xed.

Definition filtered_1_3 (ins : INS) : bool :=
  INS_SegmentPrefix ins || in_push_range ins || in_pop_range ins || is_lea ins.

(** Steps 4 and 5: the instruction is a [CPUID], or an [RDRAND] while the
    override is on. *)
Definition filtered_4_5 (useFixedRandomNumber : bool) (ins : INS) : bool :=
  (INS_Opcode ins =? XED_ICLASS_CPUID xed)
  || ((INS_Opcode ins =? XED_ICLASS_RDRAND xed) && useFixedRandomNumber).

End Planner.

(** ** [main]: option handling *)

(** The default of the [-r] knob (line 27), written in hexadecimal at
    line 108. *)
Definition fixed_random_sentinel : Z := 0xBADBADBADBADBAD.

Definition tolower_ascii (c : ascii) : ascii :=
  let n := nat_of_ascii c in
  if ((65 <=? n) && (n <=? 90))%nat then ascii_of_nat (n + 32) else c.

(** Modelled from the spec: [tolower] of [Utilities.h] lower-cases a string
    in place. *)
Fixpoint tolower (s : string) : string :=
  match s with
  | EmptyString => EmptyString
  | String c rest => String (tolower_ascii c) (tolower rest)
  end.

(** [getline(stream, item, ';')] until the stream is exhausted: [cur] is
    the item being read.  A trailing empty item is not produced. *)
Fixpoint getline_items (s : string) (cur : string) : list string :=
  match s with
  | EmptyString => if decide (cur = EmptyString) then [] else [cur]
  | String c rest =>
    if decide (c = ";"%char) then cur :: getline_items rest EmptyString
    else getline_items rest (cur +:+ String c EmptyString)
  end.

(** [main], lines 85-113, after a successful [PIN_Init]: the values of the
    [-o], [-i] and [-r] knobs become the tool's globals. *)
Definition main (knobO knobI : string) (knobR : Z) : Globals :=
  let items := filter (fun item => item ≠ EmptyString) (getline_items knobI EmptyString) in
  let g0 :=
    {| KnobOutputFilePrefix := knobO;
       _interestingImages := map tolower items; _images := [];
       _useFixedRandomNumber := false; _fixedRandomNumber := 0;
       cerr := {| os_lines := []; os_hex := false |}; image_log := [];
       tls := ∅; heap := ∅; disk := ∅; stores := [] |} in
  if negb (knobR =? fixed_random_sentinel) then
    let g1 := set_fixed_random g0 true knobR in
    set_cerr g1 (put_line (cerr g1)
      ("Using fixed RDRAND output " +:+ show_unsigned (cerr g1) (_fixedRandomNumber g1)))
  else g0.

(** ** The image hook installer: [InstrumentImage] *)

(** What the host answers about a loaded image; [IMG_Rtns] lists the
    routine names for which [RTN_FindByName] yields a valid routine. *)
Record IMG := {
  IMG_Name : string;
  IMG_LowAddress : Z;
  IMG_HighAddress : Z;
  IMG_Rtns : list string
}.

(** [hay.find(needle) != string::npos]. *)
Fixpoint string_contains (hay needle : string) : bool :=
  String.prefix needle hay ||
  match hay with
  | EmptyString => false
  | String _ rest => string_contains rest needle
  end.

Definition RTN_Valid (img : IMG) (name : string) : bool :=
  bool_decide (name ∈ IMG_Rtns img).

(** Modelled from the spec: [TraceWriter::WriteImageLoadData] is not part
    of the sources at hand.  Section 6: one text line per loaded image,
    [<interesting> <low-hex> <high-hex> <name>]. *)
Definition WriteImageLoadData (interesting : bool) (imageStart imageEnd : Z)
    (imageName : string) : string :=
  (if interesting then "1" else "0") +:+ " " +:+ hex_string imageStart
  +:+ " " +:+ hex_string imageEnd +:+ " " +:+ imageName.

(** The store, not guarded by the null check, and the flush helper, called
    directly: the pair the routine hooks use (lines 472-482 and alike). *)
Definition hook_store (ip : IPOINT) (insert : AFUNPTR) (value : IARG) : list PinCall :=
  [ RTN_InsertCall ip insert
      [IARG_REG_VALUE _nextBufferEntryReg; value; IARG_RETURN_REGS _nextBufferEntryReg];
    RTN_InsertCall ip fp_CheckBufferAndStore
      [IARG_REG_VALUE _nextBufferEntryReg; IARG_REG_VALUE _entryBufferEndReg;
       IARG_THREAD_ID; IARG_RETURN_REGS _nextBufferEntryReg] ].

(** Lines 440-445. *)
Definition notifyStart_calls : list PinCall :=
  [ RTN_InsertCall IPOINT_BEFORE fp_TestcaseStart
      [IARG_FUNCARG_ENTRYPOINT_VALUE 0; IARG_THREAD_ID;
       IARG_REG_VALUE _nextBufferEntryReg; IARG_RETURN_REGS _nextBufferEntryReg] ].

(** Lines 455-459. *)
Definition notifyEnd_calls : list PinCall :=
  [ RTN_InsertCall IPOINT_BEFORE fp_TestcaseEnd
      [IARG_REG_VALUE _nextBufferEntryReg; IARG_THREAD_ID;
       IARG_RETURN_REGS _nextBufferEntryReg] ].

(** Lines 472-494. *)
Definition notifyStackPointer_calls : list PinCall :=
  hook_store IPOINT_BEFORE fp_TraceWriter_InsertStackPointerWriteEntry
    (IARG_FUNCARG_ENTRYPOINT_VALUE 0)
  ++ hook_store IPOINT_BEFORE fp_TraceWriter_InsertStackPointerWriteEntry
    (IARG_FUNCARG_ENTRYPOINT_VALUE 1).

(** Lines 506-529. *)
Definition malloc_calls : list PinCall :=
  hook_store IPOINT_BEFORE fp_TraceWriter_InsertAllocSizeParameterEntry
    (IARG_FUNCARG_ENTRYPOINT_VALUE 2)
  ++ hook_store IPOINT_AFTER fp_TraceWriter_InsertAllocAddressReturnEntry
    (IARG_REG_VALUE REG_RAX).

(** Lines 541-551. *)
Definition free_calls : list PinCall :=
  hook_store IPOINT_BEFORE fp_TraceWriter_InsertFreeAddressParameterEntry
    (IARG_FUNCARG_ENTRYPOINT_VALUE 2).

(** One [RTN_FindByName] block: if the routine exists, its calls are
    installed and a line is logged. *)
Definition hook_routine (img : IMG) (name : string) (calls : list PinCall)
    (line : string) (acc : list (string * PinCall) * ostream)
  : list (string * PinCall) * ostream :=
  if RTN_Valid img name
  then (acc.1 ++ map (fun c => (name, c)) calls, put_line acc.2 line)
  else acc.

(** [InstrumentImage], lines 413-556: registers the image and returns the
    requests issued on its routines, each with the routine's name. *)
Definition InstrumentImage (img : IMG) (g : Globals)
  : list (string * PinCall) * Globals :=
  let imageName := IMG_Name img in
  let imageNameLower := tolower imageName in
  let interesting :=
    existsb (fun interestingImageName => string_contains imageNameLower interestingImageName)
      (_interestingImages g) in
  let imageStart := IMG_LowAddress img in
  let imageEnd := IMG_HighAddress img in
  let g1 :=
    set_images g
      (_images g ++ [ {| _interesting := interesting; _name := imageName;
                         _startAddress := imageStart; _endAddress := imageEnd |} ])
      (image_log g ++ [WriteImageLoadData interesting imageStart imageEnd imageName]) in
  let os1 :=
    put_line (set_hex (cerr g1))
      ("Image '" +:+ imageName +:+ "' loaded at " +:+ hex_string imageStart
       +:+ " ... " +:+ hex_string imageEnd
       +:+ (if interesting then " [interesting]" else EmptyString)) in
  let r1 := hook_routine img "PinNotifyTestcaseStart" notifyStart_calls
              "    PinNotifyTestcaseStart() instrumented." ([], os1) in
  let r2 := hook_routine img "PinNotifyTestcaseEnd" notifyEnd_calls
              "    PinNotifyTestcaseEnd() instrumented." r1 in
  let r3 := hook_routine img "PinNotifyStackPointer" notifyStackPointer_calls
              "    PinNotifyStackPointer() instrumented." r2 in
  let r4 := hook_routine img "RtlAllocateHeap" malloc_calls
              "    malloc() instrumented." r3 in
  let r5 := hook_routine img "RtlFreeHeap" free_calls
              "    free() instrumented." r4 in
  (r5.1, set_cerr g1 r5.2).

(** ** The trace writer

    [TraceWriter.h] and [TraceWriter.cpp] are not part of the sources at
    hand; the operations below follow section 4.2 of the specification.  A
    method's [this] is named by the thread whose thread data holds the
    object, which is the only place the tool keeps writers. *)

(** Thread contexts: the value of every register. *)
Abbreviation CONTEXT := (REG → Z) (only parsing).

Definition PIN_GetContextReg (ctxt : CONTEXT) (r : REG) : Z := ctxt r.

(** The content of a 64-bit general register after [v] is written to its
    [w]-bit view, as the hardware does it: a 64-bit write replaces the
    register, a 32-bit write zero-extends, a 16-bit write keeps the upper
    48 bits. *)
Definition gpr_write (old : Z) (w : REG_WIDTH) (v : Z) : Z :=
  match w with
  | W64 => v mod 2 ^ 64
  | W32 => v mod 2 ^ 32
  | W16 => old - old mod 2 ^ 16 + v mod 2 ^ 16
  end.

(** Writing a register.  A context gives the value of every register
    name; writing one view of a general register changes what all its
    views read. *)
Definition PIN_SetContextReg (ctxt : CONTEXT) (r : REG) (v : Z) : CONTEXT :=
  fun r' =>
    match r, r' with
    | REG_GPR n w, REG_GPR n' w' =>
      if decide (n' = n)
      then gpr_write (ctxt (REG_GPR n W64)) w v mod 2 ^ width_bits w'
      else ctxt r'
    | _, _ => if decide (r' = r) then v else ctxt r'
    end.

Global Arguments PIN_SetContextReg : simpl never.

Definition PIN_GetThreadData (g : Globals) (tid : THREADID) : option TraceWriter :=
  tls g !! tid.

(** Modelled from the spec: [TraceWriter::Begin] is declared in
    [TraceWriter.h], which is not part of the sources at hand.  Section
    4.2: [begin()] is the pointer to slot 0. *)
Definition Begin (tw : TraceWriter) : Z := tw_begin tw.

(** Modelled from the spec: [TraceWriter::End] ([TraceWriter.h]).  Section
    4.2: [end()] is the pointer one past the last slot. *)
Definition End (tw : TraceWriter) : Z := tw_begin tw + tw_size tw.

(** Modelled from the spec: the margin of [TraceWriter::CheckBufferFull]
    ([TraceWriter.h]).  Section 4.2: [K] is "the maximum number of entries
    any single probe sequence may write before the next check (2
    suffices)". *)
Definition K : Z := 2.

(** Modelled from the spec: [TraceWriter::CheckBufferFull]
    ([TraceWriter.h]).  Section 4.2: [checkBufferFull(next, end)] is
    [next ≥ end - K]. *)
Definition CheckBufferFull (nextEntry entryBufferEnd : Z) : bool :=
  entryBufferEnd - K <=? nextEntry.

(** The slots [first], [first+1], ..., [first+n-1] of the heap; reading a
    slot that is not allocated is undefined. *)
Fixpoint read_slots (h : gmap Z TraceEntry) (first : Z) (n : nat)
  : option (list TraceEntry) :=
  match n with
  | O => Some []
  | S n' =>
    e ← h !! first;
    es ← read_slots h (first + 1) n';
    Some (e :: es)
  end.

(** Appending to a file of the disk. *)
Definition append_file (d : gmap string (list TraceEntry)) (f : string)
    (es : list TraceEntry) : gmap string (list TraceEntry) :=
  <[f := default [] (d !! f) ++ es]> d.

(** Modelled from the spec: [TraceWriter::WriteBufferToFile]
    ([TraceWriter.h]).  Section 4.2: [writeBufferToFile(last)] writes the
    slots [[begin, last)] to the current output file.  With no file open the
    write has no destination and the disk stays as it is. *)
Definition WriteBufferToFile (this : THREADID) (last : Z) (g : Globals)
  : option Globals :=
  tw ← tls g !! this;
  if last <? Begin tw then None else
  es ← read_slots (heap g) (Begin tw) (Z.to_nat (last - Begin tw));
  match tw_file tw with
  | Some f => Some (set_disk g (append_file (disk g) f es))
  | None => Some g
  end.

(** Modelled from the spec: the [TraceWriter::Insert*Entry] routines
    ([TraceWriter.h]).  Section 4.2: [insert<Kind>(next, ...)] is a
    bump-pointer write of one entry and returns [next + 1].  Section 7: a
    null buffer pointer reduces to "skip this entry", so that nothing is
    written and the pointer stays null.  Through any other pointer the
    store is raw; outside the allocated slots it is undefined. *)
Definition InsertEntry (nextEntry : Z) (e : TraceEntry) (g : Globals)
  : option (Z * Globals) :=
  if nextEntry =? NULL then Some (nextEntry, g) else
  _ ← heap g !! nextEntry;
  Some (nextEntry + 1,
        log_store (set_heap g (<[nextEntry := e]> (heap g))) (nextEntry, e)).

(** [static_cast<int>] of a 64-bit [ADDRINT]. *)
Definition static_cast_int (z : Z) : Z :=
  let m := z mod 2 ^ 32 in
  if m <? 2 ^ 31 then m else m - 2 ^ 32.

(** The name of the trace file of testcase [id]: [<prefix>_t<id>.trace]. *)
Definition trace_file_name (filePrefix : string) (id : Z) : string :=
  filePrefix +:+ "_t" +:+ dec_string id +:+ ".trace".

Definition set_writer_file (tw : TraceWriter) (file : option string)
    (testcase : option Z) : TraceWriter :=
  {| tw_prefix := tw_prefix tw; tw_begin := tw_begin tw; tw_size := tw_size tw;
     tw_file := file; tw_testcase := testcase |}.

(** Modelled from the spec: [TraceWriter::TestcaseStart]
    ([TraceWriter.h]).  Section 4.2: [testcaseStart(id, next)] flushes the
    current buffer (if nonempty), closes the current output file, opens
    [<prefix>_t<id>.trace] and records the id.  Sections 3 and 8: the file
    of a testcase is bracketed by a [TestcaseMarker] for its start and the
    matching one for its end; the start marker is the first entry of the
    fresh file. *)
Definition TraceWriter_TestcaseStart (this : THREADID) (id : Z) (nextEntry : Z)
    (g : Globals) : option Globals :=
  tw ← tls g !! this;
  g1 ← (if nextEntry =? Begin tw then Some g else WriteBufferToFile this nextEntry g);
  let file := trace_file_name (tw_prefix tw) id in
  Some (set_tls (set_disk g1 (<[file := [TestcaseMarker true id]]> (disk g1)))
          (<[this := set_writer_file tw (Some file) (Some id)]> (tls g1))).

(** Modelled from the spec: [TraceWriter::TestcaseEnd] ([TraceWriter.h]).
    Section 4.2: [testcaseEnd(next)] flushes, closes the file and records
    "no active testcase".  Sections 3 and 8: before the file of the active
    testcase is closed it receives the end marker that matches its start
    marker. *)
Definition TraceWriter_TestcaseEnd (this : THREADID) (nextEntry : Z)
    (g : Globals) : option Globals :=
  tw ← tls g !! this;
  g1 ← WriteBufferToFile this nextEntry g;
  let g2 :=
    match tw_file tw, tw_testcase tw with
    | Some f, Some id =>
      set_disk g1 (append_file (disk g1) f [TestcaseMarker false id])
    | _, _ => g1
    end in
  Some (set_tls g2 (<[this := set_writer_file tw None None]> (tls g2))).

(** Storing [es] into the fresh slots starting at [first]. *)
Fixpoint allocate_slots (h : gmap Z TraceEntry) (first : Z) (es : list TraceEntry)
  : gmap Z TraceEntry :=
  match es with
  | [] => h
  | e :: rest => <[first := e]> (allocate_slots h (first + 1) rest)
  end.

(** Modelled from the spec: the constructor of [TraceWriter]
    ([TraceWriter.h]).  Section 3: a writer owns a buffer of [N] slots, an
    output file handle and a testcase id; a file is opened per testcase.  The allocator picks the address
    [base]; [garbage] is what the [N] fresh slots happen to hold. *)
Definition new_TraceWriter (filePrefix : string) (base : Z) (garbage : list TraceEntry)
  : TraceWriter :=
  {| tw_prefix := filePrefix; tw_begin := base; tw_size := Z.of_nat (length garbage);
     tw_file := None; tw_testcase := None |}.

(** ** Thread callbacks and analysis routines (lines 372-409, 558-612) *)

(** [ThreadStart], lines 373-395.  For thread 0 the allocation of the
    writer is resolved by [base] and [garbage]. *)
Definition ThreadStart (base : Z) (garbage : list TraceEntry)
    (tid : THREADID) (ctxt : CONTEXT) (g : Globals) : CONTEXT * Globals :=
  if tid =? 0 then
    let traceWriter := new_TraceWriter (KnobOutputFilePrefix g) base garbage in
    let g1 := set_heap g (allocate_slots (heap g) base garbage) in
    let g2 := set_tls g1 (<[tid := traceWriter]> (tls g1)) in
    let ctxt1 := PIN_SetContextReg ctxt _nextBufferEntryReg (Begin traceWriter) in
    (PIN_SetContextReg ctxt1 _entryBufferEndReg (End traceWriter), g2)
  else
    let os := put_line (cerr g) ("Ignoring thread #" +:+ show_unsigned (cerr g) tid) in
    let ctxt1 := PIN_SetContextReg ctxt _nextBufferEntryReg NULL in
    (PIN_SetContextReg ctxt1 _entryBufferEndReg NULL, set_cerr g os).

(** Releasing the [n] slots starting at [first]. *)
Fixpoint free_slots (h : gmap Z TraceEntry) (first : Z) (n : nat) : gmap Z TraceEntry :=
  match n with
  | O => h
  | S n' => delete first (free_slots h (first + 1) n')
  end.

(** [ThreadFini], lines 398-409; [delete traceWriter] releases the
    writer's slots. *)
Definition ThreadFini (tid : THREADID) (ctxt : CONTEXT) (g : Globals)
  : option Globals :=
  if negb (tid =? 0) then Some g else
  traceWriter ← PIN_GetThreadData g tid;
  g1 ← WriteBufferToFile tid (PIN_GetContextReg ctxt _nextBufferEntryReg) g;
  let g2 := set_heap g1 (free_slots (heap g1) (Begin traceWriter)
                           (Z.to_nat (tw_size traceWriter))) in
  Some (set_tls g2 (delete tid (tls g2))).

(** [CheckBufferAndStore], lines 559-574. *)
Definition CheckBufferAndStore (nextEntry entryBufferEnd : Z) (tid : THREADID)
    (g : Globals) : option (Z * Globals) :=
  if negb (tid =? 0) || (nextEntry =? NULL) || (entryBufferEnd =? NULL)
  then Some (nextEntry, g)
  else if CheckBufferFull nextEntry entryBufferEnd then
    traceWriter ← PIN_GetThreadData g tid;
    g1 ← WriteBufferToFile tid entryBufferEnd g;
    Some (Begin traceWriter, g1)
  else Some (nextEntry, g).

(** [TestcaseStart], lines 577-583. *)
Definition TestcaseStart (newTestcaseId : ADDRINT) (tid : THREADID) (nextEntry : Z)
    (g : Globals) : option (Z * Globals) :=
  traceWriter ← PIN_GetThreadData g tid;
  g1 ← TraceWriter_TestcaseStart tid (static_cast_int newTestcaseId) nextEntry g;
  Some (Begin traceWriter, g1).

(** [TestcaseEnd], lines 586-592. *)
Definition TestcaseEnd (nextEntry : Z) (tid : THREADID) (g : Globals)
  : option (Z * Globals) :=
  traceWriter ← PIN_GetThreadData g tid;
  g1 ← TraceWriter_TestcaseEnd tid nextEntry g;
  Some (Begin traceWriter, g1).

(** [CheckNextTraceEntryPointerValid], lines 603-606. *)
Definition CheckNextTraceEntryPointerValid (nextEntry : Z) : ADDRINT := nextEntry.

(** [static_cast<ADDRINT>] of an [unsigned long long]. *)
Definition static_cast_ADDRINT (z : Z) : Z := z mod 2 ^ 64.

(** [ChangeRandomNumber], lines 609-612.  [outputReg] refers to the
    register the call was handed by [IARG_REG_REFERENCE], the destination
    of the instruction; the store goes through that register's width, so a
    64-bit destination receives the value and a 32- or 16-bit destination
    its low bits. *)
Definition ChangeRandomNumber (outputReg : REG) (ctxt : CONTEXT) (g : Globals)
  : CONTEXT :=
  PIN_SetContextReg ctxt outputReg (static_cast_ADDRINT (_fixedRandomNumber g)).

(** ** How the host runs installed calls

    The host evaluates the argument descriptors of a call at the point
    where it runs, passes the values to the analysis routine and, for
    [IARG_RETURN_REGS r], stores the routine's return value in [r].  A
    [Then] call runs only when the [If] call before it returned non-zero.
    At one instrumentation point the calls run in the order in which they
    were inserted. *)

(** What is known about one dynamic execution of an instruction or of a
    routine entry. *)
Record Exec := {
  ex_tid : THREADID;
  (** target of the control transfer, and whether control is transferred *)
  ex_branch_target : ADDRINT;
  ex_taken : bool;
  ex_memoryread_ea : ADDRINT;
  ex_memoryread2_ea : ADDRINT;
  ex_memorywrite_ea : ADDRINT;
  (** arguments at a routine's entry point *)
  ex_funcarg : nat → ADDRINT;
  (** the architectural effect of the instruction on the registers *)
  ex_effect : CONTEXT → CONTEXT
}.

(** Values handed to an analysis routine. *)
Inductive ArgVal :=
| AV_int (z : Z)
| AV_reg (r : REG)
| AV_context.

Definition Z_of_bool (b : bool) : Z := if b then 1 else 0.

Definition eval_iarg (ip : ADDRINT) (ex : Exec) (ctxt : CONTEXT) (a : IARG)
  : option ArgVal :=
  match a with
  | IARG_CONTEXT => Some AV_context
  | IARG_UINT32 n => Some (AV_int n)
  | IARG_UINT32_REG r => Some (AV_reg r)
  | IARG_BOOL b => Some (AV_int b)
  | IARG_REG_VALUE r => Some (AV_int (ctxt r))
  | IARG_REG_REFERENCE r => Some (AV_reg r)
  | IARG_INST_PTR => Some (AV_int ip)
  | IARG_BRANCH_TARGET_ADDR => Some (AV_int (ex_branch_target ex))
  | IARG_BRANCH_TAKEN => Some (AV_int (Z_of_bool (ex_taken ex)))
  | IARG_MEMORYREAD_EA => Some (AV_int (ex_memoryread_ea ex))
  | IARG_MEMORYREAD2_EA => Some (AV_int (ex_memoryread2_ea ex))
  | IARG_MEMORYWRITE_EA => Some (AV_int (ex_memorywrite_ea ex))
  | IARG_THREAD_ID => Some (AV_int (ex_tid ex))
  | IARG_FUNCARG_ENTRYPOINT_VALUE n => Some (AV_int (ex_funcarg ex n))
  | IARG_RETURN_REGS _ => None
  end.

Definition eval_iargs (ip : ADDRINT) (ex : Exec) (ctxt : CONTEXT) (args : list IARG)
  : list ArgVal :=
  omap (eval_iarg ip ex ctxt) args.

(** The register named by [IARG_RETURN_REGS], if any. *)
Fixpoint return_reg (args : list IARG) : option REG :=
  match args with
  | [] => None
  | IARG_RETURN_REGS r :: _ => Some r
  | _ :: rest => return_reg rest
  end.

Section Runtime.

(** [ChangeCpuId] lives in [CpuOverride.h]; what it stores in
    [eax, ebx, ecx, edx] for the inputs [eax, ecx] is a parameter. *)
Variable ChangeCpuId : Z → Z → Z * Z * Z * Z → Z * Z * Z * Z.

(** One analysis routine on evaluated arguments: its return value and the
    state afterwards.  [None] is undefined behaviour. *)
Definition analysis (f : AFUNPTR) (vals : list ArgVal) (ctxt : CONTEXT) (g : Globals)
  : option (Z * CONTEXT * Globals) :=
  match f, vals with
  | fp_PIN_SetContextReg, [AV_context; AV_reg r; AV_int v] =>
    Some (0, PIN_SetContextReg ctxt r v, g)
  | fp_ChangeCpuId, [AV_int eaxIn; AV_int ecxIn; AV_reg a; AV_reg b; AV_reg c; AV_reg d] =>
    let '(a', b', c', d') := ChangeCpuId eaxIn ecxIn (ctxt a, ctxt b, ctxt c, ctxt d) in
    Some (0, PIN_SetContextReg (PIN_SetContextReg (PIN_SetContextReg
               (PIN_SetContextReg ctxt a a') b b') c c') d d', g)
  | fp_ChangeRandomNumber, [AV_reg r] =>
    Some (0, ChangeRandomNumber r ctxt g, g)
  | fp_CheckNextTraceEntryPointerValid, [AV_int next] =>
    Some (CheckNextTraceEntryPointerValid next, ctxt, g)
  | fp_TraceWriter_InsertBranchEntry,
    [AV_int next; AV_int src; AV_int tgt; AV_int taken; AV_int type] =>
    '(r, g') ← InsertEntry next (Branch src tgt (negb (taken =? 0)) (negb (type =? 0))) g;
    Some (r, ctxt, g')
  | fp_TraceWriter_InsertRetBranchEntry, [AV_int next; AV_int src; AV_context] =>
    '(r, g') ← InsertEntry next (Ret src (PIN_GetContextReg ctxt REG_INST_PTR)) g;
    Some (r, ctxt, g')
  | fp_TraceWriter_InsertMemoryReadEntry, [AV_int next; AV_int src; AV_int ea] =>
    '(r, g') ← InsertEntry next (MemoryRead src ea) g; Some (r, ctxt, g')
  | fp_TraceWriter_InsertMemoryWriteEntry, [AV_int next; AV_int src; AV_int ea] =>
    '(r, g') ← InsertEntry next (MemoryWrite src ea) g; Some (r, ctxt, g')
  | fp_TraceWriter_InsertStackPointerWriteEntry, [AV_int next; AV_int v] =>
    '(r, g') ← InsertEntry next (StackPointer v) g; Some (r, ctxt, g')
  | fp_TraceWriter_InsertAllocSizeParameterEntry, [AV_int next; AV_int v] =>
    '(r, g') ← InsertEntry next (AllocSize v) g; Some (r, ctxt, g')
  | fp_TraceWriter_InsertAllocAddressReturnEntry, [AV_int next; AV_int v] =>
    '(r, g') ← InsertEntry next (AllocReturn v) g; Some (r, ctxt, g')
  | fp_TraceWriter_InsertFreeAddressParameterEntry, [AV_int next; AV_int v] =>
    '(r, g') ← InsertEntry next (FreeAddress v) g; Some (r, ctxt, g')
  | fp_TraceWriter_CheckBufferFull, [AV_int next; AV_int e] =>
    Some (Z_of_bool (CheckBufferFull next e), ctxt, g)
  | fp_CheckBufferAndStore, [AV_int next; AV_int e; AV_int tid] =>
    '(r, g') ← CheckBufferAndStore next e tid g; Some (r, ctxt, g')
  | fp_TestcaseStart, [AV_int id; AV_int tid; AV_int next] =>
    '(r, g') ← TestcaseStart id tid next g; Some (r, ctxt, g')
  | fp_TestcaseEnd, [AV_int next; AV_int tid] =>
    '(r, g') ← TestcaseEnd next tid g; Some (r, ctxt, g')
  | _, _ => None
  end.

(** One call: evaluate the arguments, run the routine, store the result in
    the return register. *)
Definition invoke (ip : ADDRINT) (ex : Exec) (f : AFUNPTR) (args : list IARG)
    (ctxt : CONTEXT) (g : Globals) : option (Z * CONTEXT * Globals) :=
  '(r, ctxt1, g1) ← analysis f (eval_iargs ip ex ctxt args) ctxt g;
  match return_reg args with
  | Some reg => Some (r, PIN_SetContextReg ctxt1 reg r, g1)
  | None => Some (r, ctxt1, g1)
  end.

(** The calls of [cs] that sit at point [at_], in order; [guard] is the
    value the latest [If] call returned. *)
Fixpoint run_calls (ip : ADDRINT) (ex : Exec) (at_ : IPOINT) (cs : list PinCall)
    (guard : Z) (ctxt : CONTEXT) (g : Globals) : option (CONTEXT * Globals) :=
  match cs with
  | [] => Some (ctxt, g)
  | c :: rest =>
    if decide (call_ipoint c = at_) then
      match c with
      | INS_InsertCall _ f args | RTN_InsertCall _ f args =>
        '(_, ctxt1, g1) ← invoke ip ex f args ctxt g;
        run_calls ip ex at_ rest guard ctxt1 g1
      | INS_InsertIfCall _ f args =>
        '(r, ctxt1, g1) ← invoke ip ex f args ctxt g;
        run_calls ip ex at_ rest r ctxt1 g1
      | INS_InsertThenCall _ f args =>
        if guard =? 0 then run_calls ip ex at_ rest guard ctxt g
        else
          '(_, ctxt1, g1) ← invoke ip ex f args ctxt g;
          run_calls ip ex at_ rest guard ctxt1 g1
      end
    else run_calls ip ex at_ rest guard ctxt g
  end.

(** The instruction itself: it changes application registers only. *)
Definition apply_effect (ex : Exec) (ctxt : CONTEXT) : CONTEXT :=
  fun r => if is_tool_register r then ctxt r else ex_effect ex ctxt r.

(** One executed instruction with the calls installed on it: the calls
    before it, the instruction, then the calls on the edge it leaves by
    (taken branch or fall-through). *)
Definition exec_ins (ins : INS) (calls : list PinCall) (ex : Exec)
    (ctxt : CONTEXT) (g : Globals) : option (CONTEXT * Globals) :=
  '(ctxt1, g1) ← run_calls (INS_Address ins) ex IPOINT_BEFORE calls 0 ctxt g;
  let ctxt2 := apply_effect ex ctxt1 in
  run_calls (INS_Address ins) ex
    (if ex_taken ex then IPOINT_TAKEN_BRANCH else IPOINT_AFTER) calls 0 ctxt2 g1.

(** Entry of a hooked routine: the calls installed at [IPOINT_BEFORE]. *)
Definition exec_rtn_entry (entry : ADDRINT) (calls : list PinCall) (ex : Exec)
    (ctxt : CONTEXT) (g : Globals) : option (CONTEXT * Globals) :=
  run_calls entry ex IPOINT_BEFORE calls 0 ctxt g.

End Runtime.

(** ** Vocabulary of the statements *)

(** The traced thread between two events: its writer [tw] is the thread
    data of thread 0, the buffer is allocated and not at address 0, and the
    two tool registers hold a write pointer inside the buffer and the
    buffer's end. *)
Record traced (tw : TraceWriter) (ctxt : CONTEXT) (g : Globals) : Prop := {
  traced_writer : tls g !! 0 = Some tw;
  traced_nonnull : 0 < Begin tw;
  traced_size : 0 < tw_size tw;
  traced_alloc : ∀ p, Begin tw ≤ p < End tw → is_Some (heap g !! p);
  traced_next : Begin tw ≤ ctxt _nextBufferEntryReg < End tw;
  traced_end : ctxt _entryBufferEndReg = End tw
}.

(** The entries the memory-operand stage records for one execution. *)
Definition memory_entries (ins : INS) (ex : Exec) : list TraceEntry :=
  (if INS_IsMemoryRead ins && INS_IsStandardMemop ins
   then [MemoryRead (INS_Address ins) (ex_memoryread_ea ex)] else [])
  ++ (if INS_HasMemoryRead2 ins && INS_IsStandardMemop ins
      then [MemoryRead (INS_Address ins) (ex_memoryread2_ea ex)] else [])
  ++ (if INS_IsMemoryWrite ins && INS_IsStandardMemop ins
      then [MemoryWrite (INS_Address ins) (ex_memorywrite_ea ex)] else []).

(** The two routines that record a memory access. *)
Definition is_memory_insert (f : AFUNPTR) : bool :=
  match f with
  | fp_TraceWriter_InsertMemoryReadEntry | fp_TraceWriter_InsertMemoryWriteEntry => true
  | _ => false
  end.


(** A run of instrumented instructions on one thread: each step is an
    executed instruction, the interest flag of the image that owns its
    block, and what the host knows about the execution. *)
Fixpoint exec_steps (cpuid : Z → Z → Z * Z * Z * Z → Z * Z * Z * Z)
    (xed : xed_iclass_enum) (useFixedRandomNumber : bool)
    (steps : list (bool * INS * Exec)) (ctxt : REG → Z) (g : Globals)
  : option ((REG → Z) * Globals) :=
  match steps with
  | [] => Some (ctxt, g)
  | (interesting, ins, ex) :: rest =>
    '(ctxt1, g1) ← exec_ins cpuid ins
                     (InstrumentIns xed useFixedRandomNumber interesting ins).1 ex ctxt g;
    exec_steps cpuid xed useFixedRandomNumber rest ctxt1 g1
  end.

(** The requests installed on the routine [name]. *)
Definition rtn_calls (name : string) (l : list (string * PinCall)) : list PinCall :=
  (filter (λ p, p.1 = name) l).*2.

(** The disk after the slots [es] went to the writer's open file. *)
Definition flushed_disk (tw : TraceWriter) (es : list TraceEntry)
    (d : gmap string (list TraceEntry)) : gmap string (list TraceEntry) :=
  match tw_file tw with
  | Some f => append_file d f es
  | None => d
  end.

(** ** Sample data

    A small run of the tool, used to instantiate the statements below. *)

(** Opcode numbers in the decoder's alphabetical order. *)
Definition sample_xed : xed_iclass_enum :=
  {| XED_ICLASS_CPUID := 117; XED_ICLASS_LEA := 356;
     XED_ICLASS_POP := 600; XED_ICLASS_POPFQ := 606;
     XED_ICLASS_PUSH := 650; XED_ICLASS_PUSHFQ := 655;
     XED_ICLASS_RDRAND := 672 |}.

Definition sample_ins (addr : Z) (opc : Z) : INS :=
  {| INS_Address := addr; INS_SegmentPrefix := false; INS_Opcode := opc;
     INS_IsCall := false; INS_IsBranch := false; INS_IsRet := false;
     INS_IsMemoryRead := false; INS_HasMemoryRead2 := false;
     INS_IsMemoryWrite := false; INS_IsStandardMemop := false;
     INS_RegW0 := REG_GR 0 |}.

(** [mov rax, [rbx]] *)
Definition ins_load : INS :=
  {| INS_Address := 0x1000; INS_SegmentPrefix := false; INS_Opcode := 400;
     INS_IsCall := false; INS_IsBranch := false; INS_IsRet := false;
     INS_IsMemoryRead := true; INS_HasMemoryRead2 := false;
     INS_IsMemoryWrite := false; INS_IsStandardMemop := true;
     INS_RegW0 := REG_RAX |}.

(** [call rel32] *)
Definition ins_call : INS :=
  {| INS_Address := 0x1004; INS_SegmentPrefix := false; INS_Opcode := 100;
     INS_IsCall := true; INS_IsBranch := false; INS_IsRet := false;
     INS_IsMemoryRead := false; INS_HasMemoryRead2 := false;
     INS_IsMemoryWrite := true; INS_IsStandardMemop := true;
     INS_RegW0 := REG_GR 4 |}.

(** [ret] *)
Definition ins_ret : INS :=
  {| INS_Address := 0x1009; INS_SegmentPrefix := false; INS_Opcode := 700;
     INS_IsCall := false; INS_IsBranch := false; INS_IsRet := true;
     INS_IsMemoryRead := true; INS_HasMemoryRead2 := false;
     INS_IsMemoryWrite := false; INS_IsStandardMemop := true;
     INS_RegW0 := REG_GR 4 |}.

(** [rdrand rax] *)
Definition ins_rdrand : INS := sample_ins 0x100a 672.

(** [rdrand rax] behind a [gs] segment-override prefix *)
Definition ins_rdrand_gs : INS :=
  {| INS_Address := 0x100d; INS_SegmentPrefix := true; INS_Opcode := 672;
     INS_IsCall := false; INS_IsBranch := false; INS_IsRet := false;
     INS_IsMemoryRead := false; INS_HasMemoryRead2 := false;
     INS_IsMemoryWrite := false; INS_IsStandardMemop := false;
     INS_RegW0 := REG_RAX |}.

(** [call gs:[rax]]: a call that is also a segment-prefixed memory read *)
Definition ins_call_gs : INS :=
  {| INS_Address := 0x1011; INS_SegmentPrefix := true; INS_Opcode := 100;
     INS_IsCall := true; INS_IsBranch := false; INS_IsRet := false;
     INS_IsMemoryRead := true; INS_HasMemoryRead2 := false;
     INS_IsMemoryWrite := true; INS_IsStandardMemop := true;
     INS_RegW0 := REG_GR 4 |}.

(** [rdrand eax] *)
Definition ins_rdrand_eax : INS :=
  {| INS_Address := 0x1020; INS_SegmentPrefix := false; INS_Opcode := 672;
     INS_IsCall := false; INS_IsBranch := false; INS_IsRet := false;
     INS_IsMemoryRead := false; INS_HasMemoryRead2 := false;
     INS_IsMemoryWrite := false; INS_IsStandardMemop := false;
     INS_RegW0 := REG_EAX |}.

Definition img_a : IMG :=
  {| IMG_Name := "C:\bin\A.exe"; IMG_LowAddress := 0x1000; IMG_HighAddress := 0x1fff;
     IMG_Rtns := ["PinNotifyTestcaseStart"; "PinNotifyTestcaseEnd"] |}.

Definition img_b : IMG :=
  {| IMG_Name := "C:\bin\b.dll"; IMG_LowAddress := 0x4000; IMG_HighAddress := 0x4fff;
     IMG_Rtns := ["RtlAllocateHeap"] |}.

Definition bbl_a : BBL :=
  {| BBL_Address := 0x1000; BBL_Ins := [ins_load; ins_call] |}.
Definition bbl_a_ret : BBL :=
  {| BBL_Address := 0x1009; BBL_Ins := [ins_ret; ins_rdrand; ins_rdrand_gs; ins_call_gs] |}.
Definition bbl_a_rdrand : BBL :=
  {| BBL_Address := 0x1020; BBL_Ins := [ins_rdrand_eax] |}.
Definition bbl_b : BBL :=
  {| BBL_Address := 0x4000; BBL_Ins := [ins_load; ins_ret] |}.
Definition bbl_nowhere : BBL :=
  {| BBL_Address := 0x9000; BBL_Ins := [ins_load; ins_call] |}.

(** The globals once [A.exe] and [b.dll] are loaded, for [-i a.exe] and a
    given [-r]. *)
Definition loaded (knobR : Z) : Globals :=
  (InstrumentImage img_b (InstrumentImage img_a (main "out" "a.exe" knobR)).2).2.

Definition cpuid_default : Z → Z → Z * Z * Z * Z → Z * Z * Z * Z :=
  fun _ _ out => out.

Definition ctxt_zero : REG → Z := fun _ => 0.

(** Thread 0 has started; its writer has four slots at address 100,
    holding whatever the fresh memory held. *)
Definition garbage4 : list TraceEntry :=
  [FreeAddress 1; FreeAddress 2; FreeAddress 3; FreeAddress 4].

Definition started (knobR : Z) : (REG → Z) * Globals :=
  ThreadStart 100 garbage4 0 ctxt_zero (loaded knobR).

Definition sample_tw : TraceWriter := new_TraceWriter "out" 100 garbage4.

Definition ex_plain (tid : Z) : Exec :=
  {| ex_tid := tid; ex_branch_target := 0x4000; ex_taken := false;
     ex_memoryread_ea := 0x7000; ex_memoryread2_ea := 0x7008;
     ex_memorywrite_ea := 0x7010; ex_funcarg := fun n => 7 + Z.of_nat n;
     ex_effect := fun c => c |}.

(** A transfer of control to [0x4000]; the hardware leaves [99] in [rax]. *)
Definition ex_jump (tid : Z) : Exec :=
  {| ex_tid := tid; ex_branch_target := 0x4000; ex_taken := true;
     ex_memoryread_ea := 0x7000; ex_memoryread2_ea := 0x7008;
     ex_memorywrite_ea := 0x7010; ex_funcarg := fun n => 7 + Z.of_nat n;
     ex_effect := fun c => PIN_SetContextReg (PIN_SetContextReg c REG_INST_PTR 0x4000)
                             REG_RAX 99 |}.

(** A fall-through instruction that leaves [99] in [rax]. *)
Definition ex_rax99 (tid : Z) : Exec :=
  {| ex_tid := tid; ex_branch_target := 0; ex_taken := false;
     ex_memoryread_ea := 0x7000; ex_memoryread2_ea := 0x7008;
     ex_memorywrite_ea := 0x7010; ex_funcarg := fun n => 7 + Z.of_nat n;
     ex_effect := fun c => PIN_SetContextReg c REG_RAX 99 |}.



(** ** Further vocabulary: the planner's output in closed form *)

(** The error lines of a trace: one per block that has no owning image. *)
Definition unresolved_lines (images : list ImageData) (trace : TRACE) : list string :=
  flat_map (λ bbl, match image_of_bbl images bbl with
                   | None => [unresolved_bbl_line bbl]
                   | Some _ => []
                   end) trace.

(** The block has an owning image. *)
Definition attributable (images : list ImageData) (bbl : BBL) : Prop :=
  is_Some (image_of_bbl images bbl).

(** ** Further vocabulary: what a request can touch *)

Definition call_args (c : PinCall) : list IARG :=
  match c with
  | INS_InsertCall _ _ args | INS_InsertIfCall _ _ args | INS_InsertThenCall _ _ args
  | RTN_InsertCall _ _ args => args
  end.

(** The three routines that are handed a register to write to. *)
Definition writes_registers (f : AFUNPTR) : bool :=
  match f with
  | fp_PIN_SetContextReg | fp_ChangeCpuId | fp_ChangeRandomNumber => true
  | _ => false
  end.

(** The request can change no register but the write pointer: its routine
    is handed no register, and its return value goes nowhere or to
    [_nextBufferEntryReg]. *)
Definition pointer_only (c : PinCall) : bool :=
  negb (writes_registers (call_fun c))
  && match return_reg (call_args c) with
     | None => true
     | Some r => bool_decide (r = _nextBufferEntryReg)
     end.

(** ** Further vocabulary: the content of the buffer and of the trace file *)

(** Return of a hooked routine: the calls installed at [IPOINT_AFTER]. *)
Definition exec_rtn_return (cpuid : Z → Z → Z * Z * Z * Z → Z * Z * Z * Z)
    (ret : ADDRINT) (calls : list PinCall) (ex : Exec)
    (ctxt : REG → Z) (g : Globals) : option ((REG → Z) * Globals) :=
  run_calls cpuid ret ex IPOINT_AFTER calls 0 ctxt g.

(** The entries waiting in the buffer of [tw]: its slots below the write
    pointer [next]. *)
Definition pending (tw : TraceWriter) (next : Z) (g : Globals)
  : option (list TraceEntry) :=
  read_slots (heap g) (Begin tw) (Z.to_nat (next - Begin tw)).

(** The traced thread between two events, with [B] what it has recorded
    for the open trace file: the content of the file followed by the
    pending entries.  While no file is open, [B] says nothing. *)
Record buffered (tw : TraceWriter) (B : list TraceEntry) (ctxt : REG → Z)
    (g : Globals) : Prop := {
  buffered_traced : traced tw ctxt g;
  buffered_content : ∀ f, tw_file tw = Some f →
    ∃ P, pending tw (ctxt _nextBufferEntryReg) g = Some P
         ∧ default [] (disk g !! f) ++ P = B
}.

(** From write pointer [next] and record [B] to [next'] and [B']: the
    record grew at its end, the entries [es] are in the new part in their
    order, and the new part is exactly [es] when they fit below the flush
    margin. *)
Definition appended (tw : TraceWriter) (es : list TraceEntry)
    (next : Z) (B : list TraceEntry) (next' : Z) (B' : list TraceEntry) : Prop :=
  ∃ tail, B' = B ++ tail ∧ es `sublist_of` tail
          ∧ (next + Z.of_nat (length es) < End tw - K →
             tail = es ∧ next' = next + Z.of_nat (length es)).

(** The entries one executed instruction records on the traced thread;
    [seen] is the context the instruction ran on. *)
Definition ins_entries (xed : xed_iclass_enum) (useFixedRandomNumber interesting : bool)
    (ins : INS) (ex : Exec) (seen : REG → Z) : list TraceEntry :=
  if filtered_1_3 xed ins || filtered_4_5 xed useFixedRandomNumber ins then [] else
  if INS_IsCall ins
  then [Branch (INS_Address ins) (ex_branch_target ex) true true] else
  if INS_IsBranch ins
  then [Branch (INS_Address ins) (ex_branch_target ex) (ex_taken ex) false] else
  (if interesting then memory_entries ins ex else [])
  ++ (if INS_IsRet ins && ex_taken ex
      then [Ret (INS_Address ins) (ex_effect ex seen REG_INST_PTR)] else []).

(** * Properties *)

(** ** The planner *)

Section PlannerFacts.

Variable xed : xed_iclass_enum.

Lemma InstrumentIns_filtered u i ins :
  filtered_1_3 xed ins = true → (InstrumentIns xed u i ins).1 = [].
Proof.
  unfold filtered_1_3, in_push_range, in_pop_range, is_lea, InstrumentIns.
  intros H. destruct (INS_SegmentPrefix ins); [done|]. simpl in H.
  destruct (_ && _); [done|]. destruct (_ && _); [done|].
  simpl in H. by rewrite H.
Qed.

Lemma InstrumentIns_unfiltered u i ins :
  filtered_1_3 xed ins = false → filtered_4_5 xed u ins = false →
  InstrumentIns xed u i ins =
    if INS_IsCall ins then (call_calls, continue_call) else
    if INS_IsBranch ins then (branch_calls, continue_branch) else
    let ret := if INS_IsRet ins then ret_calls else [] in
    if negb i then (ret, continue_uninteresting)
    else (ret ++ memory_stage ins, end_of_body).
Proof.
  unfold filtered_1_3, filtered_4_5, in_push_range, in_pop_range, is_lea, InstrumentIns.
  intros H1 H2.
  apply orb_false_elim in H1 as [H1 Hlea].
  apply orb_false_elim in H1 as [H1 Hpop].
  apply orb_false_elim in H1 as [Hseg Hpush].
  apply orb_false_elim in H2 as [Hcpuid Hrd].
  by rewrite Hseg, Hpush, Hpop, Hlea, Hcpuid, Hrd.
Qed.

(** [InstrumentTrace] touches no global but [cerr]. *)
Lemma InstrumentTrace_globals trace g :
  ∃ os, (InstrumentTrace xed trace g).2 = set_cerr g os.
Proof.
  revert g. induction trace as [|bbl rest IH]; intros g; simpl.
  - exists (cerr g). by destruct g.
  - destruct (image_of_bbl (_images g) bbl) as [img|].
    + destruct (InstrumentTrace xed rest g) as [later g'] eqn:E.
      destruct (IH g) as [os Hos]. rewrite E in Hos. by exists os.
    + destruct (IH (set_cerr g (put_line (set_hex (cerr g)) (unresolved_bbl_line bbl))))
        as [os Hos].
      exists os. by rewrite Hos.
Qed.

(** The requests do not depend on the state of [cerr]. *)
Lemma InstrumentTrace_calls_cerr trace g os :
  (InstrumentTrace xed trace (set_cerr g os)).1 = (InstrumentTrace xed trace g).1.
Proof.
  revert g os. induction trace as [|bbl rest IH]; intros g os; simpl; [done|].
  destruct (image_of_bbl (_images g) bbl) as [img|].
  - specialize (IH g os).
    destruct (InstrumentTrace xed rest (set_cerr g os)) as [l1 g1].
    destruct (InstrumentTrace xed rest g) as [l2 g2]. simpl in *. by rewrite IH.
  - rewrite !IH. done.
Qed.

(** The walk over a trace is the walk over its parts, one after the
    other. *)
Lemma InstrumentTrace_app t1 t2 g :
  InstrumentTrace xed (t1 ++ t2) g =
    let '(c1, g1) := InstrumentTrace xed t1 g in
    let '(c2, g2) := InstrumentTrace xed t2 g1 in
    (c1 ++ c2, g2).
Proof.
  revert g. induction t1 as [|bbl rest IH]; intros g; simpl.
  - by destruct (InstrumentTrace xed t2 g).
  - destruct (image_of_bbl (_images g) bbl) as [img|].
    + rewrite IH. destruct (InstrumentTrace xed rest g) as [c1 g1].
      destruct (InstrumentTrace xed t2 g1) as [c2 g2]. by rewrite app_assoc.
    + by rewrite IH.
Qed.

(** A request is issued on an instruction exactly when the instruction sits
    in a block of the trace that has an owning image, and the instruction
    loop issues it there. *)
Lemma InstrumentTrace_In trace g ins c :
  (ins, c) ∈ (InstrumentTrace xed trace g).1 ↔
  ∃ bbl img, bbl ∈ trace ∧ image_of_bbl (_images g) bbl = Some img ∧
    ins ∈ BBL_Ins bbl ∧
    c ∈ (InstrumentIns xed (_useFixedRandomNumber g) (IsInteresting img) ins).1.
Proof.
  revert g. induction trace as [|bbl rest IH]; intros g; simpl.
  - split; [by intros ?%elem_of_nil|]. by intros (? & ? & ?%elem_of_nil & _).
  - destruct (image_of_bbl (_images g) bbl) as [img|] eqn:Himg.
    + specialize (IH g). destruct (InstrumentTrace xed rest g) as [later g'].
      simpl in *. rewrite elem_of_app, IH. unfold InstrumentBblIns.
      rewrite (list_elem_of_In (flat_map _ _)), in_flat_map. split.
      * intros [(ins' & Hin & Hc) | (b & im & Hb & Him & Hi & Hc)].
        -- apply in_map_iff in Hc as (c' & [= -> ->] & Hc').
           exists bbl, img. apply list_elem_of_In in Hin, Hc'.
           split_and!; [by left|done..].
        -- exists b, im. split_and!; [by right|done..].
      * intros (b & im & Hb & Him & Hi & Hc).
        apply elem_of_cons in Hb as [-> | Hb].
        -- left. exists ins. rewrite Himg in Him. injection Him as <-.
           apply list_elem_of_In in Hi, Hc. split; [done|].
           apply in_map_iff. by exists c.
        -- right. by exists b, im.
    + rewrite IH. simpl. split.
      * intros (b & im & Hb & Him & Hi & Hc). exists b, im.
        split_and!; [by right|done..].
      * intros (b & im & Hb & Him & Hi & Hc).
        apply elem_of_cons in Hb as [-> | Hb]; [congruence|].
        by exists b, im.
Qed.

End PlannerFacts.

(** ** The trace buffer at run time *)

Lemma read_slots_is_Some h first n :
  (∀ p, first ≤ p < first + Z.of_nat n → is_Some (h !! p)) →
  is_Some (read_slots h first n).
Proof.
  revert first. induction n as [|n IH]; intros first H; simpl; [by eexists|].
  destruct (H first) as [e He]; [lia|]. rewrite He. simpl.
  destruct (IH (first + 1)) as [es Hes]; [intros p Hp; apply H; lia|].
  rewrite Hes. by eexists.
Qed.

Lemma read_slots_length h first n es :
  read_slots h first n = Some es → length es = n.
Proof.
  revert first es. induction n as [|n IH]; intros first es; simpl.
  - by intros [= <-].
  - destruct (h !! first); [|done]. simpl.
    destruct (read_slots h (first + 1) n) eqn:E; [|done]. simpl.
    intros [= <-]. simpl. f_equal. by eapply IH.
Qed.

(** A flush moves slots to the disk and changes nothing else. *)
Lemma WriteBufferToFile_disk this last g g' :
  WriteBufferToFile this last g = Some g' → ∃ d, g' = set_disk g d.
Proof.
  unfold WriteBufferToFile. destruct (tls g !! this) as [tw|]; [|done]. simpl.
  destruct (last <? Begin tw); [done|].
  destruct (read_slots _ _ _) as [es|]; [|done]. simpl.
  destruct (tw_file tw); intros [= <-]; [by eexists|].
  exists (disk g). by destruct g.
Qed.

Lemma WriteBufferToFile_traced tw ctxt g :
  traced tw ctxt g → is_Some (WriteBufferToFile 0 (End tw) g).
Proof.
  intros T. unfold WriteBufferToFile. rewrite (traced_writer _ _ _ T). simpl.
  pose proof (traced_size _ _ _ T). unfold End, Begin in *.
  destruct (tw_begin tw + tw_size tw <? tw_begin tw) eqn:E; [lia|].
  destruct (read_slots_is_Some (heap g) (tw_begin tw)
              (Z.to_nat (tw_begin tw + tw_size tw - tw_begin tw))) as [es Hes].
  { intros p Hp. apply (traced_alloc _ _ _ T). unfold End, Begin. lia. }
  rewrite Hes. simpl. destruct (tw_file tw); by eexists.
Qed.

(** A write changes no register that does not overlap the one written. *)
Lemma PIN_SetContextReg_other ctxt r v r' :
  reg_overlap r' r = false → PIN_SetContextReg ctxt r v r' = ctxt r'.
Proof.
  unfold PIN_SetContextReg, reg_overlap.
  destruct r' as [|n' w'|n'], r as [|n w|n]; intros H;
    apply bool_decide_eq_false_1 in H; try done;
    rewrite decide_False; congruence.
Qed.

Lemma reg_overlap_tool r n : r ≠ REG_INST_G n → reg_overlap r (REG_INST_G n) = false.
Proof.
  intros H. unfold reg_overlap. destruct r; by apply bool_decide_eq_false_2.
Qed.

Lemma reg_overlap_not_tool r n :
  is_tool_register r = false → reg_overlap (REG_INST_G n) r = false.
Proof.
  intros H. unfold reg_overlap. destruct r; try done; by apply bool_decide_eq_false_2.
Qed.

Lemma PIN_SetContextReg_other_tool ctxt r v r' :
  is_tool_register r = true → r' ≠ r → PIN_SetContextReg ctxt r v r' = ctxt r'.
Proof.
  intros Ht H. destruct r as [| |n]; try done.
  by apply PIN_SetContextReg_other, reg_overlap_tool.
Qed.

(** Reading back the register that was written gives what its width
    keeps of the value. *)
Lemma PIN_SetContextReg_read ctxt r v : PIN_SetContextReg ctxt r v r = reg_trunc r v.
Proof.
  unfold PIN_SetContextReg, reg_trunc. destruct r as [|n w|n].
  - by rewrite decide_True.
  - rewrite decide_True by done. destruct w; unfold gpr_write, width_bits.
    + pose proof (Z.div_mod (ctxt (REG_GPR n W64)) (2 ^ 16)) as Hdm.
      replace (ctxt (REG_GPR n W64) - ctxt (REG_GPR n W64) mod 2 ^ 16)
        with (ctxt (REG_GPR n W64) / 2 ^ 16 * 2 ^ 16) by lia.
      rewrite Z.add_comm, Z.mod_add by lia. by rewrite Z.mod_mod by lia.
    + by rewrite Z.mod_mod by lia.
    + by rewrite Z.mod_mod by lia.
  - by rewrite decide_True.
Qed.

Lemma PIN_SetContextReg_same ctxt r v :
  is_tool_register r = true → PIN_SetContextReg ctxt r v r = v.
Proof. intros H. rewrite PIN_SetContextReg_read. by destruct r. Qed.

Lemma traced_set_disk tw ctxt g d : traced tw ctxt g → traced tw ctxt (set_disk g d).
Proof. intros [? ? ? ? ? ?]. by constructor. Qed.

Lemma allocate_slots_is_Some h first es p :
  first ≤ p < first + Z.of_nat (length es) → is_Some (allocate_slots h first es !! p).
Proof.
  revert first. induction es as [|e es IH]; intros first Hp; simpl in *; [lia|].
  destruct (decide (p = first)) as [->|Hne].
  - rewrite lookup_insert_eq. by eexists.
  - rewrite lookup_insert_ne by done. apply IH. lia.
Qed.

(** [ThreadStart] on thread 0 leaves the thread between two events, with
    an empty buffer. *)
Lemma ThreadStart_traced base garbage ctxt g :
  0 < base → garbage ≠ [] →
  traced (new_TraceWriter (KnobOutputFilePrefix g) base garbage)
    (ThreadStart base garbage 0 ctxt g).1 (ThreadStart base garbage 0 ctxt g).2
  ∧ (ThreadStart base garbage 0 ctxt g).1 _nextBufferEntryReg = base.
Proof.
  intros Hbase Hne. unfold ThreadStart. simpl.
  assert (0 < Z.of_nat (length garbage)) by (destruct garbage; [done|simpl; lia]).
  split; [|done]. constructor; simpl; unfold Begin, End; simpl; try done.
  - by rewrite lookup_insert_eq.
  - intros p Hp. by apply allocate_slots_is_Some.
  - rewrite PIN_SetContextReg_other by done. rewrite PIN_SetContextReg_same by done. lia.
Qed.

(** Reduce a bind whose argument is a known result. *)
Ltac step_bind := cbn [mbind option_bind].

Section RuntimeFacts.

Variable cpuid : Z → Z → Z * Z * Z * Z → Z * Z * Z * Z.

(** Calls that sit at another instrumentation point do not run. *)
Lemma run_calls_other_point ip ex at_ cs rest guard ctxt g :
  Forall (λ c, call_ipoint c ≠ at_) cs →
  run_calls cpuid ip ex at_ (cs ++ rest) guard ctxt g
  = run_calls cpuid ip ex at_ rest guard ctxt g.
Proof.
  induction 1 as [|c cs Hc _ IH]; simpl; [done|]. by rewrite decide_False.
Qed.

Lemma guarded_store_other_point ip at_ insert args :
  ip ≠ at_ → Forall (λ c, call_ipoint c ≠ at_) (guarded_store ip insert args).
Proof. intros. repeat constructor; done. Qed.

(** Unfolding [run_calls] at a call that sits at the point being run. *)
Lemma run_calls_If ip ex at_ f args rest guard ctxt g :
  run_calls cpuid ip ex at_ (INS_InsertIfCall at_ f args :: rest) guard ctxt g
  = '(r, ctxt1, g1) ← invoke cpuid ip ex f args ctxt g;
    run_calls cpuid ip ex at_ rest r ctxt1 g1.
Proof. simpl. by rewrite decide_True. Qed.

Lemma run_calls_Then_skip ip ex at_ f args rest ctxt g :
  run_calls cpuid ip ex at_ (INS_InsertThenCall at_ f args :: rest) 0 ctxt g
  = run_calls cpuid ip ex at_ rest 0 ctxt g.
Proof. simpl. by rewrite decide_True. Qed.

Lemma run_calls_Then_run ip ex at_ f args rest guard ctxt g :
  guard ≠ 0 →
  run_calls cpuid ip ex at_ (INS_InsertThenCall at_ f args :: rest) guard ctxt g
  = '(_, ctxt1, g1) ← invoke cpuid ip ex f args ctxt g;
    run_calls cpuid ip ex at_ rest guard ctxt1 g1.
Proof.
  intros H. simpl. rewrite decide_True by done.
  by destruct (Z.eqb_spec guard 0).
Qed.

Lemma run_calls_Call ip ex at_ f args rest guard ctxt g :
  run_calls cpuid ip ex at_ (INS_InsertCall at_ f args :: rest) guard ctxt g
  = '(_, ctxt1, g1) ← invoke cpuid ip ex f args ctxt g;
    run_calls cpuid ip ex at_ rest guard ctxt1 g1.
Proof. simpl. by rewrite decide_True. Qed.

Lemma run_calls_Rtn ip ex at_ f args rest guard ctxt g :
  run_calls cpuid ip ex at_ (RTN_InsertCall at_ f args :: rest) guard ctxt g
  = '(_, ctxt1, g1) ← invoke cpuid ip ex f args ctxt g;
    run_calls cpuid ip ex at_ rest guard ctxt1 g1.
Proof. simpl. by rewrite decide_True. Qed.

(** The two checks, as the host runs them. *)
Lemma invoke_CheckNext ip ex ctxt g :
  invoke cpuid ip ex fp_CheckNextTraceEntryPointerValid
    [IARG_REG_VALUE _nextBufferEntryReg] ctxt g
  = Some (ctxt _nextBufferEntryReg, ctxt, g).
Proof. reflexivity. Qed.

Lemma invoke_CheckBufferFull ip ex ctxt g :
  invoke cpuid ip ex fp_TraceWriter_CheckBufferFull
    [IARG_REG_VALUE _nextBufferEntryReg; IARG_REG_VALUE _entryBufferEndReg] ctxt g
  = Some (Z_of_bool (CheckBufferFull (ctxt _nextBufferEntryReg) (ctxt _entryBufferEndReg)),
          ctxt, g).
Proof. reflexivity. Qed.

Lemma invoke_CheckBufferAndStore ip ex ctxt g :
  invoke cpuid ip ex fp_CheckBufferAndStore
    [IARG_REG_VALUE _nextBufferEntryReg; IARG_REG_VALUE _entryBufferEndReg;
     IARG_THREAD_ID; IARG_RETURN_REGS _nextBufferEntryReg] ctxt g
  = '(r, g1) ← CheckBufferAndStore (ctxt _nextBufferEntryReg) (ctxt _entryBufferEndReg)
                 (ex_tid ex) g;
    Some (r, PIN_SetContextReg ctxt _nextBufferEntryReg r, g1).
Proof.
  unfold invoke. simpl.
  by destruct (CheckBufferAndStore _ _ _ _) as [[r g1]|].
Qed.

(** The flush helper on the traced thread: either the buffer is not full
    and nothing happens, or the helper flushes and answers [begin]. *)
Lemma CheckBufferAndStore_traced tw ctxt g next :
  traced tw ctxt g → Begin tw ≤ next ≤ End tw →
  (CheckBufferFull next (End tw) = false
   ∧ CheckBufferAndStore next (End tw) 0 g = Some (next, g))
  ∨ (CheckBufferFull next (End tw) = true
     ∧ ∃ d, CheckBufferAndStore next (End tw) 0 g = Some (Begin tw, set_disk g d)).
Proof.
  intros T Hn.
  pose proof (traced_nonnull _ _ _ T) as Hnn.
  pose proof (traced_size _ _ _ T) as Hsz.
  unfold CheckBufferAndStore. simpl.
  destruct (next =? NULL) eqn:E1; [unfold NULL in *; lia|].
  destruct (End tw =? NULL) eqn:E2; [unfold NULL, End, Begin in *; lia|].
  simpl. destruct (CheckBufferFull next (End tw)); [right|by left].
  split; [done|]. unfold PIN_GetThreadData. rewrite (traced_writer _ _ _ T). simpl.
  destruct (WriteBufferToFile_traced _ _ _ T) as [g2 Hg2]. rewrite Hg2. simpl.
  destruct (WriteBufferToFile_disk _ _ _ _ Hg2) as [d ->]. by exists d.
Qed.

Lemma traced_store tw ctxt g e p :
  traced tw ctxt g → Begin tw ≤ p < End tw →
  traced tw (PIN_SetContextReg ctxt _nextBufferEntryReg p)
    (log_store (set_heap g (<[ctxt _nextBufferEntryReg := e]> (heap g)))
       (ctxt _nextBufferEntryReg, e)).
Proof.
  intros [? ? ? Ha ? ?] Hp. constructor; try done; simpl.
  intros q Hq. destruct (decide (q = ctxt _nextBufferEntryReg)) as [->|Hne].
  - rewrite lookup_insert_eq. by eexists.
  - rewrite lookup_insert_ne by done. by apply Ha.
Qed.

(** One traced event on the traced thread: the entry lands in the slot the
    write pointer names, the pointer moves on (or back to [begin] after a
    flush), and the thread is again between two events. *)
Lemma run_guarded_store ip ex at_ insert args e rest guard tw ctxt g :
  traced tw ctxt g → ex_tid ex = 0 →
  return_reg args = Some _nextBufferEntryReg →
  (∀ g0, analysis cpuid insert (eval_iargs ip ex ctxt args) ctxt g0 =
     '(r, g1) ← InsertEntry (ctxt _nextBufferEntryReg) e g0; Some (r, ctxt, g1)) →
  ∃ guard' ctxt' g',
    run_calls cpuid ip ex at_ (guarded_store at_ insert args ++ rest) guard ctxt g
    = run_calls cpuid ip ex at_ rest guard' ctxt' g'
    ∧ traced tw ctxt' g'
    ∧ stores g' = stores g ++ [(ctxt _nextBufferEntryReg, e)]
    ∧ (∀ r, r ≠ _nextBufferEntryReg → ctxt' r = ctxt r).
Proof.
  intros T Htid Hret Hins.
  pose proof (traced_next _ _ _ T) as Hnext.
  pose proof (traced_nonnull _ _ _ T) as Hnn.
  pose proof (traced_size _ _ _ T) as Hsz.
  pose proof (traced_end _ _ _ T) as Hend.
  destruct (traced_alloc _ _ _ T _ Hnext) as [old Hold].
  change (guarded_store at_ insert args ++ rest) with
    (INS_InsertIfCall at_ fp_CheckNextTraceEntryPointerValid
       [IARG_REG_VALUE _nextBufferEntryReg]
     :: INS_InsertThenCall at_ insert args
     :: INS_InsertIfCall at_ fp_TraceWriter_CheckBufferFull
          [IARG_REG_VALUE _nextBufferEntryReg; IARG_REG_VALUE _entryBufferEndReg]
     :: INS_InsertThenCall at_ fp_CheckBufferAndStore
          [IARG_REG_VALUE _nextBufferEntryReg; IARG_REG_VALUE _entryBufferEndReg;
           IARG_THREAD_ID; IARG_RETURN_REGS _nextBufferEntryReg]
     :: rest).
  rewrite run_calls_If, invoke_CheckNext. step_bind.
  rewrite run_calls_Then_run by lia.
  unfold invoke at 1. rewrite Hins. unfold InsertEntry.
  destruct (Z.eqb_spec (ctxt _nextBufferEntryReg) NULL) as [?|_];
    [unfold NULL in *; lia|].
  rewrite Hold. step_bind.
  rewrite Hret. step_bind.
  set (next := ctxt _nextBufferEntryReg) in *.
  set (g1 := log_store (set_heap g (<[next:=e]> (heap g))) (next, e)).
  set (ctxt1 := PIN_SetContextReg ctxt _nextBufferEntryReg (next + 1)).
  assert (T1 : ∀ p, Begin tw ≤ p < End tw →
                    traced tw (PIN_SetContextReg ctxt _nextBufferEntryReg p) g1).
  { intros p Hp. by apply traced_store. }
  assert (Hn1 : ctxt1 _nextBufferEntryReg = next + 1)
    by (by apply PIN_SetContextReg_same).
  assert (He1 : ctxt1 _entryBufferEndReg = End tw).
  { unfold ctxt1. by rewrite PIN_SetContextReg_other. }
  assert (Ho1 : ∀ r, r ≠ _nextBufferEntryReg → ctxt1 r = ctxt r).
  { intros r Hr. unfold ctxt1. by rewrite PIN_SetContextReg_other_tool. }
  rewrite run_calls_If, invoke_CheckBufferFull. step_bind. rewrite Hn1, He1.
  assert (T0 : traced tw (PIN_SetContextReg ctxt _nextBufferEntryReg (Begin tw)) g1).
  { apply T1. unfold End, Begin in *. lia. }
  destruct (CheckBufferAndStore_traced tw _ g1 (next + 1) T0) as
    [[Efull Hc] | [Efull [d Hc]]]; [lia|..]; rewrite Efull; unfold Z_of_bool.
  - rewrite run_calls_Then_skip.
    unfold CheckBufferFull, K in Efull.
    eexists _, ctxt1, g1. split; [reflexivity|]. split_and!; [|done..].
    apply T1. lia.
  - rewrite run_calls_Then_run by done.
    rewrite invoke_CheckBufferAndStore, Hn1, He1, Htid, Hc. step_bind.
    eexists _, _, _. split; [reflexivity|]. split_and!.
    + apply traced_set_disk.
      destruct T0 as [? ? ? ? ? ?]. by constructor.
    + done.
    + intros r Hr. rewrite PIN_SetContextReg_other_tool by done. by apply Ho1.
Qed.

(** The same request sequence on a thread whose write pointer is null and
    whose id is not 0: nothing is stored, nothing is flushed, and the
    pointer stays null. *)
Lemma run_guarded_store_null ip ex at_ insert args rest guard ctxt g :
  ctxt _nextBufferEntryReg = NULL → ex_tid ex ≠ 0 →
  ∃ guard' ctxt',
    run_calls cpuid ip ex at_ (guarded_store at_ insert args ++ rest) guard ctxt g
    = run_calls cpuid ip ex at_ rest guard' ctxt' g
    ∧ ctxt' _nextBufferEntryReg = NULL
    ∧ (∀ r, r ≠ _nextBufferEntryReg → ctxt' r = ctxt r).
Proof.
  intros Hnull Htid.
  change (guarded_store at_ insert args ++ rest) with
    (INS_InsertIfCall at_ fp_CheckNextTraceEntryPointerValid
       [IARG_REG_VALUE _nextBufferEntryReg]
     :: INS_InsertThenCall at_ insert args
     :: INS_InsertIfCall at_ fp_TraceWriter_CheckBufferFull
          [IARG_REG_VALUE _nextBufferEntryReg; IARG_REG_VALUE _entryBufferEndReg]
     :: INS_InsertThenCall at_ fp_CheckBufferAndStore
          [IARG_REG_VALUE _nextBufferEntryReg; IARG_REG_VALUE _entryBufferEndReg;
           IARG_THREAD_ID; IARG_RETURN_REGS _nextBufferEntryReg]
     :: rest).
  rewrite run_calls_If, invoke_CheckNext. step_bind. rewrite Hnull.
  unfold NULL. rewrite run_calls_Then_skip.
  rewrite run_calls_If, invoke_CheckBufferFull. step_bind. rewrite Hnull.
  destruct (CheckBufferFull NULL (ctxt _entryBufferEndReg)); unfold Z_of_bool.
  - rewrite run_calls_Then_run by done.
    rewrite invoke_CheckBufferAndStore, Hnull.
    unfold CheckBufferAndStore.
    destruct (Z.eqb_spec (ex_tid ex) 0) as [|_]; [done|]. cbn [negb orb]. step_bind.
    eexists _, _. split; [reflexivity|]. split.
    + by rewrite PIN_SetContextReg_same.
    + intros r Hr. by rewrite PIN_SetContextReg_other_tool.
  - rewrite run_calls_Then_skip. by eexists _, ctxt.
Qed.

End RuntimeFacts.

(** ** The sample run *)

Lemma started_traced knobR : traced sample_tw (started knobR).1 (started knobR).2.
Proof.
  unfold started, loaded, main.
  destruct (negb (knobR =? fixed_random_sentinel)).
  all: constructor; try reflexivity.
  all: try (split; vm_compute; congruence).
  all: intros p Hp; change (Begin sample_tw) with 100 in Hp;
       change (End sample_tw) with 104 in Hp;
       assert (p = 100 ∨ p = 101 ∨ p = 102 ∨ p = 103) as [-> | [-> | [-> | ->]]] by lia;
       by eexists.
Defined.

Example loaded_images :
  _images (loaded 0x1234) =
    [ {| _interesting := true; _name := "C:\bin\A.exe";
         _startAddress := 0x1000; _endAddress := 0x1fff |};
      {| _interesting := false; _name := "C:\bin\b.dll";
         _startAddress := 0x4000; _endAddress := 0x4fff |} ].
Proof. reflexivity. Qed.

Example loaded_cerr :
  os_lines (cerr (loaded 0x1234)) =
    [ "Using fixed RDRAND output 4660";
      "Image 'C:\bin\A.exe' loaded at 1000 ... 1fff [interesting]";
      "    PinNotifyTestcaseStart() instrumented.";
      "    PinNotifyTestcaseEnd() instrumented.";
      "Image 'C:\bin\b.dll' loaded at 4000 ... 4fff";
      "    malloc() instrumented." ].
Proof. reflexivity. Qed.

Example plan_of_load_in_interesting_image :
  InstrumentIns sample_xed true true ins_load = (memread_calls, end_of_body).
Proof. reflexivity. Qed.

Example plan_of_load_in_uninteresting_image :
  InstrumentIns sample_xed true false ins_load = ([], continue_uninteresting).
Proof. reflexivity. Qed.

Example plan_of_trace :
  (InstrumentTrace sample_xed [bbl_nowhere; bbl_b] (loaded 0x1234)).1
  = map (λ c, (ins_ret, c)) ret_calls
  ∧ os_lines (cerr (InstrumentTrace sample_xed [bbl_nowhere; bbl_b] (loaded 0x1234)).2)
    = os_lines (cerr (loaded 0x1234))
      ++ ["Error: Cannot resolve image of basic block 9000"].
Proof. split; reflexivity. Qed.

(** ** Executing instrumented instructions on the traced thread *)

Lemma traced_apply_effect tw ex ctxt g :
  traced tw ctxt g → traced tw (apply_effect ex ctxt) g.
Proof. intros [? ? ? ? ? ?]. by constructor. Qed.

Lemma memory_stage_other_point ins at_ :
  at_ ≠ IPOINT_BEFORE → Forall (λ c, call_ipoint c ≠ at_) (memory_stage ins).
Proof.
  intros H. unfold memory_stage.
  repeat apply Forall_app_2; destruct (_ && _); try constructor;
    repeat constructor; simpl; congruence.
Qed.

Section ExecFacts.

Variable cpuid : Z → Z → Z * Z * Z * Z → Z * Z * Z * Z.

(** A traced event that is issued only under a condition. *)
Lemma run_optional_store (b : bool) ip ex at_ insert args e rest guard tw ctxt g :
  traced tw ctxt g → ex_tid ex = 0 →
  return_reg args = Some _nextBufferEntryReg →
  (∀ c g0, analysis cpuid insert (eval_iargs ip ex c args) c g0 =
     '(r, g1) ← InsertEntry (c _nextBufferEntryReg) e g0; Some (r, c, g1)) →
  ∃ guard' ctxt' g' new,
    run_calls cpuid ip ex at_
      ((if b then guarded_store at_ insert args else []) ++ rest) guard ctxt g
    = run_calls cpuid ip ex at_ rest guard' ctxt' g'
    ∧ traced tw ctxt' g'
    ∧ stores g' = stores g ++ new
    ∧ new.*2 = (if b then [e] else [])
    ∧ (∀ r, r ≠ _nextBufferEntryReg → ctxt' r = ctxt r).
Proof.
  intros T Htid Hret Hins. destruct b.
  - destruct (run_guarded_store cpuid ip ex at_ insert args e rest guard tw ctxt g)
      as (guard' & ctxt' & g' & Hrun & T' & Hst & Hoth); try done.
    by exists guard', ctxt', g', [(ctxt _nextBufferEntryReg, e)].
  - exists guard, ctxt, g, []. by rewrite app_nil_r.
Qed.

(** The memory-operand stage, run before the instruction. *)
Lemma run_memory_stage ins ex rest guard tw ctxt g :
  traced tw ctxt g → ex_tid ex = 0 →
  ∃ guard' ctxt' g' new,
    run_calls cpuid (INS_Address ins) ex IPOINT_BEFORE
      (memory_stage ins ++ rest) guard ctxt g
    = run_calls cpuid (INS_Address ins) ex IPOINT_BEFORE rest guard' ctxt' g'
    ∧ traced tw ctxt' g'
    ∧ stores g' = stores g ++ new
    ∧ new.*2 = memory_entries ins ex
    ∧ (∀ r, r ≠ _nextBufferEntryReg → ctxt' r = ctxt r).
Proof.
  intros T Htid. unfold memory_stage, memory_entries.
  unfold memread_calls, memread2_calls, memwrite_calls, memory_calls.
  rewrite <- !app_assoc.
  destruct (run_optional_store (INS_IsMemoryRead ins && INS_IsStandardMemop ins)
              (INS_Address ins) ex IPOINT_BEFORE fp_TraceWriter_InsertMemoryReadEntry
              [IARG_REG_VALUE _nextBufferEntryReg; IARG_INST_PTR; IARG_MEMORYREAD_EA;
               IARG_RETURN_REGS _nextBufferEntryReg]
              (MemoryRead (INS_Address ins) (ex_memoryread_ea ex))
              ((if INS_HasMemoryRead2 ins && INS_IsStandardMemop ins
                then guarded_store IPOINT_BEFORE fp_TraceWriter_InsertMemoryReadEntry
                       [IARG_REG_VALUE _nextBufferEntryReg; IARG_INST_PTR;
                        IARG_MEMORYREAD2_EA; IARG_RETURN_REGS _nextBufferEntryReg]
                else [])
               ++ (if INS_IsMemoryWrite ins && INS_IsStandardMemop ins
                   then guarded_store IPOINT_BEFORE fp_TraceWriter_InsertMemoryWriteEntry
                          [IARG_REG_VALUE _nextBufferEntryReg; IARG_INST_PTR;
                           IARG_MEMORYWRITE_EA; IARG_RETURN_REGS _nextBufferEntryReg]
                   else []) ++ rest)
              guard tw ctxt g T Htid eq_refl)
    as (gd1 & c1 & g1 & n1 & -> & T1 & S1 & E1 & O1); [done|].
  destruct (run_optional_store (INS_HasMemoryRead2 ins && INS_IsStandardMemop ins)
              (INS_Address ins) ex IPOINT_BEFORE fp_TraceWriter_InsertMemoryReadEntry
              [IARG_REG_VALUE _nextBufferEntryReg; IARG_INST_PTR; IARG_MEMORYREAD2_EA;
               IARG_RETURN_REGS _nextBufferEntryReg]
              (MemoryRead (INS_Address ins) (ex_memoryread2_ea ex))
              ((if INS_IsMemoryWrite ins && INS_IsStandardMemop ins
                then guarded_store IPOINT_BEFORE fp_TraceWriter_InsertMemoryWriteEntry
                       [IARG_REG_VALUE _nextBufferEntryReg; IARG_INST_PTR;
                        IARG_MEMORYWRITE_EA; IARG_RETURN_REGS _nextBufferEntryReg]
                else []) ++ rest)
              gd1 tw c1 g1 T1 Htid eq_refl)
    as (gd2 & c2 & g2 & n2 & -> & T2 & S2 & E2 & O2); [done|].
  destruct (run_optional_store (INS_IsMemoryWrite ins && INS_IsStandardMemop ins)
              (INS_Address ins) ex IPOINT_BEFORE fp_TraceWriter_InsertMemoryWriteEntry
              [IARG_REG_VALUE _nextBufferEntryReg; IARG_INST_PTR; IARG_MEMORYWRITE_EA;
               IARG_RETURN_REGS _nextBufferEntryReg]
              (MemoryWrite (INS_Address ins) (ex_memorywrite_ea ex))
              rest gd2 tw c2 g2 T2 Htid eq_refl)
    as (gd3 & c3 & g3 & n3 & -> & T3 & S3 & E3 & O3); [done|].
  exists gd3, c3, g3, (n1 ++ n2 ++ n3). split_and!; [done..| | |].
  - by rewrite S3, S2, S1, <- !app_assoc.
  - by rewrite !fmap_app, E1, E2, E3.
  - intros r Hr. by rewrite O3, O2, O1.
Qed.

(** A call or a branch: one [Branch] entry, stored before the
    instruction. *)
Lemma exec_branch_entry ins ex tw ctxt g (takenArg : IARG) (type : Z) taken :
  traced tw ctxt g → ex_tid ex = 0 →
  eval_iarg (INS_Address ins) ex ctxt takenArg = Some (AV_int (Z_of_bool taken)) →
  ∃ ctxt' g',
    exec_ins cpuid ins
      (guarded_store IPOINT_BEFORE fp_TraceWriter_InsertBranchEntry
         [IARG_REG_VALUE _nextBufferEntryReg; IARG_INST_PTR; IARG_BRANCH_TARGET_ADDR;
          takenArg; IARG_UINT32 type; IARG_RETURN_REGS _nextBufferEntryReg])
      ex ctxt g = Some (ctxt', g')
    ∧ traced tw ctxt' g'
    ∧ stores g' = stores g ++
        [(ctxt _nextBufferEntryReg,
          Branch (INS_Address ins) (ex_branch_target ex) taken (negb (type =? 0)))].
Proof.
  intros T Htid Htaken. unfold exec_ins.
  destruct (run_guarded_store cpuid (INS_Address ins) ex IPOINT_BEFORE
              fp_TraceWriter_InsertBranchEntry
              [IARG_REG_VALUE _nextBufferEntryReg; IARG_INST_PTR; IARG_BRANCH_TARGET_ADDR;
               takenArg; IARG_UINT32 type; IARG_RETURN_REGS _nextBufferEntryReg]
              (Branch (INS_Address ins) (ex_branch_target ex) taken (negb (type =? 0)))
              [] 0 tw ctxt g T Htid)
    as (gd & c1 & g1 & Hrun & T1 & S1 & O1).
  { destruct takenArg; try done. }
  { intros g0. unfold eval_iargs. simpl. rewrite Htaken. simpl.
    by destruct taken. }
  rewrite app_nil_r in Hrun. rewrite Hrun. cbn [run_calls]. step_bind.
  rewrite <- (app_nil_r (guarded_store _ _ _)).
  rewrite run_calls_other_point.
  2:{ apply guarded_store_other_point. by destruct (ex_taken ex). }
  simpl. eexists _, _. split; [reflexivity|]. split; [|done].
  by apply traced_apply_effect.
Qed.

(** A ret that reaches the end of the walk: the memory-operand stage runs
    before the instruction (in an interesting image), the [Ret] entry is
    stored on the taken edge, with the instruction pointer the context
    holds there. *)
Lemma exec_ret ins ex tw ctxt g (i : bool) :
  traced tw ctxt g → ex_tid ex = 0 → ex_taken ex = true →
  ∃ c1 ctxt' g' new,
    exec_ins cpuid ins (ret_calls ++ (if i then memory_stage ins else [])) ex ctxt g
    = Some (ctxt', g')
    ∧ traced tw ctxt' g'
    ∧ stores g' = stores g ++ new
    ∧ new.*2 = (if i then memory_entries ins ex else [])
               ++ [Ret (INS_Address ins) (ex_effect ex c1 REG_INST_PTR)]
    ∧ (∀ r, r ≠ _nextBufferEntryReg → c1 r = ctxt r)
    ∧ (i = false → c1 = ctxt).
Proof.
  intros T Htid Htaken. unfold exec_ins. rewrite Htaken.
  rewrite run_calls_other_point by (by apply guarded_store_other_point).
  assert (∃ c1 g1 n1,
    run_calls cpuid (INS_Address ins) ex IPOINT_BEFORE
      (if i then memory_stage ins else []) 0 ctxt g = Some (c1, g1)
    ∧ traced tw c1 g1 ∧ stores g1 = stores g ++ n1
    ∧ n1.*2 = (if i then memory_entries ins ex else [])
    ∧ (∀ r, r ≠ _nextBufferEntryReg → c1 r = ctxt r)
    ∧ (i = false → c1 = ctxt)) as (c1 & g1 & n1 & -> & T1 & S1 & E1 & O1 & I1).
  { destruct i.
    - destruct (run_memory_stage ins ex [] 0 tw ctxt g T Htid)
        as (gd & c1 & g1 & n1 & Hrun & T1 & S1 & E1 & O1).
      rewrite app_nil_r in Hrun. exists c1, g1, n1. by rewrite Hrun.
    - exists ctxt, g, []. by rewrite app_nil_r. }
  step_bind.
  pose proof (traced_apply_effect tw ex c1 g1 T1) as T2.
  destruct (run_guarded_store cpuid (INS_Address ins) ex IPOINT_TAKEN_BRANCH
              fp_TraceWriter_InsertRetBranchEntry
              [IARG_REG_VALUE _nextBufferEntryReg; IARG_INST_PTR; IARG_CONTEXT;
               IARG_RETURN_REGS _nextBufferEntryReg]
              (Ret (INS_Address ins) (apply_effect ex c1 REG_INST_PTR))
              (if i then memory_stage ins else []) 0 tw (apply_effect ex c1) g1
              T2 Htid eq_refl)
    as (gd & c3 & g3 & Hrun & T3 & S3 & O3); [done|].
  unfold ret_calls. rewrite Hrun.
  rewrite <- (app_nil_r (if i then _ else _)).
  rewrite run_calls_other_point.
  2:{ destruct i; [by apply memory_stage_other_point|constructor]. }
  exists c1, c3, g3, (n1 ++ [(apply_effect ex c1 _nextBufferEntryReg,
                               Ret (INS_Address ins) (apply_effect ex c1 REG_INST_PTR))]).
  split_and!; [done..| | |done|done].
  - by rewrite S3, S1, <- app_assoc.
  - by rewrite fmap_app, E1.
Qed.

End ExecFacts.

(** ** Filters and control-flow requests *)

(** C9: in a block that has an owning image, an instruction that bears a
    segment prefix, or whose opcode lies in [[PUSH, PUSHFQ]] or
    [[POP, POPFQ]], or that is [LEA], gets no request of any kind; the
    three filters are tried in this order and before every other
    classification, so the iteration ends at the first of them that
    applies, whatever else the instruction is. *)
Theorem C9_filtered_instructions_get_no_probe xed ins :
  filtered_1_3 xed ins = true →
  (∀ trace g c, (ins, c) ∉ (InstrumentTrace xed trace g).1)
  ∧ (∀ u i, InstrumentIns xed u i ins =
       ([], if INS_SegmentPrefix ins then continue_segment_prefix
            else if in_push_range xed ins then continue_push
            else if in_pop_range xed ins then continue_pop
            else continue_lea)).
Proof.
  intros H. split.
  - intros trace g c (bbl & img & _ & _ & _ & Hc)%InstrumentTrace_In.
    rewrite InstrumentIns_filtered in Hc by done. by apply elem_of_nil in Hc.
  - intros u i. revert H.
    unfold filtered_1_3, in_push_range, in_pop_range, is_lea, InstrumentIns.
    destruct (INS_SegmentPrefix ins); [done|].
    destruct (_ && _); [done|]. destruct (_ && _); [done|].
    simpl. by intros ->.
Qed.

Lemma C9_witness :
  InstrumentIns sample_xed true true ins_call_gs = ([], continue_segment_prefix)
  ∧ InstrumentIns sample_xed true true (sample_ins 0x2000 603) = ([], continue_pop).
Proof.
  split.
  - exact (proj2 (C9_filtered_instructions_get_no_probe sample_xed ins_call_gs eq_refl)
             true true).
  - exact (proj2 (C9_filtered_instructions_get_no_probe sample_xed
                    (sample_ins 0x2000 603) eq_refl) true true).
Defined.

(** C3: a call that passes steps 1-5 gets, in every block that has an
    owning image, interesting or not, a [Branch] store at [IPOINT_BEFORE]
    with the host's branch target, [taken = true] and [isCall = true],
    followed by the flush check; a branch that is not a call gets the same
    with the host's taken flag and [isCall = false].  On the traced thread
    the instruction records exactly that entry. *)
Theorem C3_call_and_branch_probes xed cpuid trace g bbl img ins ex tw ctxt gr :
  bbl ∈ trace → image_of_bbl (_images g) bbl = Some img → ins ∈ BBL_Ins bbl →
  filtered_1_3 xed ins = false →
  filtered_4_5 xed (_useFixedRandomNumber g) ins = false →
  INS_IsCall ins || INS_IsBranch ins = true →
  traced tw ctxt gr → ex_tid ex = 0 →
  let plan :=
    [ INS_InsertIfCall IPOINT_BEFORE fp_CheckNextTraceEntryPointerValid
        [IARG_REG_VALUE _nextBufferEntryReg];
      INS_InsertThenCall IPOINT_BEFORE fp_TraceWriter_InsertBranchEntry
        [IARG_REG_VALUE _nextBufferEntryReg; IARG_INST_PTR; IARG_BRANCH_TARGET_ADDR;
         (if INS_IsCall ins then IARG_BOOL 1 else IARG_BRANCH_TAKEN);
         IARG_UINT32 (if INS_IsCall ins then 1 else 0);
         IARG_RETURN_REGS _nextBufferEntryReg];
      INS_InsertIfCall IPOINT_BEFORE fp_TraceWriter_CheckBufferFull
        [IARG_REG_VALUE _nextBufferEntryReg; IARG_REG_VALUE _entryBufferEndReg];
      INS_InsertThenCall IPOINT_BEFORE fp_CheckBufferAndStore
        [IARG_REG_VALUE _nextBufferEntryReg; IARG_REG_VALUE _entryBufferEndReg;
         IARG_THREAD_ID; IARG_RETURN_REGS _nextBufferEntryReg] ] in
  (InstrumentIns xed (_useFixedRandomNumber g) (IsInteresting img) ins).1 = plan
  ∧ (∀ c, c ∈ plan → (ins, c) ∈ (InstrumentTrace xed trace g).1)
  ∧ ∃ ctxt' gr',
      exec_ins cpuid ins plan ex ctxt gr = Some (ctxt', gr')
      ∧ stores gr' = stores gr ++
          [(ctxt _nextBufferEntryReg,
            Branch (INS_Address ins) (ex_branch_target ex)
              (if INS_IsCall ins then true else ex_taken ex) (INS_IsCall ins))].
Proof.
  intros Hbbl Himg Hins H13 H45 Hcb T Htid plan.
  assert (Hplan : (InstrumentIns xed (_useFixedRandomNumber g) (IsInteresting img) ins).1
                  = plan).
  { rewrite InstrumentIns_unfiltered by done. subst plan.
    destruct (INS_IsCall ins); [done|]. simpl in Hcb. by rewrite Hcb. }
  split; [done|]. split.
  - intros c Hc. apply InstrumentTrace_In. exists bbl, img. by rewrite Hplan.
  - subst plan. destruct (INS_IsCall ins).
    + destruct (exec_branch_entry cpuid ins ex tw ctxt gr (IARG_BOOL 1) 1 true T Htid eq_refl)
        as (c' & g' & He & _ & Hs).
      by exists c', g'.
    + destruct (exec_branch_entry cpuid ins ex tw ctxt gr IARG_BRANCH_TAKEN 0
                  (ex_taken ex) T Htid eq_refl)
        as (c' & g' & He & _ & Hs).
      by exists c', g'.
Qed.

Lemma C3_witness :
  ∃ ctxt' gr',
    exec_ins cpuid_default ins_call
      (InstrumentIns sample_xed true true ins_call).1 (ex_jump 0)
      (started 0x1234).1 (started 0x1234).2 = Some (ctxt', gr')
    ∧ stores gr' = [(100, Branch 0x1004 0x4000 true true)].
Proof.
  destruct (C3_call_and_branch_probes sample_xed cpuid_default [bbl_a] (loaded 0x1234)
              bbl_a {| _interesting := true; _name := "C:\bin\A.exe";
                       _startAddress := 0x1000; _endAddress := 0x1fff |}
              ins_call (ex_jump 0) sample_tw (started 0x1234).1 (started 0x1234).2)
    as (_ & _ & c' & g' & He & Hs).
  - by constructor.
  - reflexivity.
  - by repeat constructor.
  - reflexivity.
  - reflexivity.
  - reflexivity.
  - apply started_traced.
  - reflexivity.
  - exists c', g'. split; [exact He|exact Hs].
Defined.

(** ** What an installed call can add to the trace *)






Section StoreFacts.

Variable cpuid : Z → Z → Z * Z * Z * Z → Z * Z * Z * Z.

(** Case analysis on the shape of the argument values. *)
Ltac destruct_vals H :=
  repeat match type of H with
         | context [match ?x with _ => _ end] => is_var x; destruct x; try discriminate H
         end.





End StoreFacts.

(** The requests of the memory-operand stage sit at [IPOINT_BEFORE] and
    never name the ret routine. *)
Lemma memory_stage_calls ins c :
  c ∈ memory_stage ins →
  call_ipoint c = IPOINT_BEFORE ∧ call_fun c ≠ fp_TraceWriter_InsertRetBranchEntry.
Proof.
  unfold memory_stage. rewrite !elem_of_app.
  intros [H | [H | H]]; destruct (_ && _);
    repeat (apply elem_of_cons in H as [-> | H]; [by split|]);
    by apply elem_of_nil in H.
Qed.

(** Calls, branches and rets name no memory routine. *)
Lemma control_flow_no_memory :
  Forall (λ c, is_memory_insert (call_fun c) = false) call_calls
  ∧ Forall (λ c, is_memory_insert (call_fun c) = false) branch_calls
  ∧ Forall (λ c, is_memory_insert (call_fun c) = false) ret_calls
  ∧ Forall (λ c, is_memory_insert (call_fun c) = false) cpuid_calls.
Proof. split_and!; by repeat constructor. Qed.


(** C4: a ret that no earlier step handles gets, in every block that has
    an owning image, a [Ret] store at [IPOINT_TAKEN_BRANCH] and at no
    other point; the routine is handed the thread context, from which the
    entry's target is read, and the flush check follows at the same
    point. *)
Theorem C4_ret_probe_at_taken_branch xed cpuid trace g bbl img ins ex tw ctxt gr :
  bbl ∈ trace → image_of_bbl (_images g) bbl = Some img → ins ∈ BBL_Ins bbl →
  filtered_1_3 xed ins = false →
  filtered_4_5 xed (_useFixedRandomNumber g) ins = false →
  INS_IsCall ins = false → INS_IsBranch ins = false → INS_IsRet ins = true →
  traced tw ctxt gr → ex_tid ex = 0 → ex_taken ex = true →
  let ret_probe :=
    [ INS_InsertIfCall IPOINT_TAKEN_BRANCH fp_CheckNextTraceEntryPointerValid
        [IARG_REG_VALUE _nextBufferEntryReg];
      INS_InsertThenCall IPOINT_TAKEN_BRANCH fp_TraceWriter_InsertRetBranchEntry
        [IARG_REG_VALUE _nextBufferEntryReg; IARG_INST_PTR; IARG_CONTEXT;
         IARG_RETURN_REGS _nextBufferEntryReg];
      INS_InsertIfCall IPOINT_TAKEN_BRANCH fp_TraceWriter_CheckBufferFull
        [IARG_REG_VALUE _nextBufferEntryReg; IARG_REG_VALUE _entryBufferEndReg];
      INS_InsertThenCall IPOINT_TAKEN_BRANCH fp_CheckBufferAndStore
        [IARG_REG_VALUE _nextBufferEntryReg; IARG_REG_VALUE _entryBufferEndReg;
         IARG_THREAD_ID; IARG_RETURN_REGS _nextBufferEntryReg] ] in
  let plan := (InstrumentIns xed (_useFixedRandomNumber g) (IsInteresting img) ins).1 in
  (∃ later, plan = ret_probe ++ later)
  ∧ (∀ c, c ∈ ret_probe → (ins, c) ∈ (InstrumentTrace xed trace g).1)
  ∧ (∀ c, c ∈ plan → call_fun c = fp_TraceWriter_InsertRetBranchEntry →
          call_ipoint c = IPOINT_TAKEN_BRANCH)
  ∧ ∃ atBranch ctxt' gr' new slot,
      exec_ins cpuid ins plan ex ctxt gr = Some (ctxt', gr')
      ∧ stores gr' = stores gr ++ new
      ∧ last new = Some (slot, Ret (INS_Address ins) (ex_effect ex atBranch REG_INST_PTR))
      ∧ (∀ r, r ≠ _nextBufferEntryReg → atBranch r = ctxt r).
Proof.
  intros Hbbl Himg Hins H13 H45 Hcall Hbr Hret T Htid Htaken ret_probe plan.
  assert (Hplan : plan = ret_probe ++ (if IsInteresting img then memory_stage ins else [])).
  { subst plan. rewrite InstrumentIns_unfiltered by done.
    rewrite Hcall, Hbr, Hret. simpl.
    by destruct (IsInteresting img). }
  split_and!.
  - eexists. exact Hplan.
  - intros c Hc. apply InstrumentTrace_In. exists bbl, img.
    fold plan. rewrite Hplan, elem_of_app. auto.
  - intros c Hc Hf. rewrite Hplan in Hc. apply elem_of_app in Hc as [Hc | Hc].
    + subst ret_probe.
      repeat (apply elem_of_cons in Hc as [-> | Hc]; [done|]).
      by apply elem_of_nil in Hc.
    + destruct (IsInteresting img); [|by apply elem_of_nil in Hc].
      by apply memory_stage_calls in Hc as [_ ?].
  - destruct (exec_ret cpuid ins ex tw ctxt gr (IsInteresting img) T Htid Htaken)
      as (c1 & c' & g' & new & He & _ & Hs & Hn & Ho & _).
    destruct (last new) as [[slot e]|] eqn:El.
    + exists c1, c', g', new, slot. rewrite Hplan. split_and!; [done..| |done].
      rewrite El. f_equal. f_equal.
      assert (last new.*2 = Some e) as Hl by (by rewrite fmap_last, El).
      rewrite Hn, last_snoc in Hl. congruence.
    + apply last_None in El. subst new. simpl in Hn.
      by apply app_cons_not_nil in Hn.
Qed.

Lemma C4_witness :
  ∃ ctxt' gr',
    exec_ins cpuid_default ins_ret (InstrumentIns sample_xed true false ins_ret).1
      (ex_jump 0) (started 0x1234).1 (started 0x1234).2 = Some (ctxt', gr')
    ∧ stores gr' = [(100, Ret 0x1009 0x4000)].
Proof.
  destruct (C4_ret_probe_at_taken_branch sample_xed cpuid_default [bbl_b] (loaded 0x1234)
              bbl_b {| _interesting := false; _name := "C:\bin\b.dll";
                       _startAddress := 0x4000; _endAddress := 0x4fff |}
              ins_ret (ex_jump 0) sample_tw (started 0x1234).1 (started 0x1234).2)
    as (_ & _ & _ & c1 & c' & g' & new & slot & He & Hs & _ & _).
  - by constructor.
  - reflexivity.
  - by repeat constructor.
  - reflexivity.
  - reflexivity.
  - reflexivity.
  - reflexivity.
  - reflexivity.
  - apply started_traced.
  - reflexivity.
  - reflexivity.
  - exists c', g'. split; [exact He|].
    change (InstrumentIns sample_xed (_useFixedRandomNumber (loaded 4660))
              (IsInteresting {| _interesting := false; _name := "C:\bin\b.dll";
                 _startAddress := 0x4000; _endAddress := 0x4fff |}) ins_ret).1
      with (InstrumentIns sample_xed true false ins_ret).1 in He.
    vm_compute in He. injection He as _ <-. reflexivity.
Defined.

(** C10: the call and branch cases end the iteration before the
    memory-operand stage; the ret case does not.  A ret in a block of an
    interesting image that has a standard memory-read operand gets the
    [MemoryRead] store at [IPOINT_BEFORE] in addition to the [Ret] store,
    and one execution records a [MemoryRead] entry and then a [Ret]
    entry. *)
Theorem C10_ret_reaches_memory_stage xed cpuid trace g bbl img ins ex tw ctxt gr :
  bbl ∈ trace → image_of_bbl (_images g) bbl = Some img → ins ∈ BBL_Ins bbl →
  IsInteresting img = true →
  filtered_1_3 xed ins = false →
  filtered_4_5 xed (_useFixedRandomNumber g) ins = false →
  INS_IsCall ins = false → INS_IsBranch ins = false → INS_IsRet ins = true →
  INS_IsMemoryRead ins && INS_IsStandardMemop ins = true →
  traced tw ctxt gr → ex_tid ex = 0 → ex_taken ex = true →
  let walk := InstrumentIns xed (_useFixedRandomNumber g) (IsInteresting img) ins in
  let read_probe :=
    INS_InsertThenCall IPOINT_BEFORE fp_TraceWriter_InsertMemoryReadEntry
      [IARG_REG_VALUE _nextBufferEntryReg; IARG_INST_PTR; IARG_MEMORYREAD_EA;
       IARG_RETURN_REGS _nextBufferEntryReg] in
  let ret_probe :=
    INS_InsertThenCall IPOINT_TAKEN_BRANCH fp_TraceWriter_InsertRetBranchEntry
      [IARG_REG_VALUE _nextBufferEntryReg; IARG_INST_PTR; IARG_CONTEXT;
       IARG_RETURN_REGS _nextBufferEntryReg] in
  walk.2 = end_of_body
  ∧ (ins, read_probe) ∈ (InstrumentTrace xed trace g).1
  ∧ (ins, ret_probe) ∈ (InstrumentTrace xed trace g).1
  ∧ (∃ atBranch ctxt' gr' new more,
       exec_ins cpuid ins walk.1 ex ctxt gr = Some (ctxt', gr')
       ∧ stores gr' = stores gr ++ new
       ∧ new.*2 = MemoryRead (INS_Address ins) (ex_memoryread_ea ex) :: more
                  ++ [Ret (INS_Address ins) (ex_effect ex atBranch REG_INST_PTR)])
  ∧ (∀ u i ins',
       filtered_1_3 xed ins' = false → filtered_4_5 xed u ins' = false →
       INS_IsCall ins' || INS_IsBranch ins' = true →
       (InstrumentIns xed u i ins').2
         = (if INS_IsCall ins' then continue_call else continue_branch)
       ∧ Forall (λ c, is_memory_insert (call_fun c) = false) (InstrumentIns xed u i ins').1).
Proof.
  intros Hbbl Himg Hins Hint H13 H45 Hcall Hbr Hret Hrd T Htid Htaken walk rp tp.
  assert (Hwalk : walk = (ret_calls ++ memory_stage ins, end_of_body)).
  { subst walk. rewrite InstrumentIns_unfiltered by done.
    by rewrite Hcall, Hbr, Hret, Hint. }
  assert (Hmem : rp ∈ memory_stage ins).
  { unfold memory_stage. rewrite Hrd. apply elem_of_app. left.
    by repeat constructor. }
  split_and!.
  - by rewrite Hwalk.
  - apply InstrumentTrace_In. exists bbl, img. fold walk. rewrite Hwalk. cbn [fst].
    split_and!; [done..|]. apply elem_of_app. by right.
  - apply InstrumentTrace_In. exists bbl, img. fold walk. rewrite Hwalk. cbn [fst].
    split_and!; [done..|]. apply elem_of_app. left. by repeat constructor.
  - destruct (exec_ret cpuid ins ex tw ctxt gr true T Htid Htaken)
      as (c1 & c' & g' & new & He & _ & Hs & Hn & _ & _).
    rewrite Hwalk. cbn [fst].
    unfold memory_entries in Hn. rewrite Hrd in Hn.
    eexists c1, c', g', new, _. split_and!; [done..|].
    rewrite Hn. reflexivity.
  - intros u i ins' H13' H45' Hcb.
    rewrite InstrumentIns_unfiltered by done.
    destruct control_flow_no_memory as (Hc & Hb & _ & _).
    destruct (INS_IsCall ins'); [done|]. simpl in Hcb. by rewrite Hcb.
Qed.

Lemma C10_witness :
  ∃ ctxt' gr',
    exec_ins cpuid_default ins_ret (InstrumentIns sample_xed true true ins_ret).1
      (ex_jump 0) (started 0x1234).1 (started 0x1234).2 = Some (ctxt', gr')
    ∧ stores gr' = [(100, MemoryRead 0x1009 0x7000); (101, Ret 0x1009 0x4000)].
Proof.
  destruct (C10_ret_reaches_memory_stage sample_xed cpuid_default [bbl_a_ret]
              (loaded 0x1234) bbl_a_ret
              {| _interesting := true; _name := "C:\bin\A.exe";
                 _startAddress := 0x1000; _endAddress := 0x1fff |}
              ins_ret (ex_jump 0) sample_tw (started 0x1234).1 (started 0x1234).2)
    as (_ & _ & _ & (c1 & c' & g' & new & more & He & _) & _).
  - by constructor.
  - reflexivity.
  - by repeat constructor.
  - reflexivity.
  - reflexivity.
  - reflexivity.
  - reflexivity.
  - reflexivity.
  - reflexivity.
  - reflexivity.
  - apply started_traced.
  - reflexivity.
  - reflexivity.
  - exists c', g'. split; [exact He|].
    vm_compute in He. injection He as _ <-. reflexivity.
Defined.



(** ** Unattributable blocks *)

Lemma image_of_bbl_None images bbl :
  (∀ i, i ∈ images → ¬ (_startAddress i ≤ BBL_Address bbl ≤ _endAddress i)) →
  image_of_bbl images bbl = None.
Proof.
  induction images as [|i rest IH]; intros H; simpl; [done|].
  unfold ContainsBasicBlock.
  destruct (Z.leb_spec (_startAddress i) (BBL_Address bbl)) as [H1|H1];
    destruct (Z.leb_spec (BBL_Address bbl) (_endAddress i)) as [H2|H2]; simpl.
  - exfalso. apply (H i); [by left|lia].
  - apply IH. intros j Hj. apply H. by right.
  - apply IH. intros j Hj. apply H. by right.
  - apply IH. intros j Hj. apply H. by right.
Qed.

(** C8: a block whose address lies in no registered image's
    [[low, high]] range makes the planner write one error line to [cerr]
    and issue no request for the block; the blocks before and after it are
    instrumented as they would be without it. *)
Theorem C8_unattributable_block_is_skipped xed pre bbl post g :
  (∀ i, i ∈ _images g → ¬ (_startAddress i ≤ BBL_Address bbl ≤ _endAddress i)) →
  let before := InstrumentTrace xed pre g in
  let logged :=
    set_cerr before.2
      (put_line (set_hex (cerr before.2))
         ("Error: Cannot resolve image of basic block " +:+ hex_string (BBL_Address bbl))) in
  let after := InstrumentTrace xed post logged in
  InstrumentTrace xed (pre ++ bbl :: post) g = (before.1 ++ after.1, after.2)
  ∧ InstrumentTrace xed [bbl] g = ([], set_cerr g (put_line (set_hex (cerr g))
         ("Error: Cannot resolve image of basic block " +:+ hex_string (BBL_Address bbl))))
  ∧ after.1 = (InstrumentTrace xed post g).1
  ∧ os_lines (cerr logged) = os_lines (cerr before.2)
       ++ ["Error: Cannot resolve image of basic block " +:+ hex_string (BBL_Address bbl)].
Proof.
  intros H before logged after.
  pose proof (image_of_bbl_None _ _ H) as Hnone.
  destruct (InstrumentTrace_globals xed pre g) as [os Hos].
  split_and!.
  - rewrite InstrumentTrace_app. subst after logged. fold before in Hos |- *.
    destruct before as [c1 g1]. simpl in Hos.
    assert (Hi : _images g1 = _images g) by (by rewrite Hos).
    cbn [InstrumentTrace fst snd]. rewrite Hi, Hnone.
    by destruct (InstrumentTrace xed post _).
  - simpl. by rewrite Hnone.
  - subst after logged. rewrite InstrumentTrace_calls_cerr.
    fold before in Hos. rewrite Hos. apply InstrumentTrace_calls_cerr.
  - done.
Qed.

Lemma C8_witness :
  (InstrumentTrace sample_xed [bbl_a; bbl_nowhere; bbl_b] (loaded 0x1234)).1
  = (InstrumentTrace sample_xed [bbl_a] (loaded 0x1234)).1
    ++ (InstrumentTrace sample_xed [bbl_b] (loaded 0x1234)).1.
Proof.
  destruct (C8_unattributable_block_is_skipped sample_xed [bbl_a] bbl_nowhere [bbl_b]
              (loaded 0x1234)) as (H1 & _ & H3 & _).
  - intros i Hi. rewrite loaded_images in Hi.
    apply elem_of_cons in Hi as [-> | Hi].
    + cbn. lia.
    + apply list_elem_of_singleton in Hi as ->. cbn. lia.
  - change ([bbl_a; bbl_nowhere; bbl_b]) with ([bbl_a] ++ bbl_nowhere :: [bbl_b]).
    rewrite H1. cbn [fst]. rewrite H3. reflexivity.
Defined.

(** ** Threads other than the main thread *)

Section NullThread.

Variable cpuid : Z → Z → Z * Z * Z * Z → Z * Z * Z * Z.
Variable xed : xed_iclass_enum.

Lemma run_optional_store_null (b : bool) ip ex at_ point insert args rest guard ctxt g :
  ctxt _nextBufferEntryReg = NULL → ex_tid ex ≠ 0 →
  ∃ guard' ctxt',
    run_calls cpuid ip ex at_
      ((if b then guarded_store point insert args else []) ++ rest) guard ctxt g
    = run_calls cpuid ip ex at_ rest guard' ctxt' g
    ∧ ctxt' _nextBufferEntryReg = NULL.
Proof.
  intros Hnull Htid. destruct b; [|by exists guard, ctxt].
  destruct (decide (point = at_)) as [->|Hne].
  - destruct (run_guarded_store_null cpuid ip ex at_ insert args rest guard ctxt g
                Hnull Htid) as (gd & c' & Hrun & Hn & _).
    by exists gd, c'.
  - exists guard, ctxt. split; [|done].
    apply run_calls_other_point. by apply guarded_store_other_point.
Qed.

(** The requests of one instruction, run at one point on a thread whose
    write pointer is null: the globals stay as they are and the pointer
    stays null. *)
Lemma run_plan_null u i ins ex at_ ctxt g :
  ctxt _nextBufferEntryReg = NULL → ex_tid ex ≠ 0 →
  is_tool_register (INS_RegW0 ins) = false →
  ∃ ctxt',
    run_calls cpuid (INS_Address ins) ex at_ (InstrumentIns xed u i ins).1 0 ctxt g
    = Some (ctxt', g)
    ∧ ctxt' _nextBufferEntryReg = NULL.
Proof.
  intros Hnull Htid Hreg.
  assert (Hone : ∀ point insert args,
    ∃ ctxt', run_calls cpuid (INS_Address ins) ex at_
               (guarded_store point insert args) 0 ctxt g = Some (ctxt', g)
             ∧ ctxt' _nextBufferEntryReg = NULL).
  { intros point insert args.
    destruct (run_optional_store_null true (INS_Address ins) ex at_ point insert args
                [] 0 ctxt g Hnull Htid) as (gd & c' & Hrun & Hn).
    cbn [app] in Hrun. rewrite app_nil_r in Hrun. by exists c'. }
  unfold InstrumentIns.
  destruct (INS_SegmentPrefix ins); [by exists ctxt|].
  destruct (_ && _); [by exists ctxt|]. destruct (_ && _); [by exists ctxt|].
  destruct (_ =? _); [by exists ctxt|].
  destruct (_ =? _).
  { cbn [fst]. destruct at_; simpl.
    - eexists. split; [reflexivity|]. by rewrite !PIN_SetContextReg_other.
    - unfold invoke. simpl.
      match goal with
      | |- context [cpuid ?x ?y ?z] => destruct (cpuid x y z) as [[[a b] c] d]
      end.
      eexists. split; [reflexivity|].
      by rewrite !PIN_SetContextReg_other.
    - by exists ctxt. }
  destruct (_ && _).
  { cbn [fst]. destruct at_; simpl; [by exists ctxt| |by exists ctxt].
    eexists. split; [reflexivity|]. unfold ChangeRandomNumber.
    rewrite PIN_SetContextReg_other; [done|]. by apply reg_overlap_not_tool. }
  destruct (INS_IsCall ins); [apply Hone|].
  destruct (INS_IsBranch ins); [apply Hone|].
  assert (Hchain : ∀ (b0 b1 b2 b3 : bool) p0 f0 a0 p1 f1 a1 p2 f2 a2 p3 f3 a3,
    ∃ ctxt', run_calls cpuid (INS_Address ins) ex at_
               ((if b0 then guarded_store p0 f0 a0 else [])
                ++ (if b1 then guarded_store p1 f1 a1 else [])
                ++ (if b2 then guarded_store p2 f2 a2 else [])
                ++ (if b3 then guarded_store p3 f3 a3 else [])) 0 ctxt g = Some (ctxt', g)
             ∧ ctxt' _nextBufferEntryReg = NULL).
  { intros b0 b1 b2 b3 p0 f0 a0 p1 f1 a1 p2 f2 a2 p3 f3 a3.
    destruct (run_optional_store_null b0 (INS_Address ins) ex at_ p0 f0 a0
                ((if b1 then guarded_store p1 f1 a1 else [])
                 ++ (if b2 then guarded_store p2 f2 a2 else [])
                 ++ (if b3 then guarded_store p3 f3 a3 else [])) 0 ctxt g Hnull Htid)
      as (gd0 & c0 & -> & N0).
    destruct (run_optional_store_null b1 (INS_Address ins) ex at_ p1 f1 a1
                ((if b2 then guarded_store p2 f2 a2 else [])
                 ++ (if b3 then guarded_store p3 f3 a3 else [])) gd0 c0 g N0 Htid)
      as (gd1 & c1 & -> & N1).
    destruct (run_optional_store_null b2 (INS_Address ins) ex at_ p2 f2 a2
                (if b3 then guarded_store p3 f3 a3 else []) gd1 c1 g N1 Htid)
      as (gd2 & c2 & -> & N2).
    destruct (run_optional_store_null b3 (INS_Address ins) ex at_ p3 f3 a3
                [] gd2 c2 g N2 Htid)
      as (gd3 & c3 & Hrun & N3).
    rewrite app_nil_r in Hrun. exists c3. by rewrite Hrun. }
  destruct i; cbn [negb fst].
  - apply (Hchain (INS_IsRet ins)).
  - destruct (Hchain (INS_IsRet ins) false false false
                IPOINT_TAKEN_BRANCH fp_TraceWriter_InsertRetBranchEntry
                [IARG_REG_VALUE _nextBufferEntryReg; IARG_INST_PTR; IARG_CONTEXT;
                 IARG_RETURN_REGS _nextBufferEntryReg]
                IPOINT_BEFORE fp_ChangeCpuId [] IPOINT_BEFORE fp_ChangeCpuId []
                IPOINT_BEFORE fp_ChangeCpuId []) as (c' & Hrun & Hn).
    cbn [app] in Hrun. rewrite app_nil_r in Hrun. by exists c'.
Qed.

Lemma exec_ins_null u i ins ex ctxt g :
  ctxt _nextBufferEntryReg = NULL → ex_tid ex ≠ 0 →
  is_tool_register (INS_RegW0 ins) = false →
  ∃ ctxt',
    exec_ins cpuid ins (InstrumentIns xed u i ins).1 ex ctxt g = Some (ctxt', g)
    ∧ ctxt' _nextBufferEntryReg = NULL.
Proof.
  intros Hnull Htid Hreg. unfold exec_ins.
  destruct (run_plan_null u i ins ex IPOINT_BEFORE ctxt g Hnull Htid Hreg)
    as (c1 & -> & N1).
  step_bind. by apply run_plan_null.
Qed.


End NullThread.

(** ** The RDRAND override *)

(** The decimal default of the knob (line 27) is the constant compared
    against at line 108. *)
Example knob_default_is_sentinel : fixed_random_sentinel = 841534158063459245.
Proof. reflexivity. Qed.

Lemma main_useFixedRandomNumber knobO knobI knobR :
  _useFixedRandomNumber (main knobO knobI knobR) = negb (knobR =? fixed_random_sentinel)
  ∧ (knobR ≠ fixed_random_sentinel → _fixedRandomNumber (main knobO knobI knobR) = knobR).
Proof.
  unfold main. destruct (Z.eqb_spec knobR fixed_random_sentinel); simpl; by split.
Qed.

(** C5, as it holds: the override is on exactly when the [-r] value
    differs from [0xBADBADBADBADBAD]; when it is on, an [RDRAND] that
    reaches step 5 of the walk (it sits in a block that has an owning
    image, bears no segment prefix and is not dropped by steps 2-4) gets
    the after-call that stores the configured value through its
    destination register, and after the instruction that register holds
    what its width keeps of the value: the value itself for a 64-bit
    destination, its low 32 or 16 bits for a 32- or 16-bit one. *)
Theorem C5_rdrand_override xed cpuid knobO knobI knobR trace g bbl img ins ex ctxt gr :
  0 ≤ knobR < 2 ^ 64 → knobR ≠ fixed_random_sentinel →
  _useFixedRandomNumber g = _useFixedRandomNumber (main knobO knobI knobR) →
  _fixedRandomNumber gr = _fixedRandomNumber (main knobO knobI knobR) →
  bbl ∈ trace → image_of_bbl (_images g) bbl = Some img → ins ∈ BBL_Ins bbl →
  INS_Opcode ins = XED_ICLASS_RDRAND xed →
  filtered_1_3 xed ins = false → INS_Opcode ins ≠ XED_ICLASS_CPUID xed →
  ex_taken ex = false →
  let probe :=
    INS_InsertCall IPOINT_AFTER fp_ChangeRandomNumber
      [IARG_REG_REFERENCE (INS_RegW0 ins)] in
  (∀ v, _useFixedRandomNumber (main knobO knobI v) = true ↔ v ≠ fixed_random_sentinel)
  ∧ InstrumentIns xed (_useFixedRandomNumber g) (IsInteresting img) ins
    = ([probe], continue_rdrand)
  ∧ (ins, probe) ∈ (InstrumentTrace xed trace g).1
  ∧ ∃ ctxt',
      exec_ins cpuid ins [probe] ex ctxt gr = Some (ctxt', gr)
      ∧ ctxt' (INS_RegW0 ins) = reg_trunc (INS_RegW0 ins) knobR
      ∧ (∀ n, INS_RegW0 ins = REG_GPR n W64 → ctxt' (INS_RegW0 ins) = knobR)
      ∧ (∀ n, INS_RegW0 ins = REG_GPR n W32 → ctxt' (INS_RegW0 ins) = knobR mod 2 ^ 32)
      ∧ (∀ n, INS_RegW0 ins = REG_GPR n W16 → ctxt' (INS_RegW0 ins) = knobR mod 2 ^ 16).
Proof.
  intros Hrange Hne Hu Hv Hbbl Himg Hins Hopc H13 Hcpuid Htaken probe.
  destruct (main_useFixedRandomNumber knobO knobI knobR) as [Hmu Hmv].
  assert (Hon : _useFixedRandomNumber g = true).
  { rewrite Hu, Hmu. by destruct (Z.eqb_spec knobR fixed_random_sentinel). }
  assert (Hwalk : InstrumentIns xed (_useFixedRandomNumber g) (IsInteresting img) ins
                  = ([probe], continue_rdrand)).
  { revert H13. unfold filtered_1_3, in_push_range, in_pop_range, is_lea, InstrumentIns.
    intros H13.
    apply orb_false_elim in H13 as [H13 Hlea].
    apply orb_false_elim in H13 as [H13 Hpop].
    apply orb_false_elim in H13 as [Hseg Hpush].
    rewrite Hseg, Hpush, Hpop, Hlea, Hon.
    destruct (Z.eqb_spec (INS_Opcode ins) (XED_ICLASS_CPUID xed)); [done|].
    by destruct (Z.eqb_spec (INS_Opcode ins) (XED_ICLASS_RDRAND xed)). }
  split_and!.
  - intros v. destruct (main_useFixedRandomNumber knobO knobI v) as [-> _].
    destruct (Z.eqb_spec v fixed_random_sentinel); simpl; split; congruence.
  - done.
  - apply InstrumentTrace_In. exists bbl, img. rewrite Hwalk.
    split_and!; [done..|]. by constructor.
  - unfold exec_ins. rewrite Htaken. simpl.
    eexists. split; [reflexivity|]. unfold ChangeRandomNumber.
    rewrite PIN_SetContextReg_read, Hv, Hmv by done.
    unfold static_cast_ADDRINT. rewrite (Z.mod_small knobR (2 ^ 64)) by lia.
    split_and!; [done|..]; intros n ->; simpl; [|done..].
    apply Z.mod_small. lia.
Qed.

Lemma C5_witness :
  (∃ ctxt',
     exec_ins cpuid_default ins_rdrand
       (InstrumentIns sample_xed true true ins_rdrand).1 (ex_rax99 0)
       (started 0x1234).1 (started 0x1234).2 = Some (ctxt', (started 0x1234).2)
     ∧ ctxt' REG_RAX = 0x1234)
  ∧ (∃ ctxt',
       exec_ins cpuid_default ins_rdrand_eax
         (InstrumentIns sample_xed true true ins_rdrand_eax).1 (ex_rax99 0)
         (started 0x123456789).1 (started 0x123456789).2
       = Some (ctxt', (started 0x123456789).2)
       ∧ ctxt' REG_EAX = 0x23456789).
Proof.
  split.
  - destruct (C5_rdrand_override sample_xed cpuid_default "out" "a.exe" 0x1234 [bbl_a_ret]
                (loaded 0x1234) bbl_a_ret
                {| _interesting := true; _name := "C:\bin\A.exe";
                   _startAddress := 0x1000; _endAddress := 0x1fff |}
                ins_rdrand (ex_rax99 0) (started 0x1234).1 (started 0x1234).2)
      as (_ & _ & _ & c' & He & _ & Hr & _).
    + lia.
    + discriminate.
    + reflexivity.
    + reflexivity.
    + by constructor.
    + reflexivity.
    + by repeat constructor.
    + reflexivity.
    + reflexivity.
    + discriminate.
    + reflexivity.
    + exists c'. split; [exact He|exact (Hr 0%nat eq_refl)].
  - destruct (C5_rdrand_override sample_xed cpuid_default "out" "a.exe" 0x123456789
                [bbl_a_rdrand] (loaded 0x123456789) bbl_a_rdrand
                {| _interesting := true; _name := "C:\bin\A.exe";
                   _startAddress := 0x1000; _endAddress := 0x1fff |}
                ins_rdrand_eax (ex_rax99 0) (started 0x123456789).1 (started 0x123456789).2)
      as (_ & _ & _ & c' & He & _ & _ & Hr & _).
    + lia.
    + discriminate.
    + reflexivity.
    + reflexivity.
    + by constructor.
    + reflexivity.
    + by repeat constructor.
    + reflexivity.
    + reflexivity.
    + discriminate.
    + reflexivity.
    + exists c'. split; [exact He|exact (Hr 0%nat eq_refl)].
Defined.

(** C5, as stated, fails in two ways.  With [-r 0x1234] the override is
    on, yet an [RDRAND] that bears a segment prefix gets no request at all,
    and after it has executed, its destination register holds what the
    hardware produced ([99] here), not the configured value.  And with
    [-r 0x8000000000000000] an [rdrand eax] that does get the request ends
    with [0] in [EAX], the low 32 bits of the value, not with the value. *)
Lemma C5_counterexample :
  (_useFixedRandomNumber (loaded 0x1234) = true
   ∧ _fixedRandomNumber (loaded 0x1234) = 0x1234
   ∧ INS_Opcode ins_rdrand_gs = XED_ICLASS_RDRAND sample_xed
   ∧ image_of_bbl (_images (loaded 0x1234)) bbl_a_ret ≠ None
   ∧ ins_rdrand_gs ∈ BBL_Ins bbl_a_ret
   ∧ (InstrumentIns sample_xed (_useFixedRandomNumber (loaded 0x1234)) true ins_rdrand_gs).1
     = []
   ∧ ∃ ctxt',
       exec_ins cpuid_default ins_rdrand_gs
         (InstrumentIns sample_xed (_useFixedRandomNumber (loaded 0x1234)) true
            ins_rdrand_gs).1
         (ex_rax99 0) (started 0x1234).1 (started 0x1234).2
       = Some (ctxt', (started 0x1234).2)
       ∧ ctxt' (INS_RegW0 ins_rdrand_gs) = 99
       ∧ ctxt' (INS_RegW0 ins_rdrand_gs) ≠ _fixedRandomNumber (loaded 0x1234))
  ∧ (_useFixedRandomNumber (loaded (2 ^ 63)) = true
     ∧ _fixedRandomNumber (loaded (2 ^ 63)) = 2 ^ 63
     ∧ INS_Opcode ins_rdrand_eax = XED_ICLASS_RDRAND sample_xed
     ∧ INS_SegmentPrefix ins_rdrand_eax = false
     ∧ image_of_bbl (_images (loaded (2 ^ 63))) bbl_a_rdrand ≠ None
     ∧ ins_rdrand_eax ∈ BBL_Ins bbl_a_rdrand
     ∧ (InstrumentIns sample_xed (_useFixedRandomNumber (loaded (2 ^ 63))) true
          ins_rdrand_eax).1
       = [INS_InsertCall IPOINT_AFTER fp_ChangeRandomNumber [IARG_REG_REFERENCE REG_EAX]]
     ∧ ∃ ctxt',
         exec_ins cpuid_default ins_rdrand_eax
           (InstrumentIns sample_xed (_useFixedRandomNumber (loaded (2 ^ 63))) true
              ins_rdrand_eax).1
           (ex_rax99 0) (started (2 ^ 63)).1 (started (2 ^ 63)).2
         = Some (ctxt', (started (2 ^ 63)).2)
         ∧ ctxt' (INS_RegW0 ins_rdrand_eax) = 0
         ∧ ctxt' (INS_RegW0 ins_rdrand_eax) ≠ _fixedRandomNumber (loaded (2 ^ 63))).
Proof.
  split.
  - split_and!; try reflexivity.
    + discriminate.
    + by repeat constructor.
    + eexists. split; [reflexivity|]. split; [reflexivity|]. discriminate.
  - split_and!; try reflexivity.
    + discriminate.
    + by repeat constructor.
    + eexists. split; [reflexivity|]. split; [reflexivity|]. discriminate.
Qed.

(** ** Testcase notifications *)


Lemma WriteBufferToFile_flushed this last g tw es :
  tls g !! this = Some tw → Begin tw ≤ last →
  read_slots (heap g) (Begin tw) (Z.to_nat (last - Begin tw)) = Some es →
  WriteBufferToFile this last g = Some (set_disk g (flushed_disk tw es (disk g))).
Proof.
  intros Htw Hle Hes. unfold WriteBufferToFile, flushed_disk. rewrite Htw. simpl.
  destruct (Z.ltb_spec last (Begin tw)); [lia|]. rewrite Hes. simpl.
  destruct (tw_file tw); [done|]. by destruct g.
Qed.

Lemma rtn_calls_hook_routine name img n calls line acc :
  rtn_calls name (hook_routine img n calls line acc).1
  = rtn_calls name acc.1
    ++ (if RTN_Valid img n then (if decide (n = name) then calls else []) else []).
Proof.
  unfold hook_routine, rtn_calls. destruct (RTN_Valid img n); [|by rewrite app_nil_r].
  cbn [fst]. rewrite filter_app, fmap_app. f_equal.
  destruct (decide (n = name)) as [->|Hne].
  - induction calls as [|c cs IH]; [done|]. cbn [map].
    rewrite filter_cons_True by done. cbn [fmap list_fmap snd]. by f_equal.
  - induction calls as [|c cs IH]; [done|]. cbn [map].
    by rewrite filter_cons_False.
Qed.





(** ** The flush on a full buffer *)

(** What [CheckBufferAndStore] writes when the check fires on the traced
    thread: every slot of the buffer, up to [entryBufferEnd], whatever the
    write pointer is. *)
Lemma CheckBufferAndStore_writes_whole_buffer tw ctxt g next es :
  traced tw ctxt g → Begin tw ≤ next ≤ End tw →
  CheckBufferFull next (End tw) = true →
  read_slots (heap g) (Begin tw) (Z.to_nat (tw_size tw)) = Some es →
  CheckBufferAndStore next (End tw) 0 g
  = Some (Begin tw, set_disk g (flushed_disk tw es (disk g)))
  ∧ Z.of_nat (length es) = tw_size tw.
Proof.
  intros T Hn Hfull Hes.
  pose proof (traced_nonnull _ _ _ T) as Hnn.
  pose proof (traced_size _ _ _ T) as Hsz.
  split.
  - unfold CheckBufferAndStore. simpl.
    destruct (next =? NULL) eqn:E1; [unfold NULL in *; lia|].
    destruct (End tw =? NULL) eqn:E2; [unfold NULL, End, Begin in *; lia|].
    simpl. rewrite Hfull. unfold PIN_GetThreadData.
    rewrite (traced_writer _ _ _ T). simpl.
    rewrite (WriteBufferToFile_flushed 0 (End tw) g tw es); [done| |..].
    + apply (traced_writer _ _ _ T).
    + unfold End, Begin. lia.
    + replace (End tw - Begin tw) with (tw_size tw) by (unfold End, Begin; lia). done.
  - apply read_slots_length in Hes. lia.
Qed.

(** [ThreadFini], the other caller of [WriteBufferToFile], passes the
    write pointer: it writes the slots [[begin, next)] only. *)
Lemma ThreadFini_writes_up_to_next tw ctxt g es :
  traced tw ctxt g →
  read_slots (heap g) (Begin tw)
    (Z.to_nat (ctxt _nextBufferEntryReg - Begin tw)) = Some es →
  ∃ g', ThreadFini 0 ctxt g = Some g'
        ∧ disk g' = flushed_disk tw es (disk g)
        ∧ Z.of_nat (length es) = ctxt _nextBufferEntryReg - Begin tw.
Proof.
  intros T Hes. pose proof (traced_next _ _ _ T) as Hn.
  unfold ThreadFini, PIN_GetThreadData, PIN_GetContextReg. simpl.
  rewrite (traced_writer _ _ _ T). simpl.
  rewrite (WriteBufferToFile_flushed 0 _ g tw es); [|apply (traced_writer _ _ _ T)|lia|done].
  simpl. eexists. split; [reflexivity|]. split; [done|].
  apply read_slots_length in Hes. lia.
Qed.

(** * Further properties of the code *)

(** ** The image registry *)

(** X1: the owner of a block is the earliest registered image that
    contains it; there is no owner exactly when no registered image
    contains it. *)
Theorem X1_image_of_bbl_first_match images bbl :
  (∀ i, image_of_bbl images bbl = Some i ↔
        ∃ earlier later, images = earlier ++ i :: later
          ∧ ContainsBasicBlock i bbl = true
          ∧ Forall (λ j, ContainsBasicBlock j bbl = false) earlier)
  ∧ (image_of_bbl images bbl = None ↔
     Forall (λ j, ContainsBasicBlock j bbl = false) images).
Proof.
  induction images as [|j rest [IHs IHn]]; simpl.
  - split.
    + intros i. split; [done|]. intros (earlier & later & H & _).
      by destruct earlier.
    + split; [constructor|done].
  - destruct (ContainsBasicBlock j bbl) eqn:Ej.
    + split.
      * intros i. split.
        -- intros [= <-]. exists [], rest. by repeat split.
        -- intros (earlier & later & H & Hc & Hf).
           destruct earlier as [|e earlier]; simpl in H.
           ++ by injection H as ->.
           ++ injection H as <- _. apply Forall_cons in Hf as [Hf _]. congruence.
      * split; [done|]. intros [Hf _]%Forall_cons. congruence.
    + split.
      * intros i. rewrite IHs. split.
        -- intros (earlier & later & -> & Hc & Hf).
           exists (j :: earlier), later. split_and!; [done..|by constructor].
        -- intros (earlier & later & H & Hc & Hf).
           destruct earlier as [|e earlier]; simpl in H.
           ++ injection H as -> _. congruence.
           ++ injection H as <- ->. apply Forall_cons in Hf as [_ Hf].
              by exists earlier, later.
      * rewrite IHn. split; [by constructor|]. by intros [_ ?]%Forall_cons.
Qed.

Lemma image_of_bbl_app_Some images more bbl i :
  image_of_bbl images bbl = Some i → image_of_bbl (images ++ more) bbl = Some i.
Proof.
  induction images as [|j rest IH]; simpl; [done|].
  by destruct (ContainsBasicBlock j bbl).
Qed.

(** What [InstrumentImage] does to the globals: one image appended to the
    registry, one line appended to the image log, [cerr] left in
    hexadecimal mode, everything else untouched. *)
Lemma InstrumentImage_globals img g :
  let g' := (InstrumentImage img g).2 in
  (∃ i, _images g' = _images g ++ [i]
        ∧ _name i = IMG_Name img
        ∧ _startAddress i = IMG_LowAddress img ∧ _endAddress i = IMG_HighAddress img)
  ∧ length (image_log g') = S (length (image_log g))
  ∧ os_hex (cerr g') = true
  ∧ _useFixedRandomNumber g' = _useFixedRandomNumber g
  ∧ _fixedRandomNumber g' = _fixedRandomNumber g
  ∧ _interestingImages g' = _interestingImages g
  ∧ tls g' = tls g ∧ heap g' = heap g ∧ disk g' = disk g ∧ stores g' = stores g.
Proof.
  unfold InstrumentImage, hook_routine. cbn [snd].
  split; [by eexists|].
  split; [simpl; rewrite length_app; simpl; lia|].
  split; [|done].
  by repeat destruct (RTN_Valid _ _).
Qed.

(** The requests of a trace depend on the globals only through the owners
    of its blocks and the RDRAND flag. *)
Lemma InstrumentTrace_calls_ext xed trace g1 g2 :
  (∀ bbl, bbl ∈ trace →
          image_of_bbl (_images g1) bbl = image_of_bbl (_images g2) bbl) →
  _useFixedRandomNumber g1 = _useFixedRandomNumber g2 →
  (InstrumentTrace xed trace g1).1 = (InstrumentTrace xed trace g2).1.
Proof.
  intros Himg Hu. revert g1 g2 Himg Hu.
  induction trace as [|bbl rest IH]; intros g1 g2 Himg Hu; simpl; [done|].
  rewrite (Himg bbl) by (by left).
  assert (Hrest : ∀ b, b ∈ rest →
            image_of_bbl (_images g1) b = image_of_bbl (_images g2) b).
  { intros b Hb. apply Himg. by right. }
  destruct (image_of_bbl (_images g2) bbl) as [img|].
  - specialize (IH g1 g2 Hrest Hu). rewrite Hu.
    destruct (InstrumentTrace xed rest g1) as [l1 g1'].
    destruct (InstrumentTrace xed rest g2) as [l2 g2']. simpl in *. by rewrite IH.
  - rewrite !InstrumentTrace_calls_cerr. by apply IH.
Qed.

(** X2: loading a further image never changes the owner of a block that
    already had one, so a trace whose blocks all have an owner is
    instrumented the same way before and after the load. *)
Theorem X2_image_load_keeps_owners xed img g trace :
  Forall (attributable (_images g)) trace →
  let g' := (InstrumentImage img g).2 in
  (∀ bbl, bbl ∈ trace → image_of_bbl (_images g') bbl = image_of_bbl (_images g) bbl)
  ∧ (InstrumentTrace xed trace g').1 = (InstrumentTrace xed trace g).1.
Proof.
  intros Hall g'.
  destruct (InstrumentImage_globals img g) as ((i & Hi & _) & _ & _ & Hu & _).
  fold g' in Hi, Hu.
  assert (Hown : ∀ bbl, bbl ∈ trace →
            image_of_bbl (_images g') bbl = image_of_bbl (_images g) bbl).
  { intros bbl Hb. rewrite Forall_forall in Hall.
    destruct (Hall bbl Hb) as [o Ho]. rewrite Ho, Hi.
    by apply image_of_bbl_app_Some. }
  split; [done|]. by apply InstrumentTrace_calls_ext.
Qed.

Lemma X2_witness :
  (InstrumentTrace sample_xed [bbl_a; bbl_a_ret]
     (InstrumentImage img_b (InstrumentImage img_a (main "out" "a.exe" 0x1234)).2).2).1
  = (InstrumentTrace sample_xed [bbl_a; bbl_a_ret]
       (InstrumentImage img_a (main "out" "a.exe" 0x1234)).2).1.
Proof.
  apply (X2_image_load_keeps_owners sample_xed img_b
           (InstrumentImage img_a (main "out" "a.exe" 0x1234)).2 [bbl_a; bbl_a_ret]).
  repeat constructor; by eexists.
Defined.

(** ** The planner's output as a whole *)

Lemma InstrumentTrace_cerr xed trace g :
  os_lines (cerr (InstrumentTrace xed trace g).2)
  = os_lines (cerr g) ++ unresolved_lines (_images g) trace
  ∧ os_hex (cerr (InstrumentTrace xed trace g).2)
    = os_hex (cerr g) || negb (bool_decide (unresolved_lines (_images g) trace = [])).
Proof.
  revert g. induction trace as [|bbl rest IH]; intros g.
  - simpl. unfold unresolved_lines. simpl. by rewrite app_nil_r, orb_false_r.
  - simpl. unfold unresolved_lines. simpl. fold (unresolved_lines (_images g) rest).
    destruct (image_of_bbl (_images g) bbl) as [img|].
    + specialize (IH g). destruct (InstrumentTrace xed rest g) as [l g']. done.
    + destruct (IH (set_cerr g (put_line (set_hex (cerr g)) (unresolved_bbl_line bbl))))
        as [IH1 IH2].
      simpl in IH1, IH2. rewrite IH1, IH2. simpl.
      split; [by rewrite <- app_assoc|by rewrite orb_true_r].
Qed.

(** X3: the planner writes exactly one error line per block without an
    owning image, in trace order, and changes no other global; a block that
    has an owner adds no line.  With an empty registry nothing at all is
    instrumented and every block is reported. *)
Theorem X3_planner_error_output xed trace g :
  let g' := (InstrumentTrace xed trace g).2 in
  os_lines (cerr g') = os_lines (cerr g) ++ unresolved_lines (_images g) trace
  ∧ g' = set_cerr g (cerr g')
  ∧ (Forall (attributable (_images g)) trace → cerr g' = cerr g)
  ∧ (_images g = [] →
       (InstrumentTrace xed trace g).1 = []
       ∧ unresolved_lines (_images g) trace = map unresolved_bbl_line trace).
Proof.
  intros g'. destruct (InstrumentTrace_cerr xed trace g) as [Hl Hh]. fold g' in Hl, Hh.
  split; [done|]. split; [|split].
  - destruct (InstrumentTrace_globals xed trace g) as [os Hos]. fold g' in Hos.
    by rewrite Hos.
  - intros Hall.
    assert (Hnil : unresolved_lines (_images g) trace = []).
    { clear -Hall. unfold unresolved_lines.
      induction Hall as [|b t [o Ho] _ IH]; simpl; [done|].
      rewrite Ho. exact IH. }
    rewrite Hnil in Hl, Hh. rewrite app_nil_r in Hl. simpl in Hh.
    rewrite orb_false_r in Hh.
    destruct (cerr g'), (cerr g). simpl in *. by subst.
  - intros Hempty. rewrite Hempty. split.
    + clear g' Hl Hh. revert g Hempty.
      induction trace as [|b t IH]; intros g Hempty; [done|].
      simpl. rewrite Hempty. simpl. by apply IH.
    + unfold unresolved_lines. clear. induction trace as [|b t IH]; [done|].
      simpl. by f_equal.
Qed.

(** ** Interesting images *)

Lemma prefix_spec needle hay :
  String.prefix needle hay = true ↔ ∃ rest, hay = needle +:+ rest.
Proof.
  revert hay. induction needle as [|c needle IH]; intros hay; simpl.
  - destruct hay; simpl; (split; [intros _; by eexists|done]).
  - destruct hay as [|d hay]; simpl.
    + split; [done|]. by intros [rest ?].
    + destruct (Ascii.ascii_dec c d) as [->|Hne].
      * rewrite IH. split.
        -- intros [rest ->]. by exists rest.
        -- intros [rest H]. exists rest. by injection H.
      * split; [done|]. intros [rest H]. by injection H.
Qed.

Lemma string_contains_unfold hay needle :
  string_contains hay needle
  = String.prefix needle hay
    || match hay with
       | EmptyString => false
       | String _ rest => string_contains rest needle
       end.
Proof. by destruct hay. Qed.

(** [string_contains] finds exactly the substrings. *)
Lemma string_contains_spec hay needle :
  string_contains hay needle = true ↔ ∃ before rest, hay = before +:+ needle +:+ rest.
Proof.
  induction hay as [|d hay IH]; rewrite string_contains_unfold.
  - rewrite orb_false_r, prefix_spec. split.
    + intros [rest H]. by exists EmptyString, rest.
    + intros (before & rest & H). destruct before; [by exists rest|done].
  - rewrite orb_true_iff, prefix_spec, IH. split.
    + intros [[rest H] | (before & rest & H)].
      * by exists EmptyString, rest.
      * exists (String d before), rest. by rewrite H.
    + intros (before & rest & H). destruct before as [|b before].
      * left. by exists rest.
      * right. exists before, rest. by injection H.
Qed.

(** X4: the image [InstrumentImage] registers is flagged interesting
    exactly when one of the configured patterns occurs as a substring of
    the lower-cased image name; so the flag does not depend on the case of
    the name's letters, and with no pattern configured no image is
    interesting. *)
Theorem X4_interest_flag img g :
  let flag := _interesting <$> last (_images (InstrumentImage img g).2) in
  (flag = Some true ↔
     ∃ pattern before rest, pattern ∈ _interestingImages g
       ∧ tolower (IMG_Name img) = before +:+ pattern +:+ rest)
  ∧ (∀ img', tolower (IMG_Name img') = tolower (IMG_Name img) →
       _interesting <$> last (_images (InstrumentImage img' g).2) = flag)
  ∧ (_interestingImages g = [] → flag = Some false).
Proof.
  intros flag.
  assert (Hflag : ∀ im, _interesting <$> last (_images (InstrumentImage im g).2)
            = Some (existsb (λ p, string_contains (tolower (IMG_Name im)) p)
                      (_interestingImages g))).
  { intros im. unfold InstrumentImage. cbn [snd]. simpl. by rewrite last_snoc. }
  subst flag. rewrite Hflag. split_and!.
  - split.
    + intros [= H]. apply existsb_exists in H as (p & Hp & Hc).
      apply string_contains_spec in Hc as (before & rest & Hc).
      exists p, before, rest. by rewrite list_elem_of_In.
    + intros (p & before & rest & Hp & Hc). f_equal. apply existsb_exists.
      exists p. rewrite <- list_elem_of_In. split; [done|].
      apply string_contains_spec. by exists before, rest.
  - intros img' Hn. by rewrite Hflag, Hn.
  - by intros ->.
Qed.

(** ** Option handling in [main] *)

Lemma tolower_ascii_semicolon c : tolower_ascii c = ";"%char ↔ c = ";"%char.
Proof.
  split; [|by intros ->].
  destruct c as [[] [] [] [] [] [] [] []]; vm_compute; congruence.
Qed.

Lemma tolower_ascii_idemp c : tolower_ascii (tolower_ascii c) = tolower_ascii c.
Proof. by destruct c as [[] [] [] [] [] [] [] []]. Qed.

Lemma tolower_idemp s : tolower (tolower s) = tolower s.
Proof. induction s as [|c s IH]; simpl; [done|]. by rewrite tolower_ascii_idemp, IH. Qed.

Lemma tolower_app s t : tolower (s +:+ t) = tolower s +:+ tolower t.
Proof. induction s as [|c s IH]; simpl; [done|]. by rewrite IH. Qed.

Lemma tolower_empty s : tolower s = EmptyString ↔ s = EmptyString.
Proof. by destruct s. Qed.

(** Lower-casing commutes with splitting at semicolons. *)
Lemma getline_items_tolower s cur :
  getline_items (tolower s) (tolower cur) = map tolower (getline_items s cur).
Proof.
  revert cur. induction s as [|c s IH]; intros cur; simpl.
  - destruct (decide (cur = EmptyString)) as [->|Hne]; simpl; [done|].
    rewrite decide_False; [done|]. by rewrite tolower_empty.
  - destruct (decide (c = ";"%char)) as [->|Hne].
    + change (tolower_ascii ";") with ";"%char. rewrite decide_True by done.
      simpl. f_equal. apply (IH EmptyString).
    + rewrite decide_False by (by rewrite tolower_ascii_semicolon).
      rewrite <- IH. by rewrite tolower_app.
Qed.

Lemma snoc_semicolon_split (a : string) (x : ascii) (p q : string) :
  a +:+ String x EmptyString = p +:+ ";" +:+ q → x ≠ ";"%char →
  ∃ q', a = p +:+ ";" +:+ q'.
Proof.
  revert a. induction p as [|y p IH]; intros a H Hx.
  - destruct a as [|a0 a].
    + injection H as H _. congruence.
    + injection H as -> _. by exists a.
  - destruct a as [|a0 a].
    + injection H as _ H. by destruct p.
    + injection H as -> H. destruct (IH a H Hx) as [q' ->]. by exists q'.
Qed.

(** No item of the split contains a semicolon, given that the item being
    read contains none. *)
Lemma getline_items_no_semicolon s cur item :
  (∀ before rest, cur ≠ before +:+ ";" +:+ rest) →
  item ∈ getline_items s cur →
  ∀ before rest, item ≠ before +:+ ";" +:+ rest.
Proof.
  revert cur. induction s as [|c s IH]; intros cur Hcur; simpl.
  - destruct (decide (cur = EmptyString)); [by intros ?%elem_of_nil|].
    by intros ->%list_elem_of_singleton.
  - destruct (decide (c = ";"%char)) as [->|Hne].
    + intros [-> | Hi]%elem_of_cons; [done|].
      apply (IH EmptyString); [|done]. intros before rest H. by destruct before.
    + apply IH. intros before rest H.
      destruct (snoc_semicolon_split cur c before rest H Hne) as [q' Hq].
      by apply (Hcur before q').
Qed.

(** X5: every pattern [main] stores from the [-i] option is non-empty,
    contains no semicolon and is in lower case; the stored list does not
    depend on the case of the option's letters, nor on the other
    options. *)
Theorem X5_interesting_image_patterns knobO knobI knobR :
  Forall (λ p, p ≠ EmptyString
               ∧ (∀ before rest, p ≠ before +:+ ";" +:+ rest)
               ∧ tolower p = p)
    (_interestingImages (main knobO knobI knobR))
  ∧ (∀ knobO' knobI' knobR',
       tolower knobI' = tolower knobI →
       _interestingImages (main knobO' knobI' knobR')
       = _interestingImages (main knobO knobI knobR)).
Proof.
  assert (Hpat : ∀ o i r, _interestingImages (main o i r)
            = map tolower (filter (λ item, item ≠ EmptyString)
                             (getline_items i EmptyString))).
  { intros o i r. unfold main. by destruct (negb _). }
  split.
  - rewrite Hpat. apply Forall_forall. intros p Hp.
    apply list_elem_of_In, in_map_iff in Hp as (item & <- & Hitem).
    apply list_elem_of_In, list_elem_of_filter in Hitem as [Hne Hitem].
    split_and!.
    + by rewrite tolower_empty.
    + assert (Hlow : tolower item ∈ getline_items (tolower knobI) (tolower EmptyString)).
      { rewrite getline_items_tolower. apply list_elem_of_In, in_map.
        by apply list_elem_of_In. }
      eapply getline_items_no_semicolon; [|exact Hlow].
      intros before rest H. by destruct before.
    + apply tolower_idemp.
  - intros o' i' r' Hi. rewrite !Hpat.
    assert (Hmap : ∀ l, map tolower (filter (λ item, item ≠ EmptyString) l)
              = filter (λ item, item ≠ EmptyString) (map tolower l)).
    { induction l as [|x l IH]; [done|]. simpl.
      destruct (decide (x = EmptyString)) as [->|Hx].
      - by rewrite !filter_cons_False by (by intros H; apply H).
      - rewrite !filter_cons_True by (by rewrite ?tolower_empty). simpl. by rewrite IH. }
    rewrite !Hmap.
    rewrite <- (getline_items_tolower knobI EmptyString).
    rewrite <- (getline_items_tolower i' EmptyString). by rewrite Hi.
Qed.

(** ** Routine hooks *)

Lemma hook_routine_In img name calls line acc n c :
  (n, c) ∈ (hook_routine img name calls line acc).1 ↔
  (n, c) ∈ acc.1 ∨ (RTN_Valid img name = true ∧ n = name ∧ c ∈ calls).
Proof.
  unfold hook_routine. destruct (RTN_Valid img name); cbn [fst].
  - rewrite elem_of_app, (list_elem_of_In (map _ _)), in_map_iff. split.
    + intros [H | (c' & [= <- <-] & Hc)]; [by left|].
      right. by rewrite list_elem_of_In.
    + intros [H | (_ & -> & Hc)]; [by left|].
      right. exists c. by rewrite <- list_elem_of_In.
  - split; [by left|]. by intros [H | [? _]].
Qed.

Lemma hook_routine_lines img name calls line acc :
  os_lines (hook_routine img name calls line acc).2
  = os_lines acc.2 ++ (if RTN_Valid img name then [line] else [])
  ∧ os_hex (hook_routine img name calls line acc).2 = os_hex acc.2.
Proof.
  unfold hook_routine. destruct (RTN_Valid img name); simpl; [done|].
  by rewrite app_nil_r.
Qed.

(** X6: [InstrumentImage] hooks only routines the image really has, and
    only the five it looks for by name; a routine it does not find gets no
    request and leaves no line on [cerr], so an image with none of them
    produces the load line and nothing else. *)
Theorem X6_hooks_only_on_found_routines img g :
  (∀ name c, (name, c) ∈ (InstrumentImage img g).1 →
     name ∈ IMG_Rtns img
     ∧ name ∈ ["PinNotifyTestcaseStart"; "PinNotifyTestcaseEnd";
               "PinNotifyStackPointer"; "RtlAllocateHeap"; "RtlFreeHeap"])
  ∧ (∀ name, name ∉ IMG_Rtns img → rtn_calls name (InstrumentImage img g).1 = [])
  ∧ ((∀ name, name ∈ ["PinNotifyTestcaseStart"; "PinNotifyTestcaseEnd";
                      "PinNotifyStackPointer"; "RtlAllocateHeap"; "RtlFreeHeap"] →
               name ∉ IMG_Rtns img) →
     (InstrumentImage img g).1 = []
     ∧ length (os_lines (cerr (InstrumentImage img g).2)) = S (length (os_lines (cerr g)))).
Proof.
  assert (Hin : ∀ name c, (name, c) ∈ (InstrumentImage img g).1 →
            name ∈ IMG_Rtns img
            ∧ name ∈ ["PinNotifyTestcaseStart"; "PinNotifyTestcaseEnd";
                      "PinNotifyStackPointer"; "RtlAllocateHeap"; "RtlFreeHeap"]).
  { intros name c. unfold InstrumentImage. cbn [fst].
    rewrite !hook_routine_In. cbn [fst]. rewrite elem_of_nil. unfold RTN_Valid.
    intros [[[[[[] | H] | H] | H] | H] | H]; destruct H as (Hv & -> & _);
      apply bool_decide_eq_true_1 in Hv; (split; [done|]);
      repeat first [by apply list_elem_of_here | apply list_elem_of_further]. }
  split; [done|]. split.
  - intros name Hname. unfold rtn_calls.
    destruct (filter _ _) as [|[n c] l] eqn:E; [done|].
    assert (Hnc : (n, c) ∈ filter (λ p : string * PinCall, p.1 = name)
                             (InstrumentImage img g).1) by (rewrite E; by left).
    apply list_elem_of_filter in Hnc as [Hn Hnc]. simpl in Hn. subst n.
    by apply Hin in Hnc as [? _].
  - intros Hnone.
    assert (Hv : ∀ name, name ∈ ["PinNotifyTestcaseStart"; "PinNotifyTestcaseEnd";
                   "PinNotifyStackPointer"; "RtlAllocateHeap"; "RtlFreeHeap"] →
                 RTN_Valid img name = false).
    { intros name Hn. apply bool_decide_eq_false_2. by apply Hnone. }
    unfold InstrumentImage, hook_routine.
    rewrite !Hv by (repeat first [by apply list_elem_of_here | apply list_elem_of_further]).
    cbn [fst snd]. split; [done|]. simpl. rewrite length_app. simpl. lia.
Qed.

(** ** RDRAND with the override off *)

Lemma InstrumentIns_no_ChangeRandomNumber xed i ins c :
  c ∈ (InstrumentIns xed false i ins).1 → call_fun c ≠ fp_ChangeRandomNumber.
Proof.
  unfold InstrumentIns.
  destruct (INS_SegmentPrefix ins); [by intros ?%elem_of_nil|].
  destruct (_ && _); [by intros ?%elem_of_nil|].
  destruct (_ && _); [by intros ?%elem_of_nil|].
  destruct (_ =? _); [by intros ?%elem_of_nil|].
  assert (Hlist : ∀ l : list PinCall,
            Forall (λ c, call_fun c ≠ fp_ChangeRandomNumber) l →
            c ∈ l → call_fun c ≠ fp_ChangeRandomNumber).
  { intros l Hl Hc. rewrite Forall_forall in Hl. by apply Hl. }
  destruct (_ =? _); [apply Hlist; by repeat constructor|].
  rewrite andb_false_r.
  destruct (INS_IsCall ins); [apply Hlist; by repeat constructor|].
  destruct (INS_IsBranch ins); [apply Hlist; by repeat constructor|].
  cbn [negb fst]. apply Hlist.
  assert (Hret : Forall (λ c, call_fun c ≠ fp_ChangeRandomNumber)
                   (if INS_IsRet ins then ret_calls else [])).
  { destruct (INS_IsRet ins); by repeat constructor. }
  destruct i; cbn [negb fst]; [|done].
  apply Forall_app_2; [done|]. unfold memory_stage.
  repeat apply Forall_app_2; destruct (_ && _); by repeat constructor.
Qed.

(** X7: while the override is off, no request of any trace names
    [ChangeRandomNumber], whatever the trace holds; and the override is off
    exactly when [-r] has the value [841534158063459245], the knob's own
    default, so that this one number cannot be chosen as the fixed output. *)
Theorem X7_override_off xed g :
  _useFixedRandomNumber g = false →
  (∀ trace ins c, (ins, c) ∈ (InstrumentTrace xed trace g).1 →
                  call_fun c ≠ fp_ChangeRandomNumber)
  ∧ (∀ knobO knobI knobR,
       _useFixedRandomNumber (main knobO knobI knobR) = false
       ↔ knobR = 841534158063459245).
Proof.
  intros Hoff. split.
  - intros trace ins c (bbl & img & _ & _ & _ & Hc)%InstrumentTrace_In.
    rewrite Hoff in Hc. by eapply InstrumentIns_no_ChangeRandomNumber.
  - intros knobO knobI knobR.
    destruct (main_useFixedRandomNumber knobO knobI knobR) as [-> _].
    change 841534158063459245 with fixed_random_sentinel.
    destruct (Z.eqb_spec knobR fixed_random_sentinel); simpl; intuition congruence.
Qed.

Lemma X7_witness :
  Forall (λ p : INS * PinCall, call_fun p.2 ≠ fp_ChangeRandomNumber)
    (InstrumentTrace sample_xed [bbl_a_ret] (loaded 841534158063459245)).1.
Proof.
  apply Forall_forall. intros [ins c] Hc.
  exact (proj1 (X7_override_off sample_xed (loaded 841534158063459245) eq_refl)
           [bbl_a_ret] ins c Hc).
Defined.

(** ** The number base of [cerr] *)

(** X8: [hex] is sticky on [cerr].  A thread that starts before any image
    is loaded is reported with its number in decimal; once an image has
    been loaded, or a block could not be resolved, the number is printed in
    hexadecimal, and nothing in the tool switches the stream back. *)
Theorem X8_thread_number_base base garbage tid ctxt :
  tid ≠ 0 →
  let report g := os_lines (cerr (ThreadStart base garbage tid ctxt g).2) in
  (∀ knobO knobI knobR,
     report (main knobO knobI knobR)
     = os_lines (cerr (main knobO knobI knobR)) ++ ["Ignoring thread #" +:+ dec_string tid])
  ∧ (∀ img g,
       report (InstrumentImage img g).2
       = os_lines (cerr (InstrumentImage img g).2) ++ ["Ignoring thread #" +:+ hex_string tid])
  ∧ (∀ xed trace g, ¬ Forall (attributable (_images g)) trace →
       report (InstrumentTrace xed trace g).2
       = os_lines (cerr (InstrumentTrace xed trace g).2)
         ++ ["Ignoring thread #" +:+ hex_string tid])
  ∧ (∀ g, os_hex (cerr g) = true →
       (∀ img, os_hex (cerr (InstrumentImage img g).2) = true)
       ∧ (∀ xed trace, os_hex (cerr (InstrumentTrace xed trace g).2) = true)
       ∧ (∀ b gb t c, os_hex (cerr (ThreadStart b gb t c g).2) = true)
       ∧ report g = os_lines (cerr g) ++ ["Ignoring thread #" +:+ hex_string tid]).
Proof.
  intros Htid report.
  assert (Hreport : ∀ g, report g
            = os_lines (cerr g) ++ ["Ignoring thread #" +:+ show_unsigned (cerr g) tid]).
  { intros g. unfold report, ThreadStart.
    by destruct (Z.eqb_spec tid 0). }
  assert (Hhex : ∀ g, os_hex (cerr g) = true →
            report g = os_lines (cerr g) ++ ["Ignoring thread #" +:+ hex_string tid]).
  { intros g Hg. rewrite Hreport. unfold show_unsigned. by rewrite Hg. }
  split_and!.
  - intros knobO knobI knobR. rewrite Hreport. unfold show_unsigned, main.
    by destruct (negb _).
  - intros img g. apply Hhex.
    by destruct (InstrumentImage_globals img g) as (_ & _ & -> & _).
  - intros xed trace g Hsome. apply Hhex.
    destruct (InstrumentTrace_cerr xed trace g) as [_ ->].
    rewrite bool_decide_eq_false_2; [by rewrite orb_true_r|].
    intros Hnil. apply Hsome. apply Forall_forall. intros bbl Hb.
    unfold attributable. unfold unresolved_lines in Hnil.
    destruct (image_of_bbl (_images g) bbl) as [o|] eqn:E; [by exists o|].
    exfalso.
    assert (Hin : unresolved_bbl_line bbl ∈
              flat_map (λ bbl, match image_of_bbl (_images g) bbl with
                               | None => [unresolved_bbl_line bbl]
                               | Some _ => []
                               end) trace).
    { apply list_elem_of_In, in_flat_map. exists bbl. split; [by apply list_elem_of_In|].
      rewrite E. by left. }
    rewrite Hnil in Hin. by apply elem_of_nil in Hin.
  - intros g Hg. split_and!.
    + intros img. by destruct (InstrumentImage_globals img g) as (_ & _ & -> & _).
    + intros xed trace. destruct (InstrumentTrace_cerr xed trace g) as [_ ->].
      by rewrite Hg.
    + intros b gb t c. unfold ThreadStart. by destruct (t =? 0).
    + by apply Hhex.
Qed.

Lemma X8_witness :
  os_lines (cerr (ThreadStart 100 garbage4 26 ctxt_zero (main "out" "a.exe" 0x1234)).2)
  = ["Using fixed RDRAND output 4660"; "Ignoring thread #26"]
  ∧ os_lines (cerr (ThreadStart 100 garbage4 26 ctxt_zero
                      (InstrumentImage img_b (main "out" "a.exe" 0x1234)).2).2)
    = ["Using fixed RDRAND output 4660";
       "Image 'C:\bin\b.dll' loaded at 4000 ... 4fff";
       "    malloc() instrumented."; "Ignoring thread #1a"].
Proof.
  assert (H26 : 26 ≠ 0) by done.
  destruct (X8_thread_number_base 100 garbage4 26 ctxt_zero H26) as (Hmain & Himg & _).
  split.
  - exact (Hmain "out" "a.exe" 0x1234).
  - exact (Himg img_b (main "out" "a.exe" 0x1234)).
Defined.

(** ** Registers: what the instrumentation changes *)

Section RegisterFacts.

Variable cpuid : Z → Z → Z * Z * Z * Z → Z * Z * Z * Z.

Ltac destruct_vals H :=
  repeat match type of H with
         | context [match ?x with _ => _ end] => is_var x; destruct x; try discriminate H
         end.

(** A routine that is handed no register returns the context it got. *)
Lemma analysis_frame f vals ctxt g r ctxt' g' :
  writes_registers f = false →
  analysis cpuid f vals ctxt g = Some (r, ctxt', g') → ctxt' = ctxt.
Proof.
  intros Hf H.
  destruct f; try discriminate Hf; simpl in H; destruct_vals H;
    try (by injection H as _ <- _).
  all: match type of H with
       | context [mbind _ ?x] => destruct x as [[? ?]|]; [|done]
       end; simpl in H; by injection H as _ <- _.
Qed.

Lemma invoke_frame ip ex c ctxt g r ctxt' g' :
  pointer_only c = true →
  invoke cpuid ip ex (call_fun c) (call_args c) ctxt g = Some (r, ctxt', g') →
  ∀ reg, reg ≠ _nextBufferEntryReg → ctxt' reg = ctxt reg.
Proof.
  unfold pointer_only, invoke. intros [Hf Hr]%andb_true_iff.
  apply negb_true_iff in Hf.
  destruct (analysis cpuid _ _ ctxt g) as [[[r0 c0] g0]|] eqn:E; [|done]. simpl.
  apply analysis_frame in E; [|done]. subst c0.
  destruct (return_reg (call_args c)) as [rr|].
  - apply bool_decide_eq_true_1 in Hr. subst rr. intros [= <- <- <-] reg Hreg.
    by apply PIN_SetContextReg_other_tool.
  - by intros [= <- <- <-].
Qed.

Lemma run_calls_frame ip ex at_ cs guard ctxt g ctxt' g' :
  Forall (λ c, pointer_only c = true) cs →
  run_calls cpuid ip ex at_ cs guard ctxt g = Some (ctxt', g') →
  ∀ reg, reg ≠ _nextBufferEntryReg → ctxt' reg = ctxt reg.
Proof.
  intros Hcs. revert guard ctxt g.
  induction Hcs as [|c cs Hc _ IH]; intros guard ctxt g; simpl.
  - by intros [= <- <-].
  - destruct (decide (call_ipoint c = at_)); [|by apply IH].
    assert (Hstep : ∀ gd,
      ('(r, ctxt1, g1) ← invoke cpuid ip ex (call_fun c) (call_args c) ctxt g;
       run_calls cpuid ip ex at_ cs (gd r) ctxt1 g1) = Some (ctxt', g') →
      ∀ reg, reg ≠ _nextBufferEntryReg → ctxt' reg = ctxt reg).
    { intros gd H.
      destruct (invoke cpuid ip ex _ _ ctxt g) as [[[r c1] g1]|] eqn:E; [|done].
      simpl in H. intros reg Hreg.
      rewrite (IH _ _ _ H reg Hreg). by eapply invoke_frame. }
    destruct c as [ip' f args|ip' f args|ip' f args|ip' f args]; simpl in *.
    + intros H. by apply (Hstep (λ _, guard)).
    + intros H. by apply (Hstep (λ r, r)).
    + destruct (guard =? 0); [by apply IH|].
      intros H. by apply (Hstep (λ _, guard)).
    + intros H. by apply (Hstep (λ _, guard)).
Qed.

End RegisterFacts.

Lemma InstrumentIns_pointer_only xed u i ins :
  filtered_1_3 xed ins = true ∨ filtered_4_5 xed u ins = false →
  Forall (λ c, pointer_only c = true) (InstrumentIns xed u i ins).1.
Proof.
  intros [H13 | H45].
  - by rewrite InstrumentIns_filtered.
  - destruct (filtered_1_3 xed ins) eqn:H13; [by rewrite InstrumentIns_filtered|].
    rewrite InstrumentIns_unfiltered by done.
    destruct (INS_IsCall ins); [by repeat constructor|].
    destruct (INS_IsBranch ins); [by repeat constructor|].
    assert (Hret : Forall (λ c, pointer_only c = true)
                     (if INS_IsRet ins then ret_calls else [])).
    { destruct (INS_IsRet ins); by repeat constructor. }
    destruct i; cbn [negb fst]; [|done].
    apply Forall_app_2; [done|]. unfold memory_stage.
    repeat apply Forall_app_2; destruct (_ && _); by repeat constructor.
Qed.

Lemma InstrumentImage_pointer_only img g name c :
  (name, c) ∈ (InstrumentImage img g).1 →
  pointer_only c = true ∧ ∃ ip f args, c = RTN_InsertCall ip f args.
Proof.
  unfold InstrumentImage. cbn [fst].
  rewrite !hook_routine_In. cbn [fst]. rewrite elem_of_nil.
  assert (Hlist : ∀ l : list PinCall,
            Forall (λ c, pointer_only c = true ∧ ∃ ip f args, c = RTN_InsertCall ip f args) l →
            c ∈ l → pointer_only c = true ∧ ∃ ip f args, c = RTN_InsertCall ip f args).
  { intros l Hl Hc. rewrite Forall_forall in Hl. by apply Hl. }
  intros [[[[[[] | H] | H] | H] | H] | H]; destruct H as (_ & _ & Hc);
    revert Hc; apply Hlist; repeat constructor; by eexists _, _, _.
Qed.

(** X10: a [CPUID] that passes steps 1-3 is rewritten on every thread and
    in every image: the four output registers end up holding the low 32
    bits of what [ChangeCpuId] makes of the hardware's outputs, given the
    [EAX] and [ECX] the instruction was entered with; these two inputs are
    parked in the two tool registers claimed for them.  Nothing is traced,
    the write pointer stays where it was, and a register that is no view
    of [RAX], [RBX], [RCX] or [RDX] holds what the instruction left in
    it. *)
Theorem X10_cpuid_rewrite xed cpuid u i ins ex ctxt g :
  filtered_1_3 xed ins = false → INS_Opcode ins = XED_ICLASS_CPUID xed →
  ex_taken ex = false →
  let seen :=
    PIN_SetContextReg (PIN_SetContextReg ctxt _cpuIdEaxInputReg (ctxt REG_EAX))
      _cpuIdEcxInputReg (ctxt REG_ECX) in
  let hw := ex_effect ex seen in
  InstrumentIns xed u i ins = (cpuid_calls, continue_cpuid)
  ∧ ∃ ctxt',
      exec_ins cpuid ins (InstrumentIns xed u i ins).1 ex ctxt g = Some (ctxt', g)
      ∧ (let '(a, b, c, d) :=
           cpuid (ctxt REG_EAX) (ctxt REG_ECX)
             (hw REG_EAX, hw REG_EBX, hw REG_ECX, hw REG_EDX) in
         (ctxt' REG_EAX, ctxt' REG_EBX, ctxt' REG_ECX, ctxt' REG_EDX)
         = (a mod 2 ^ 32, b mod 2 ^ 32, c mod 2 ^ 32, d mod 2 ^ 32))
      ∧ ctxt' _cpuIdEaxInputReg = ctxt REG_EAX
      ∧ ctxt' _cpuIdEcxInputReg = ctxt REG_ECX
      ∧ ctxt' _nextBufferEntryReg = ctxt _nextBufferEntryReg
      ∧ ctxt' _entryBufferEndReg = ctxt _entryBufferEndReg
      ∧ (∀ r, is_tool_register r = false →
              Forall (λ out, reg_overlap r out = false)
                [REG_EAX; REG_EBX; REG_ECX; REG_EDX] →
              ctxt' r = hw r).
Proof.
  intros H13 Hopc Htaken seen hw.
  assert (Hplan : InstrumentIns xed u i ins = (cpuid_calls, continue_cpuid)).
  { revert H13. unfold filtered_1_3, in_push_range, in_pop_range, is_lea, InstrumentIns.
    intros H13.
    apply orb_false_elim in H13 as [H13 Hlea].
    apply orb_false_elim in H13 as [H13 Hpop].
    apply orb_false_elim in H13 as [Hseg Hpush].
    rewrite Hseg, Hpush, Hpop, Hlea. by rewrite (proj2 (Z.eqb_eq _ _) Hopc). }
  split; [done|]. rewrite Hplan. cbn [fst].
  unfold exec_ins, cpuid_calls. rewrite Htaken.
  rewrite !run_calls_Call. unfold invoke at 1. simpl.
  rewrite (PIN_SetContextReg_other ctxt _cpuIdEaxInputReg _ REG_ECX) by done.
  fold seen. set (after := apply_effect ex seen).
  assert (Hin : after _cpuIdEaxInputReg = ctxt REG_EAX ∧ after _cpuIdEcxInputReg = ctxt REG_ECX).
  { unfold after, apply_effect, seen. simpl.
    rewrite PIN_SetContextReg_same by done.
    by rewrite PIN_SetContextReg_other, PIN_SetContextReg_same. }
  assert (Hout : ∀ r, is_tool_register r = false → after r = hw r).
  { intros r Hr. unfold after, apply_effect. by rewrite Hr. }
  assert (Hptr : after _nextBufferEntryReg = ctxt _nextBufferEntryReg
                 ∧ after _entryBufferEndReg = ctxt _entryBufferEndReg).
  { unfold after, apply_effect, seen. simpl.
    by rewrite !PIN_SetContextReg_other by done. }
  unfold invoke. simpl.
  destruct Hin as [HinA HinC]. rewrite HinA, HinC, !Hout by done.
  destruct (cpuid _ _ _) as [[[a b] c] d]. simpl.
  eexists. split; [reflexivity|]. split_and!.
  - rewrite !(PIN_SetContextReg_other _ _ _ REG_EAX) by done.
    rewrite !(PIN_SetContextReg_other _ _ _ REG_EBX) by done.
    rewrite !(PIN_SetContextReg_other _ _ _ REG_ECX) by done.
    by rewrite !PIN_SetContextReg_read.
  - by rewrite !PIN_SetContextReg_other by done.
  - by rewrite !PIN_SetContextReg_other by done.
  - rewrite !PIN_SetContextReg_other by done. by destruct Hptr.
  - rewrite !PIN_SetContextReg_other by done. by destruct Hptr.
  - intros r Ht Hr.
    apply Forall_cons in Hr as [Ha Hr]. apply Forall_cons in Hr as [Hb Hr].
    apply Forall_cons in Hr as [Hc Hr]. apply Forall_cons in Hr as [Hd _].
    rewrite !PIN_SetContextReg_other by done. by apply Hout.
Qed.

Lemma X10_witness :
  ∃ ctxt',
    exec_ins (λ eax ecx '(a, b, c, d), (eax + a, b, ecx + c + 2 ^ 32, 0))
      (sample_ins 0x3000 117) (InstrumentIns sample_xed true false (sample_ins 0x3000 117)).1
      (ex_rax99 5) (PIN_SetContextReg (PIN_SetContextReg ctxt_zero REG_EAX 7) REG_ECX 1)
      (loaded 0x1234) = Some (ctxt', loaded 0x1234)
    ∧ (ctxt' REG_EAX, ctxt' REG_EBX, ctxt' REG_ECX, ctxt' REG_EDX) = (106, 0, 2, 0).
Proof.
  destruct (X10_cpuid_rewrite sample_xed
              (λ eax ecx '(a, b, c, d), (eax + a, b, ecx + c + 2 ^ 32, 0))
              true false (sample_ins 0x3000 117) (ex_rax99 5)
              (PIN_SetContextReg (PIN_SetContextReg ctxt_zero REG_EAX 7) REG_ECX 1)
              (loaded 0x1234) eq_refl eq_refl eq_refl)
    as (_ & ctxt' & Hexec & Hout & _).
  exists ctxt'. split; [exact Hexec|]. exact Hout.
Defined.

(** ** The record of the traced thread *)

Lemma read_slots_insert_above h first n p e :
  first + Z.of_nat n ≤ p → read_slots (<[p := e]> h) first n = read_slots h first n.
Proof.
  revert first. induction n as [|n IH]; intros first Hp; [done|].
  cbn [read_slots]. rewrite lookup_insert_ne by lia. by rewrite IH by lia.
Qed.

Lemma read_slots_app h first n m :
  read_slots h first (n + m)
  = P ← read_slots h first n; Q ← read_slots h (first + Z.of_nat n) m; Some (P ++ Q).
Proof.
  revert first. induction n as [|n IH]; intros first.
  - cbn [read_slots Nat.add]. step_bind. rewrite Z.add_0_r.
    by destruct (read_slots h first m).
  - cbn [read_slots Nat.add]. destruct (h !! first) as [e|]; [|done]. step_bind.
    rewrite IH. replace (first + 1 + Z.of_nat n) with (first + Z.of_nat (S n)) by lia.
    destruct (read_slots h (first + 1) n) as [P|]; [|done]. step_bind.
    by destruct (read_slots h (first + Z.of_nat (S n)) m).
Qed.

Lemma traced_ext tw ctxt ctxt' g :
  ctxt' _nextBufferEntryReg = ctxt _nextBufferEntryReg →
  ctxt' _entryBufferEndReg = ctxt _entryBufferEndReg →
  traced tw ctxt g → traced tw ctxt' g.
Proof. intros Hn He [? ? ? ? ? ?]. constructor; try done; congruence. Qed.

Lemma buffered_ext tw B ctxt ctxt' g :
  ctxt' _nextBufferEntryReg = ctxt _nextBufferEntryReg →
  ctxt' _entryBufferEndReg = ctxt _entryBufferEndReg →
  buffered tw B ctxt g → buffered tw B ctxt' g.
Proof.
  intros Hn He [T C]. split; [by eapply traced_ext|].
  intros f Hf. rewrite Hn. by apply C.
Qed.

Lemma traced_pending tw ctxt g :
  traced tw ctxt g → is_Some (pending tw (ctxt _nextBufferEntryReg) g).
Proof.
  intros T. apply read_slots_is_Some. intros p Hp. apply (traced_alloc _ _ _ T).
  pose proof (traced_next _ _ _ T). lia.
Qed.

Lemma traced_buffered tw ctxt g : traced tw ctxt g → ∃ B, buffered tw B ctxt g.
Proof.
  intros T. destruct (traced_pending _ _ _ T) as [P HP].
  destruct (tw_file tw) as [f|] eqn:Hf.
  - exists (default [] (disk g !! f) ++ P). split; [done|].
    intros f' Hf'. rewrite Hf in Hf'. injection Hf' as <-. by exists P.
  - exists []. split; [done|]. intros f' Hf'. congruence.
Qed.

Lemma appended_nil tw next B : appended tw [] next B next B.
Proof.
  exists []. rewrite app_nil_r. split_and!; [done..|]. simpl. intros _. split; [done|lia].
Qed.

Lemma appended_app tw es1 es2 n0 B0 n1 B1 n2 B2 :
  appended tw es1 n0 B0 n1 B1 → appended tw es2 n1 B1 n2 B2 →
  appended tw (es1 ++ es2) n0 B0 n2 B2.
Proof.
  intros (t1 & -> & S1 & X1) (t2 & -> & S2 & X2).
  exists (t1 ++ t2). rewrite app_assoc. split_and!; [done|by apply sublist_app|].
  rewrite length_app, Nat2Z.inj_add. intros Hfit.
  destruct X1 as [-> ->]; [lia|]. destruct X2 as [-> ->]; [lia|].
  split; [done|lia].
Qed.

(** One entry stored through the write pointer and the flush helper run
    after it: the core of every traced event. *)
Lemma store_and_check tw B ctxt g e :
  buffered tw B ctxt g →
  ∃ g1 r g' B',
    InsertEntry (ctxt _nextBufferEntryReg) e g = Some (ctxt _nextBufferEntryReg + 1, g1)
    ∧ CheckBufferAndStore (ctxt _nextBufferEntryReg + 1) (End tw) 0 g1 = Some (r, g')
    ∧ (CheckBufferFull (ctxt _nextBufferEntryReg + 1) (End tw) = false →
       r = ctxt _nextBufferEntryReg + 1 ∧ g' = g1)
    ∧ stores g' = stores g ++ [(ctxt _nextBufferEntryReg, e)]
    ∧ (∀ ctxt', ctxt' _nextBufferEntryReg = r → ctxt' _entryBufferEndReg = End tw →
                buffered tw B' ctxt' g')
    ∧ appended tw [e] (ctxt _nextBufferEntryReg) B r B'.
Proof.
  intros [T C].
  pose proof (traced_next _ _ _ T) as Hnext.
  pose proof (traced_nonnull _ _ _ T) as Hnn.
  pose proof (traced_size _ _ _ T) as Hsz.
  pose proof (traced_end _ _ _ T) as Hend.
  destruct (traced_alloc _ _ _ T _ Hnext) as [old Hold].
  destruct (traced_pending _ _ _ T) as [P HP].
  set (next := ctxt _nextBufferEntryReg) in *.
  set (g1 := log_store (set_heap g (<[next:=e]> (heap g))) (next, e)).
  assert (HI : InsertEntry next e g = Some (next + 1, g1)).
  { unfold InsertEntry.
    destruct (Z.eqb_spec next NULL) as [?|_]; [unfold NULL in *; lia|].
    by rewrite Hold. }
  assert (T1 : ∀ c p, c _nextBufferEntryReg = p → c _entryBufferEndReg = End tw →
                      Begin tw ≤ p < End tw → traced tw c g1).
  { intros c p Hc He Hp.
    apply (traced_ext tw (PIN_SetContextReg ctxt _nextBufferEntryReg p)).
    - by rewrite PIN_SetContextReg_same.
    - rewrite PIN_SetContextReg_other by done. congruence.
    - by apply traced_store. }
  assert (HP1 : pending tw (next + 1) g1 = Some (P ++ [e])).
  { unfold pending in *. cbn [heap g1 log_store set_heap].
    assert (Z.to_nat (next + 1 - Begin tw) = (Z.to_nat (next - Begin tw) + 1)%nat) as ->
      by (clear -Hnext; lia).
    assert (Begin tw + Z.of_nat (Z.to_nat (next - Begin tw)) = next) as Hat
      by (clear -Hnext; lia).
    rewrite read_slots_app.
    rewrite (read_slots_insert_above _ (Begin tw) (Z.to_nat (next - Begin tw)))
      by (rewrite Hat; lia).
    rewrite HP. step_bind. cbn [read_slots]. rewrite Hat.
    by rewrite lookup_insert_eq. }
  assert (HC : CheckBufferAndStore (next + 1) (End tw) 0 g1
               = if CheckBufferFull (next + 1) (End tw)
                 then g2 ← WriteBufferToFile 0 (End tw) g1; Some (Begin tw, g2)
                 else Some (next + 1, g1)).
  { unfold CheckBufferAndStore. cbn [negb Z.eqb orb].
    destruct (Z.eqb_spec (next + 1) NULL) as [E1|_]; [unfold NULL in E1; lia|].
    destruct (Z.eqb_spec (End tw) NULL) as [E2|_]; [unfold NULL, End, Begin in *; lia|].
    cbn [orb]. destruct (CheckBufferFull (next + 1) (End tw)); [|done].
    unfold PIN_GetThreadData. cbn [tls g1 log_store set_heap].
    by rewrite (traced_writer _ _ _ T). }
  destruct (CheckBufferFull (next + 1) (End tw)) eqn:Efull.
  - (* the buffer is flushed *)
    assert (T0 : traced tw (PIN_SetContextReg ctxt _nextBufferEntryReg (Begin tw)) g1).
    { apply (T1 _ (Begin tw)); [by rewrite PIN_SetContextReg_same|
                                by rewrite PIN_SetContextReg_other|].
      unfold End, Begin in *. lia. }
    destruct (read_slots_is_Some (heap g1) (next + 1) (Z.to_nat (End tw - (next + 1))))
      as [junk Hjunk].
    { intros p Hp. apply (traced_alloc _ _ _ T0). lia. }
    assert (Hwhole : read_slots (heap g1) (Begin tw) (Z.to_nat (tw_size tw))
                     = Some ((P ++ [e]) ++ junk)).
    { assert (Z.to_nat (tw_size tw)
              = (Z.to_nat (next + 1 - Begin tw) + Z.to_nat (End tw - (next + 1)))%nat) as ->
        by (clear -Hnext; unfold End, Begin in *; lia).
      rewrite read_slots_app. unfold pending in HP1. rewrite HP1. step_bind.
      assert (Begin tw + Z.of_nat (Z.to_nat (next + 1 - Begin tw)) = next + 1) as ->
        by (clear -Hnext; lia).
      by rewrite Hjunk. }
    rewrite (WriteBufferToFile_flushed 0 (End tw) g1 tw ((P ++ [e]) ++ junk)) in HC;
      [|by apply (traced_writer _ _ _ T0)|unfold End, Begin in *; lia|].
    2:{ replace (End tw - Begin tw) with (tw_size tw) by (unfold End, Begin; lia). done. }
    cbn [mbind option_bind] in HC.
    exists g1, (Begin tw), (set_disk g1 (flushed_disk tw ((P ++ [e]) ++ junk) (disk g1))),
      (B ++ e :: junk).
    split_and!; [done|done|done|done| |].
    + intros c Hc He. split.
      * apply traced_set_disk. apply (T1 c (Begin tw)); [done..|].
        unfold End, Begin in *. lia.
      * intros f Hf. exists []. rewrite Hc. split.
        -- unfold pending. by rewrite Z.sub_diag.
        -- destruct (C f Hf) as (P' & HP' & <-). rewrite HP in HP'. injection HP' as <-.
           unfold flushed_disk. rewrite Hf. unfold append_file. cbn [disk set_disk].
           rewrite lookup_insert_eq. cbn [default g1 disk log_store set_heap].
           by rewrite app_nil_r, <- !app_assoc.
    + exists (e :: junk). split_and!; [done|by apply sublist_skip, sublist_nil_l|].
      unfold CheckBufferFull in Efull. cbn [length]. lia.
  - (* the entry stays in the buffer *)
    unfold CheckBufferFull, K in Efull.
    exists g1, (next + 1), g1, (B ++ [e]).
    split_and!; [done|done|done|done| |].
    + intros c Hc He. split.
      * apply (T1 c (next + 1)); [done..|lia].
      * intros f Hf. exists (P ++ [e]). rewrite Hc. split; [done|].
        destruct (C f Hf) as (P' & HP' & <-). rewrite HP in HP'. injection HP' as <-.
        cbn [g1 disk log_store set_heap]. by rewrite app_assoc.
    + exists [e]. split_and!; [done..|]. cbn [length]. intros _. split; [done|lia].
Qed.

Lemma apply_effect_tool ex ctxt r :
  is_tool_register r = true → apply_effect ex ctxt r = ctxt r.
Proof. intros H. unfold apply_effect. by rewrite H. Qed.

Lemma buffered_apply_effect tw B ex ctxt g :
  buffered tw B ctxt g → buffered tw B (apply_effect ex ctxt) g.
Proof. by apply buffered_ext. Qed.

Section BufferFacts.

Variable cpuid : Z → Z → Z * Z * Z * Z → Z * Z * Z * Z.

Lemma run_calls_skip ip ex at_ cs guard ctxt g :
  Forall (λ c, call_ipoint c ≠ at_) cs →
  run_calls cpuid ip ex at_ cs guard ctxt g = Some (ctxt, g).
Proof.
  intros H. rewrite <- (app_nil_r cs). by rewrite run_calls_other_point.
Qed.

(** One traced event of the planner, with what it does to the record. *)
Lemma run_guarded_store_buffered ip ex at_ insert args e rest guard tw B ctxt g :
  buffered tw B ctxt g → ex_tid ex = 0 →
  return_reg args = Some _nextBufferEntryReg →
  (∀ g0, analysis cpuid insert (eval_iargs ip ex ctxt args) ctxt g0 =
     '(r, g1) ← InsertEntry (ctxt _nextBufferEntryReg) e g0; Some (r, ctxt, g1)) →
  ∃ guard' ctxt' g' B',
    run_calls cpuid ip ex at_ (guarded_store at_ insert args ++ rest) guard ctxt g
    = run_calls cpuid ip ex at_ rest guard' ctxt' g'
    ∧ buffered tw B' ctxt' g'
    ∧ stores g' = stores g ++ [(ctxt _nextBufferEntryReg, e)]
    ∧ (∀ r, r ≠ _nextBufferEntryReg → ctxt' r = ctxt r)
    ∧ appended tw [e] (ctxt _nextBufferEntryReg) B (ctxt' _nextBufferEntryReg) B'.
Proof.
  intros Bf Htid Hret Hins.
  pose proof (buffered_traced _ _ _ _ Bf) as T.
  pose proof (traced_next _ _ _ T) as Hnext.
  pose proof (traced_nonnull _ _ _ T) as Hnn.
  pose proof (traced_end _ _ _ T) as Hend.
  destruct (store_and_check tw B ctxt g e Bf)
    as (g1 & r & g' & B' & HI & HC & Hnf & Hst & Hbuf & Happ).
  change (guarded_store at_ insert args ++ rest) with
    (INS_InsertIfCall at_ fp_CheckNextTraceEntryPointerValid
       [IARG_REG_VALUE _nextBufferEntryReg]
     :: INS_InsertThenCall at_ insert args
     :: INS_InsertIfCall at_ fp_TraceWriter_CheckBufferFull
          [IARG_REG_VALUE _nextBufferEntryReg; IARG_REG_VALUE _entryBufferEndReg]
     :: INS_InsertThenCall at_ fp_CheckBufferAndStore
          [IARG_REG_VALUE _nextBufferEntryReg; IARG_REG_VALUE _entryBufferEndReg;
           IARG_THREAD_ID; IARG_RETURN_REGS _nextBufferEntryReg]
     :: rest).
  rewrite run_calls_If, invoke_CheckNext. step_bind.
  rewrite run_calls_Then_run by lia.
  unfold invoke at 1. rewrite Hins, HI. step_bind. rewrite Hret. step_bind.
  set (next := ctxt _nextBufferEntryReg) in *.
  set (ctxt1 := PIN_SetContextReg ctxt _nextBufferEntryReg (next + 1)).
  assert (Hn1 : ctxt1 _nextBufferEntryReg = next + 1)
    by (by apply PIN_SetContextReg_same).
  assert (He1 : ctxt1 _entryBufferEndReg = End tw).
  { unfold ctxt1. by rewrite PIN_SetContextReg_other. }
  assert (Ho1 : ∀ r, r ≠ _nextBufferEntryReg → ctxt1 r = ctxt r).
  { intros r0 Hr. unfold ctxt1. by rewrite PIN_SetContextReg_other_tool. }
  rewrite run_calls_If, invoke_CheckBufferFull. step_bind. rewrite Hn1, He1.
  destruct (CheckBufferFull (next + 1) (End tw)) eqn:Efull; unfold Z_of_bool.
  - rewrite run_calls_Then_run by done.
    rewrite invoke_CheckBufferAndStore, Hn1, He1, Htid, HC. step_bind.
    eexists _, _, g', B'. split; [reflexivity|]. split_and!.
    + apply Hbuf; [by rewrite PIN_SetContextReg_same|].
      by rewrite PIN_SetContextReg_other.
    + done.
    + intros r0 Hr. rewrite PIN_SetContextReg_other_tool by done. by apply Ho1.
    + by rewrite PIN_SetContextReg_same.
  - rewrite run_calls_Then_skip. destruct (Hnf eq_refl) as [-> ->].
    eexists _, ctxt1, g1, B'. split; [reflexivity|]. split_and!; [|done..|].
    + by apply Hbuf.
    + by rewrite Hn1.
Qed.

(** The store of a routine hook: no null check, and the flush helper is
    called outright. *)
Lemma run_hook_store_buffered ip ex at_ insert value e rest guard tw B ctxt g :
  buffered tw B ctxt g → ex_tid ex = 0 →
  return_reg [IARG_REG_VALUE _nextBufferEntryReg; value;
              IARG_RETURN_REGS _nextBufferEntryReg] = Some _nextBufferEntryReg →
  (∀ g0, analysis cpuid insert
           (eval_iargs ip ex ctxt [IARG_REG_VALUE _nextBufferEntryReg; value;
                                   IARG_RETURN_REGS _nextBufferEntryReg]) ctxt g0 =
     '(r, g1) ← InsertEntry (ctxt _nextBufferEntryReg) e g0; Some (r, ctxt, g1)) →
  ∃ ctxt' g' B',
    run_calls cpuid ip ex at_ (hook_store at_ insert value ++ rest) guard ctxt g
    = run_calls cpuid ip ex at_ rest guard ctxt' g'
    ∧ buffered tw B' ctxt' g'
    ∧ stores g' = stores g ++ [(ctxt _nextBufferEntryReg, e)]
    ∧ (∀ r, r ≠ _nextBufferEntryReg → ctxt' r = ctxt r)
    ∧ appended tw [e] (ctxt _nextBufferEntryReg) B (ctxt' _nextBufferEntryReg) B'.
Proof.
  intros Bf Htid Hret Hins.
  pose proof (buffered_traced _ _ _ _ Bf) as T.
  pose proof (traced_end _ _ _ T) as Hend.
  destruct (store_and_check tw B ctxt g e Bf)
    as (g1 & r & g' & B' & HI & HC & Hnf & Hst & Hbuf & Happ).
  change (hook_store at_ insert value ++ rest) with
    (RTN_InsertCall at_ insert
       [IARG_REG_VALUE _nextBufferEntryReg; value; IARG_RETURN_REGS _nextBufferEntryReg]
     :: RTN_InsertCall at_ fp_CheckBufferAndStore
          [IARG_REG_VALUE _nextBufferEntryReg; IARG_REG_VALUE _entryBufferEndReg;
           IARG_THREAD_ID; IARG_RETURN_REGS _nextBufferEntryReg]
     :: rest).
  rewrite run_calls_Rtn. unfold invoke at 1. rewrite Hins, HI. step_bind.
  rewrite Hret. step_bind.
  rewrite run_calls_Rtn, invoke_CheckBufferAndStore.
  rewrite PIN_SetContextReg_same, PIN_SetContextReg_other by done.
  rewrite Hend, Htid, HC. step_bind.
  eexists _, g', B'. split; [reflexivity|]. split_and!.
  - apply Hbuf; [by rewrite PIN_SetContextReg_same|].
    by rewrite !PIN_SetContextReg_other.
  - done.
  - intros r0 Hr. by rewrite !PIN_SetContextReg_other_tool.
  - by rewrite PIN_SetContextReg_same.
Qed.

Lemma run_optional_store_buffered (b : bool) ip ex at_ insert args e rest guard tw B ctxt g :
  buffered tw B ctxt g → ex_tid ex = 0 →
  return_reg args = Some _nextBufferEntryReg →
  (∀ c g0, analysis cpuid insert (eval_iargs ip ex c args) c g0 =
     '(r, g1) ← InsertEntry (c _nextBufferEntryReg) e g0; Some (r, c, g1)) →
  ∃ guard' ctxt' g' new B',
    run_calls cpuid ip ex at_
      ((if b then guarded_store at_ insert args else []) ++ rest) guard ctxt g
    = run_calls cpuid ip ex at_ rest guard' ctxt' g'
    ∧ buffered tw B' ctxt' g'
    ∧ stores g' = stores g ++ new
    ∧ new.*2 = (if b then [e] else [])
    ∧ Forall (λ se, Begin tw ≤ se.1 < End tw) new
    ∧ (∀ r, r ≠ _nextBufferEntryReg → ctxt' r = ctxt r)
    ∧ appended tw new.*2 (ctxt _nextBufferEntryReg) B (ctxt' _nextBufferEntryReg) B'.
Proof.
  intros Bf Htid Hret Hins. destruct b.
  - destruct (run_guarded_store_buffered ip ex at_ insert args e rest guard tw B ctxt g)
      as (guard' & ctxt' & g' & B' & Hrun & Bf' & Hst & Hoth & Happ); try done.
    exists guard', ctxt', g', [(ctxt _nextBufferEntryReg, e)], B'.
    split_and!; try done. constructor; [|done].
    exact (traced_next _ _ _ (buffered_traced _ _ _ _ Bf)).
  - exists guard, ctxt, g, [], B. rewrite app_nil_r.
    split_and!; try done. apply appended_nil.
Qed.

Lemma run_memory_stage_buffered ins ex rest guard tw B ctxt g :
  buffered tw B ctxt g → ex_tid ex = 0 →
  ∃ guard' ctxt' g' new B',
    run_calls cpuid (INS_Address ins) ex IPOINT_BEFORE
      (memory_stage ins ++ rest) guard ctxt g
    = run_calls cpuid (INS_Address ins) ex IPOINT_BEFORE rest guard' ctxt' g'
    ∧ buffered tw B' ctxt' g'
    ∧ stores g' = stores g ++ new
    ∧ new.*2 = memory_entries ins ex
    ∧ Forall (λ se, Begin tw ≤ se.1 < End tw) new
    ∧ (∀ r, r ≠ _nextBufferEntryReg → ctxt' r = ctxt r)
    ∧ appended tw new.*2 (ctxt _nextBufferEntryReg) B (ctxt' _nextBufferEntryReg) B'.
Proof.
  intros Bf Htid. unfold memory_stage, memory_entries.
  unfold memread_calls, memread2_calls, memwrite_calls, memory_calls.
  rewrite <- !app_assoc.
  destruct (run_optional_store_buffered (INS_IsMemoryRead ins && INS_IsStandardMemop ins)
              (INS_Address ins) ex IPOINT_BEFORE fp_TraceWriter_InsertMemoryReadEntry
              [IARG_REG_VALUE _nextBufferEntryReg; IARG_INST_PTR; IARG_MEMORYREAD_EA;
               IARG_RETURN_REGS _nextBufferEntryReg]
              (MemoryRead (INS_Address ins) (ex_memoryread_ea ex))
              ((if INS_HasMemoryRead2 ins && INS_IsStandardMemop ins
                then guarded_store IPOINT_BEFORE fp_TraceWriter_InsertMemoryReadEntry
                       [IARG_REG_VALUE _nextBufferEntryReg; IARG_INST_PTR;
                        IARG_MEMORYREAD2_EA; IARG_RETURN_REGS _nextBufferEntryReg]
                else [])
               ++ (if INS_IsMemoryWrite ins && INS_IsStandardMemop ins
                   then guarded_store IPOINT_BEFORE fp_TraceWriter_InsertMemoryWriteEntry
                          [IARG_REG_VALUE _nextBufferEntryReg; IARG_INST_PTR;
                           IARG_MEMORYWRITE_EA; IARG_RETURN_REGS _nextBufferEntryReg]
                   else []) ++ rest)
              guard tw B ctxt g Bf Htid eq_refl)
    as (gd1 & c1 & g1 & n1 & B1 & -> & Bf1 & S1 & E1 & F1 & O1 & A1); [done|].
  destruct (run_optional_store_buffered (INS_HasMemoryRead2 ins && INS_IsStandardMemop ins)
              (INS_Address ins) ex IPOINT_BEFORE fp_TraceWriter_InsertMemoryReadEntry
              [IARG_REG_VALUE _nextBufferEntryReg; IARG_INST_PTR; IARG_MEMORYREAD2_EA;
               IARG_RETURN_REGS _nextBufferEntryReg]
              (MemoryRead (INS_Address ins) (ex_memoryread2_ea ex))
              ((if INS_IsMemoryWrite ins && INS_IsStandardMemop ins
                then guarded_store IPOINT_BEFORE fp_TraceWriter_InsertMemoryWriteEntry
                       [IARG_REG_VALUE _nextBufferEntryReg; IARG_INST_PTR;
                        IARG_MEMORYWRITE_EA; IARG_RETURN_REGS _nextBufferEntryReg]
                else []) ++ rest)
              gd1 tw B1 c1 g1 Bf1 Htid eq_refl)
    as (gd2 & c2 & g2 & n2 & B2 & -> & Bf2 & S2 & E2 & F2 & O2 & A2); [done|].
  destruct (run_optional_store_buffered (INS_IsMemoryWrite ins && INS_IsStandardMemop ins)
              (INS_Address ins) ex IPOINT_BEFORE fp_TraceWriter_InsertMemoryWriteEntry
              [IARG_REG_VALUE _nextBufferEntryReg; IARG_INST_PTR; IARG_MEMORYWRITE_EA;
               IARG_RETURN_REGS _nextBufferEntryReg]
              (MemoryWrite (INS_Address ins) (ex_memorywrite_ea ex))
              rest gd2 tw B2 c2 g2 Bf2 Htid eq_refl)
    as (gd3 & c3 & g3 & n3 & B3 & -> & Bf3 & S3 & E3 & F3 & O3 & A3); [done|].
  exists gd3, c3, g3, (n1 ++ n2 ++ n3), B3. split_and!; [done..| | | | |].
  - by rewrite S3, S2, S1, <- !app_assoc.
  - by rewrite !fmap_app, E1, E2, E3.
  - by repeat apply Forall_app_2.
  - intros r Hr. by rewrite O3, O2, O1.
  - rewrite !fmap_app. eapply appended_app; [exact A1|].
    eapply appended_app; [exact A2|exact A3].
Qed.

End BufferFacts.

Section InstructionFacts.

Variable cpuid : Z → Z → Z * Z * Z * Z → Z * Z * Z * Z.
Variable xed : xed_iclass_enum.

Lemma cpuid_plan u i ins :
  filtered_1_3 xed ins = false → INS_Opcode ins = XED_ICLASS_CPUID xed →
  InstrumentIns xed u i ins = (cpuid_calls, continue_cpuid).
Proof.
  unfold filtered_1_3, in_push_range, in_pop_range, is_lea, InstrumentIns.
  intros H13 Hopc.
  apply orb_false_elim in H13 as [H13 Hlea].
  apply orb_false_elim in H13 as [H13 Hpop].
  apply orb_false_elim in H13 as [Hseg Hpush].
  rewrite Hseg, Hpush, Hpop, Hlea. by rewrite (proj2 (Z.eqb_eq _ _) Hopc).
Qed.

Lemma rdrand_plan i ins :
  filtered_1_3 xed ins = false → INS_Opcode ins ≠ XED_ICLASS_CPUID xed →
  INS_Opcode ins = XED_ICLASS_RDRAND xed →
  InstrumentIns xed true i ins = (rdrand_calls ins, continue_rdrand).
Proof.
  unfold filtered_1_3, in_push_range, in_pop_range, is_lea, InstrumentIns.
  intros H13 Hcpuid Hopc.
  apply orb_false_elim in H13 as [H13 Hlea].
  apply orb_false_elim in H13 as [H13 Hpop].
  apply orb_false_elim in H13 as [Hseg Hpush].
  rewrite Hseg, Hpush, Hpop, Hlea.
  rewrite (proj2 (Z.eqb_neq _ _) Hcpuid). by rewrite (proj2 (Z.eqb_eq _ _) Hopc).
Qed.

(** The two register rewrites run on every thread and leave the globals
    and the two buffer registers alone. *)
Lemma exec_cpuid ins ex ctxt g :
  ∃ ctxt', exec_ins cpuid ins cpuid_calls ex ctxt g = Some (ctxt', g)
           ∧ ctxt' _nextBufferEntryReg = ctxt _nextBufferEntryReg
           ∧ ctxt' _entryBufferEndReg = ctxt _entryBufferEndReg.
Proof.
  unfold exec_ins, cpuid_calls. rewrite !run_calls_Call.
  unfold invoke at 1. simpl.
  destruct (ex_taken ex); simpl.
  - eexists. split; [reflexivity|]. unfold apply_effect. simpl.
    by rewrite !PIN_SetContextReg_other.
  - unfold invoke. simpl. destruct (cpuid _ _ _) as [[[a b] c] d]. simpl.
    eexists. split; [reflexivity|].
    rewrite !PIN_SetContextReg_other by done. unfold apply_effect. simpl.
    by rewrite !PIN_SetContextReg_other.
Qed.

Lemma exec_rdrand ins ex ctxt g :
  is_tool_register (INS_RegW0 ins) = false →
  ∃ ctxt', exec_ins cpuid ins (rdrand_calls ins) ex ctxt g = Some (ctxt', g)
           ∧ ctxt' _nextBufferEntryReg = ctxt _nextBufferEntryReg
           ∧ ctxt' _entryBufferEndReg = ctxt _entryBufferEndReg.
Proof.
  intros Hreg. unfold exec_ins, rdrand_calls. cbn [run_calls call_ipoint].
  rewrite decide_False by done. step_bind.
  destruct (ex_taken ex).
  - rewrite decide_False by done. eexists. split; [reflexivity|]. done.
  - rewrite decide_True by done. unfold invoke. simpl.
    eexists. split; [reflexivity|]. unfold ChangeRandomNumber.
    by rewrite !PIN_SetContextReg_other by (by apply reg_overlap_not_tool).
Qed.

(** Every instrumented instruction on the traced thread. *)
Lemma exec_ins_buffered u i ins ex tw B ctxt g :
  buffered tw B ctxt g → ex_tid ex = 0 → is_tool_register (INS_RegW0 ins) = false →
  ∃ seen ctxt' g' new B',
    exec_ins cpuid ins (InstrumentIns xed u i ins).1 ex ctxt g = Some (ctxt', g')
    ∧ buffered tw B' ctxt' g'
    ∧ stores g' = stores g ++ new
    ∧ new.*2 = ins_entries xed u i ins ex seen
    ∧ Forall (λ se, Begin tw ≤ se.1 < End tw) new
    ∧ (∀ r, r ≠ _nextBufferEntryReg → seen r = ctxt r)
    ∧ appended tw new.*2 (ctxt _nextBufferEntryReg) B (ctxt' _nextBufferEntryReg) B'.
Proof.
  intros Bf Htid Hreg. unfold ins_entries.
  assert (Hsilent : ∀ plan ctxt',
            exec_ins cpuid ins plan ex ctxt g = Some (ctxt', g) →
            ctxt' _nextBufferEntryReg = ctxt _nextBufferEntryReg →
            ctxt' _entryBufferEndReg = ctxt _entryBufferEndReg →
            ∃ seen ctxt' g' new B',
              exec_ins cpuid ins plan ex ctxt g = Some (ctxt', g')
              ∧ buffered tw B' ctxt' g'
              ∧ stores g' = stores g ++ new
              ∧ new.*2 = []
              ∧ Forall (λ se, Begin tw ≤ se.1 < End tw) new
              ∧ (∀ r, r ≠ _nextBufferEntryReg → seen r = ctxt r)
              ∧ appended tw new.*2 (ctxt _nextBufferEntryReg) B
                  (ctxt' _nextBufferEntryReg) B').
  { intros plan ctxt' Hexec Hn He. exists ctxt, ctxt', g, [], B.
    split_and!; [done| |by rewrite app_nil_r|done|done|done|].
    - by apply (buffered_ext tw B ctxt).
    - rewrite Hn. apply appended_nil. }
  destruct (filtered_1_3 xed ins) eqn:H13.
  { rewrite InstrumentIns_filtered by done. cbn [orb].
    apply (Hsilent [] (apply_effect ex ctxt)); done. }
  destruct (filtered_4_5 xed u ins) eqn:H45.
  { cbn [orb]. unfold filtered_4_5 in H45.
    destruct (Z.eqb_spec (INS_Opcode ins) (XED_ICLASS_CPUID xed)) as [Hc|Hc].
    - rewrite cpuid_plan by done. cbn [fst].
      destruct (exec_cpuid ins ex ctxt g) as (ctxt' & Hexec & Hn & He).
      by apply (Hsilent _ ctxt').
    - cbn [orb] in H45. apply andb_true_iff in H45 as [Hr ->].
      apply Z.eqb_eq in Hr. rewrite rdrand_plan by done. cbn [fst].
      destruct (exec_rdrand ins ex ctxt g Hreg) as (ctxt' & Hexec & Hn & He).
      by apply (Hsilent _ ctxt'). }
  cbn [orb]. rewrite InstrumentIns_unfiltered by done.
  assert (Hbranch : ∀ (takenArg : IARG) (type : Z) taken,
            eval_iarg (INS_Address ins) ex ctxt takenArg = Some (AV_int (Z_of_bool taken)) →
            ∃ seen ctxt' g' new B',
              exec_ins cpuid ins
                (guarded_store IPOINT_BEFORE fp_TraceWriter_InsertBranchEntry
                   [IARG_REG_VALUE _nextBufferEntryReg; IARG_INST_PTR;
                    IARG_BRANCH_TARGET_ADDR; takenArg; IARG_UINT32 type;
                    IARG_RETURN_REGS _nextBufferEntryReg])
                ex ctxt g = Some (ctxt', g')
              ∧ buffered tw B' ctxt' g'
              ∧ stores g' = stores g ++ new
              ∧ new.*2 = [Branch (INS_Address ins) (ex_branch_target ex) taken
                            (negb (type =? 0))]
              ∧ Forall (λ se, Begin tw ≤ se.1 < End tw) new
              ∧ (∀ r, r ≠ _nextBufferEntryReg → seen r = ctxt r)
              ∧ appended tw new.*2 (ctxt _nextBufferEntryReg) B
                  (ctxt' _nextBufferEntryReg) B').
  { intros takenArg type taken Htaken. unfold exec_ins.
    destruct (run_guarded_store_buffered cpuid (INS_Address ins) ex IPOINT_BEFORE
                fp_TraceWriter_InsertBranchEntry
                [IARG_REG_VALUE _nextBufferEntryReg; IARG_INST_PTR; IARG_BRANCH_TARGET_ADDR;
                 takenArg; IARG_UINT32 type; IARG_RETURN_REGS _nextBufferEntryReg]
                (Branch (INS_Address ins) (ex_branch_target ex) taken (negb (type =? 0)))
                [] 0 tw B ctxt g Bf Htid)
      as (gd & c1 & g1 & B1 & Hrun & Bf1 & S1 & O1 & A1).
    { destruct takenArg; try done. }
    { intros g0. unfold eval_iargs. simpl. rewrite Htaken. simpl.
      by destruct taken. }
    rewrite app_nil_r in Hrun. rewrite Hrun. cbn [run_calls]. step_bind.
    rewrite run_calls_skip.
    2:{ apply guarded_store_other_point. by destruct (ex_taken ex). }
    exists ctxt, (apply_effect ex c1), g1,
      [(ctxt _nextBufferEntryReg,
        Branch (INS_Address ins) (ex_branch_target ex) taken (negb (type =? 0)))], B1.
    split_and!; [done| |done|done| |done|done].
    - by apply buffered_apply_effect.
    - constructor; [|done]. exact (traced_next _ _ _ (buffered_traced _ _ _ _ Bf)). }
  destruct (INS_IsCall ins).
  { cbn [fst]. by apply (Hbranch (IARG_BOOL 1) 1 true). }
  destruct (INS_IsBranch ins).
  { cbn [fst]. apply (Hbranch IARG_BRANCH_TAKEN 0 (ex_taken ex)). done. }
  (* a ret, or an instruction that is none of the above *)
  assert (Hplan : (if negb i
                   then (if INS_IsRet ins then ret_calls else [], continue_uninteresting)
                   else ((if INS_IsRet ins then ret_calls else []) ++ memory_stage ins,
                         end_of_body)).1
                  = (if INS_IsRet ins then ret_calls else [])
                    ++ (if i then memory_stage ins else [])).
  { destruct i; cbn [negb fst]; [done|by rewrite app_nil_r]. }
  cbv zeta. rewrite Hplan. clear Hplan. unfold exec_ins.
  rewrite run_calls_other_point.
  2:{ destruct (INS_IsRet ins); [by apply guarded_store_other_point|constructor]. }
  assert (∃ c1 g1 n1 B1,
    run_calls cpuid (INS_Address ins) ex IPOINT_BEFORE
      (if i then memory_stage ins else []) 0 ctxt g = Some (c1, g1)
    ∧ buffered tw B1 c1 g1 ∧ stores g1 = stores g ++ n1
    ∧ n1.*2 = (if i then memory_entries ins ex else [])
    ∧ Forall (λ se, Begin tw ≤ se.1 < End tw) n1
    ∧ (∀ r, r ≠ _nextBufferEntryReg → c1 r = ctxt r)
    ∧ appended tw n1.*2 (ctxt _nextBufferEntryReg) B (c1 _nextBufferEntryReg) B1)
    as (c1 & g1 & n1 & B1 & -> & Bf1 & S1 & E1 & F1 & O1 & A1).
  { destruct i.
    - destruct (run_memory_stage_buffered cpuid ins ex [] 0 tw B ctxt g Bf Htid)
        as (gd & c1 & g1 & n1 & B1 & Hrun & Bf1 & S1 & E1 & F1 & O1 & A1).
      rewrite app_nil_r in Hrun. exists c1, g1, n1, B1. by rewrite Hrun.
    - exists ctxt, g, [], B. rewrite app_nil_r. split_and!; try done.
      apply appended_nil. }
  step_bind.
  pose proof (buffered_apply_effect tw B1 ex c1 g1 Bf1) as Bf2.
  assert (Hmem_skip : ∀ at_, at_ ≠ IPOINT_BEFORE →
            Forall (λ c, call_ipoint c ≠ at_) (if i then memory_stage ins else [])).
  { intros at_ Hat. destruct i; [by apply memory_stage_other_point|constructor]. }
  destruct (INS_IsRet ins) eqn:Hret; destruct (ex_taken ex) eqn:Htaken; cbn [andb].
  - (* a ret that takes its edge *)
    destruct (run_guarded_store_buffered cpuid (INS_Address ins) ex IPOINT_TAKEN_BRANCH
                fp_TraceWriter_InsertRetBranchEntry
                [IARG_REG_VALUE _nextBufferEntryReg; IARG_INST_PTR; IARG_CONTEXT;
                 IARG_RETURN_REGS _nextBufferEntryReg]
                (Ret (INS_Address ins) (apply_effect ex c1 REG_INST_PTR))
                (if i then memory_stage ins else []) 0 tw B1 (apply_effect ex c1) g1
                Bf2 Htid eq_refl)
      as (gd & c3 & g3 & B3 & Hrun & Bf3 & S3 & O3 & A3); [done|].
    unfold ret_calls. rewrite Hrun. rewrite run_calls_skip by (by apply Hmem_skip).
    exists c1, c3, g3,
      (n1 ++ [(apply_effect ex c1 _nextBufferEntryReg,
               Ret (INS_Address ins) (apply_effect ex c1 REG_INST_PTR))]), B3.
    split_and!; [done|done| | | |done|].
    + by rewrite S3, S1, <- app_assoc.
    + by rewrite fmap_app, E1.
    + apply Forall_app_2; [done|]. constructor; [|done].
      exact (traced_next _ _ _ (buffered_traced _ _ _ _ Bf2)).
    + rewrite fmap_app. eapply appended_app; [exact A1|].
      rewrite (apply_effect_tool ex c1 _nextBufferEntryReg) in A3 by done. exact A3.
  - rewrite run_calls_other_point by (by apply guarded_store_other_point).
    rewrite run_calls_skip by (by apply Hmem_skip).
    exists c1, (apply_effect ex c1), g1, n1, B1. rewrite app_nil_r.
    by split_and!.
  - cbn [app]. rewrite run_calls_skip by (by apply Hmem_skip).
    exists c1, (apply_effect ex c1), g1, n1, B1. rewrite app_nil_r.
    by split_and!.
  - cbn [app]. rewrite run_calls_skip by (by apply Hmem_skip).
    exists c1, (apply_effect ex c1), g1, n1, B1. rewrite app_nil_r.
    by split_and!.
Qed.

(** A run of instrumented instructions on the traced thread. *)
Lemma exec_steps_buffered u steps tw B ctxt g :
  buffered tw B ctxt g →
  Forall (λ s, ex_tid s.2 = 0 ∧ is_tool_register (INS_RegW0 s.1.2) = false) steps →
  ∃ ctxt' g' new B',
    exec_steps cpuid xed u steps ctxt g = Some (ctxt', g')
    ∧ buffered tw B' ctxt' g'
    ∧ stores g' = stores g ++ new
    ∧ Forall (λ se, Begin tw ≤ se.1 < End tw) new
    ∧ appended tw new.*2 (ctxt _nextBufferEntryReg) B (ctxt' _nextBufferEntryReg) B'.
Proof.
  intros Bf Hsteps. revert B ctxt g Bf.
  induction Hsteps as [|[[i ins] ex] steps [Htid Hreg] _ IH]; intros B ctxt g Bf.
  - exists ctxt, g, [], B. rewrite app_nil_r. split_and!; try done. apply appended_nil.
  - cbn [exec_steps]. simpl in Htid, Hreg.
    destruct (exec_ins_buffered u i ins ex tw B ctxt g Bf Htid Hreg)
      as (seen & c1 & g1 & n1 & B1 & -> & Bf1 & S1 & _ & F1 & _ & A1).
    step_bind.
    destruct (IH B1 c1 g1 Bf1) as (c2 & g2 & n2 & B2 & -> & Bf2 & S2 & F2 & A2).
    exists c2, g2, (n1 ++ n2), B2. split_and!; [done..| | |].
    + by rewrite S2, S1, app_assoc.
    + by apply Forall_app_2.
    + rewrite fmap_app. by eapply appended_app.
Qed.

End InstructionFacts.

(** X9: apart from a [CPUID] and an [RDRAND] under the override, the
    instrumentation is invisible to the application.  On the traced thread
    as on a thread whose write pointer is null, the instrumented
    instruction runs to completion, it runs on the registers it would have
    seen without the tool, and afterwards every register except the write
    pointer holds what the instruction itself left there.  A routine hook
    that returns has changed no register but the write pointer either. *)
Theorem X9_application_registers_untouched xed cpuid u i ins ex tw ctxt g :
  filtered_1_3 xed ins = true ∨ filtered_4_5 xed u ins = false →
  is_tool_register (INS_RegW0 ins) = false →
  (traced tw ctxt g ∧ ex_tid ex = 0)
  ∨ (ctxt _nextBufferEntryReg = NULL ∧ ex_tid ex ≠ 0) →
  (∃ seen ctxt' g',
     exec_ins cpuid ins (InstrumentIns xed u i ins).1 ex ctxt g = Some (ctxt', g')
     ∧ (∀ reg, reg ≠ _nextBufferEntryReg → seen reg = ctxt reg)
     ∧ (∀ reg, reg ≠ _nextBufferEntryReg → ctxt' reg = apply_effect ex seen reg))
  ∧ (∀ img gi name entry exr at_ c0 gr c1 gr1,
       run_calls cpuid entry exr at_ (rtn_calls name (InstrumentImage img gi).1) 0 c0 gr
       = Some (c1, gr1) →
       ∀ reg, reg ≠ _nextBufferEntryReg → c1 reg = c0 reg).
Proof.
  intros Hf Hreg Hthread. split.
  - assert (Hdef : ∃ ctxt' g',
              exec_ins cpuid ins (InstrumentIns xed u i ins).1 ex ctxt g = Some (ctxt', g')).
    { destruct Hthread as [[T Htid] | [Hnull Htid]].
      - destruct (traced_buffered tw ctxt g T) as [B Bf].
        destruct (exec_ins_buffered cpuid xed u i ins ex tw B ctxt g Bf Htid Hreg)
          as (_ & ctxt' & g' & _ & _ & Hexec & _).
        by exists ctxt', g'.
      - destruct (exec_ins_null cpuid xed u i ins ex ctxt g Hnull Htid Hreg)
          as (ctxt' & Hexec & _).
        by exists ctxt', g. }
    destruct Hdef as (ctxt' & g' & Hexec).
    apply (InstrumentIns_pointer_only xed u i ins) in Hf.
    pose proof Hexec as Hrun. unfold exec_ins in Hrun.
    destruct (run_calls cpuid _ ex IPOINT_BEFORE _ 0 ctxt g) as [[c1 g1]|] eqn:E1; [|done].
    simpl in Hrun. exists c1, ctxt', g'. split_and!; [done| |].
    + by eapply run_calls_frame.
    + intros reg Hr. by eapply run_calls_frame.
  - intros img gi name entry exr at_ c0 gr c1 gr1 Hrun.
    eapply run_calls_frame; [|exact Hrun].
    apply Forall_forall. intros c Hc. unfold rtn_calls in Hc.
    apply list_elem_of_fmap in Hc as ([n c'] & -> & Hc).
    apply list_elem_of_filter in Hc as [_ Hc].
    by apply InstrumentImage_pointer_only in Hc as [? _].
Qed.

Lemma X9_witness :
  ∃ ctxt' g',
    exec_ins cpuid_default ins_load (InstrumentIns sample_xed true true ins_load).1
      (ex_rax99 0) (started 0x1234).1 (started 0x1234).2 = Some (ctxt', g')
    ∧ ctxt' REG_RAX = 99 ∧ ctxt' REG_EBX = 0 ∧ ctxt' _entryBufferEndReg = 104.
Proof.
  destruct (proj1 (X9_application_registers_untouched sample_xed cpuid_default true true
              ins_load (ex_rax99 0) sample_tw (started 0x1234).1 (started 0x1234).2
              (or_intror eq_refl) eq_refl
              (or_introl (conj (started_traced 0x1234) eq_refl))))
    as (seen & ctxt' & g' & Hexec & Hseen & Hafter).
  exists ctxt', g'. split; [exact Hexec|].
  rewrite !Hafter by done. unfold apply_effect, ex_rax99. simpl.
  rewrite PIN_SetContextReg_read, PIN_SetContextReg_other by done.
  by rewrite !Hseen by done.
Defined.

(** X11: on the traced thread every instrumented instruction runs to
    completion, whatever it is: each entry goes to a slot of the thread's
    own buffer, the write pointer is back inside the buffer afterwards, and
    the entries recorded are those of [ins_entries], in that order (memory
    operands first, the [Ret] entry last, since it is stored on the taken
    edge). *)
Theorem X11_instruction_on_traced_thread xed cpuid u i ins ex tw ctxt g :
  traced tw ctxt g → ex_tid ex = 0 → is_tool_register (INS_RegW0 ins) = false →
  ∃ seen ctxt' g' new,
    exec_ins cpuid ins (InstrumentIns xed u i ins).1 ex ctxt g = Some (ctxt', g')
    ∧ traced tw ctxt' g'
    ∧ stores g' = stores g ++ new
    ∧ new.*2 = ins_entries xed u i ins ex seen
    ∧ Forall (λ se, Begin tw ≤ se.1 < End tw) new
    ∧ (∀ r, r ≠ _nextBufferEntryReg → seen r = ctxt r).
Proof.
  intros T Htid Hreg. destruct (traced_buffered tw ctxt g T) as [B Bf].
  destruct (exec_ins_buffered cpuid xed u i ins ex tw B ctxt g Bf Htid Hreg)
    as (seen & ctxt' & g' & new & B' & Hexec & Bf' & Hst & Hnew & Hin & Hseen & _).
  exists seen, ctxt', g', new. split_and!; try done.
  exact (buffered_traced _ _ _ _ Bf').
Qed.

Lemma X11_witness :
  ∃ ctxt' g',
    exec_ins cpuid_default ins_ret (InstrumentIns sample_xed true true ins_ret).1
      (ex_jump 0) (started 0x1234).1 (started 0x1234).2 = Some (ctxt', g')
    ∧ (stores g').*2 = [MemoryRead 0x1009 0x7000; Ret 0x1009 0x4000].
Proof.
  destruct (X11_instruction_on_traced_thread sample_xed cpuid_default true true ins_ret
              (ex_jump 0) sample_tw (started 0x1234).1 (started 0x1234).2
              (started_traced 0x1234) eq_refl eq_refl)
    as (seen & ctxt' & g' & new & Hexec & _ & Hst & Hnew & _ & _).
  exists ctxt', g'. split; [exact Hexec|].
  rewrite Hst. change (stores (started 0x1234).2) with (@nil (Z * TraceEntry)).
  rewrite app_nil_l, Hnew. reflexivity.
Defined.

(** X12: between two events of the traced thread nothing that was
    recorded is lost.  While a trace file is open, its content followed by
    the entries pending in the buffer only grows at the end over a run of
    instrumented instructions, and the entries stored during the run are in
    the new part, in their order.  The new part is exactly these entries
    when they stay below the flush margin; otherwise a flush has written
    the buffer up to its end, stale slots included.  The trace writer is
    the one of the specification. *)
Theorem X12_recorded_entries_are_kept xed cpuid u steps tw f ctxt g :
  traced tw ctxt g → tw_file tw = Some f →
  Forall (λ s, ex_tid s.2 = 0 ∧ is_tool_register (INS_RegW0 s.1.2) = false) steps →
  ∃ ctxt' g' new P P' tail,
    exec_steps cpuid xed u steps ctxt g = Some (ctxt', g')
    ∧ traced tw ctxt' g'
    ∧ stores g' = stores g ++ new
    ∧ Forall (λ se, Begin tw ≤ se.1 < End tw) new
    ∧ pending tw (ctxt _nextBufferEntryReg) g = Some P
    ∧ pending tw (ctxt' _nextBufferEntryReg) g' = Some P'
    ∧ default [] (disk g' !! f) ++ P' = (default [] (disk g !! f) ++ P) ++ tail
    ∧ new.*2 `sublist_of` tail
    ∧ (ctxt _nextBufferEntryReg + Z.of_nat (length new) < End tw - K →
       tail = new.*2
       ∧ ctxt' _nextBufferEntryReg = ctxt _nextBufferEntryReg + Z.of_nat (length new)).
Proof.
  intros T Hf Hsteps. destruct (traced_buffered tw ctxt g T) as [B Bf].
  destruct (exec_steps_buffered cpuid xed u steps tw B ctxt g Bf Hsteps)
    as (ctxt' & g' & new & B' & Hexec & Bf' & Hst & Hin & (tail & -> & Hsub & Hfit)).
  destruct (buffered_content _ _ _ _ Bf f Hf) as (P & HP & HB).
  destruct (buffered_content _ _ _ _ Bf' f Hf) as (P' & HP' & HB').
  exists ctxt', g', new, P, P', tail. rewrite length_fmap in Hfit.
  split_and!; try done.
  - exact (buffered_traced _ _ _ _ Bf').
  - by rewrite HB', HB.
Qed.

(** ** Routine hooks at run time *)

Lemma rtn_calls_all img g :
  rtn_calls "PinNotifyTestcaseStart" (InstrumentImage img g).1
  = (if RTN_Valid img "PinNotifyTestcaseStart" then notifyStart_calls else [])
  ∧ rtn_calls "PinNotifyTestcaseEnd" (InstrumentImage img g).1
    = (if RTN_Valid img "PinNotifyTestcaseEnd" then notifyEnd_calls else [])
  ∧ rtn_calls "PinNotifyStackPointer" (InstrumentImage img g).1
    = (if RTN_Valid img "PinNotifyStackPointer" then notifyStackPointer_calls else [])
  ∧ rtn_calls "RtlAllocateHeap" (InstrumentImage img g).1
    = (if RTN_Valid img "RtlAllocateHeap" then malloc_calls else [])
  ∧ rtn_calls "RtlFreeHeap" (InstrumentImage img g).1
    = (if RTN_Valid img "RtlFreeHeap" then free_calls else []).
Proof.
  unfold InstrumentImage. cbn [fst]. rewrite !rtn_calls_hook_routine.
  change (rtn_calls _ ([], _).1) with (@nil PinCall).
  split_and!; repeat destruct (RTN_Valid _ _); reflexivity.
Qed.

Lemma hook_store_other_point ip at_ insert value :
  ip ≠ at_ → Forall (λ c, call_ipoint c ≠ at_) (hook_store ip insert value).
Proof. intros. by repeat constructor. Qed.

Section HookFacts.

Variable cpuid : Z → Z → Z * Z * Z * Z → Z * Z * Z * Z.

(** The testcase-start hook on the traced thread: whatever was pending
    goes to the file that was open, and the thread goes on with an empty
    buffer and the new file, which holds the start marker. *)
Lemma notifyStart_buffered entry ex tw ctxt g :
  traced tw ctxt g → ex_tid ex = 0 →
  let id := static_cast_int (ex_funcarg ex 0) in
  let file := trace_file_name (tw_prefix tw) id in
  ∃ ctxt' g',
    exec_rtn_entry cpuid entry notifyStart_calls ex ctxt g = Some (ctxt', g')
    ∧ buffered (set_writer_file tw (Some file) (Some id)) [TestcaseMarker true id]
        ctxt' g'
    ∧ ctxt' _nextBufferEntryReg = Begin tw
    ∧ stores g' = stores g.
Proof.
  intros T Htid id file.
  pose proof (traced_next _ _ _ T) as Hnext.
  pose proof (traced_size _ _ _ T) as Hsz.
  destruct (traced_pending _ _ _ T) as [P HP].
  unfold exec_rtn_entry, notifyStart_calls. rewrite run_calls_Rtn.
  unfold invoke. simpl.
  unfold TestcaseStart, TraceWriter_TestcaseStart, PIN_GetThreadData.
  rewrite Htid, (traced_writer _ _ _ T). simpl. fold id. fold file.
  assert (Hflush : ∃ d, (if ctxt _nextBufferEntryReg =? Begin tw then Some g
                         else WriteBufferToFile 0 (ctxt _nextBufferEntryReg) g)
                        = Some (set_disk g d)).
  { destruct (_ =? _).
    - exists (disk g). by destruct g.
    - rewrite (WriteBufferToFile_flushed 0 _ g tw P);
        [by eexists|apply (traced_writer _ _ _ T)|lia|done]. }
  destruct Hflush as [d ->]. simpl.
  eexists _, _. split; [reflexivity|].
  split_and!; [|by rewrite PIN_SetContextReg_same|done].
  split.
  - destruct T as [? ? ? ? ? ?]. constructor; simpl; try done.
    + by rewrite lookup_insert_eq.
    + rewrite PIN_SetContextReg_same by done. unfold End, Begin in *. simpl. lia.
  - simpl. intros f [= <-]. exists []. rewrite PIN_SetContextReg_same by done. split.
    + unfold pending, Begin. simpl. by rewrite Z.sub_diag.
    + by rewrite lookup_insert_eq.
Qed.

(** The testcase-end hook: the record, closed by the end marker, becomes
    the content of the file. *)
Lemma notifyEnd_buffered entry ex tw B f id ctxt g :
  buffered tw B ctxt g → ex_tid ex = 0 →
  tw_file tw = Some f → tw_testcase tw = Some id →
  ∃ ctxt' g',
    exec_rtn_entry cpuid entry notifyEnd_calls ex ctxt g = Some (ctxt', g')
    ∧ disk g' !! f = Some (B ++ [TestcaseMarker false id])
    ∧ traced (set_writer_file tw None None) ctxt' g'
    ∧ stores g' = stores g.
Proof.
  intros [T C] Htid Hf Hid.
  pose proof (traced_next _ _ _ T) as Hnext.
  pose proof (traced_size _ _ _ T) as Hsz.
  destruct (C f Hf) as (P & HP & HB).
  unfold exec_rtn_entry, notifyEnd_calls. rewrite run_calls_Rtn.
  unfold invoke. simpl.
  unfold TestcaseEnd, TraceWriter_TestcaseEnd, PIN_GetThreadData.
  rewrite Htid, (traced_writer _ _ _ T). simpl.
  rewrite (WriteBufferToFile_flushed 0 _ g tw P);
    [|apply (traced_writer _ _ _ T)|lia|done].
  simpl. rewrite Hf, Hid.
  eexists _, _. split; [reflexivity|]. split_and!; [| |done].
  - simpl. unfold flushed_disk. rewrite Hf. unfold append_file.
    rewrite !lookup_insert_eq. simpl. by rewrite HB.
  - destruct T as [? ? ? ? ? ?]. constructor; simpl; try done.
    + by rewrite lookup_insert_eq.
    + rewrite PIN_SetContextReg_same by done. unfold End, Begin in *. simpl. lia.
Qed.

End HookFacts.

(** X13: from [PinNotifyTestcaseStart] to [PinNotifyTestcaseEnd] on the
    traced thread.  The start hook opens [<prefix>_t<id>.trace], the
    instrumented instructions run, the end hook closes the file; the file
    then starts with the start marker of [id] and ends with its end
    marker, and between the two it holds every entry stored in between, in
    order, and exactly these entries when there are fewer of them than the
    buffer has slots below the flush margin.  The trace writer is the one
    of the specification. *)
Theorem X13_testcase_file xed cpuid u entryS exS steps entryE exE tw ctxt g :
  traced tw ctxt g → ex_tid exS = 0 → ex_tid exE = 0 →
  Forall (λ s, ex_tid s.2 = 0 ∧ is_tool_register (INS_RegW0 s.1.2) = false) steps →
  let id := static_cast_int (ex_funcarg exS 0) in
  let file := tw_prefix tw +:+ "_t" +:+ dec_string id +:+ ".trace" in
  ∃ c1 g1 c2 g2 c3 g3 new body,
    exec_rtn_entry cpuid entryS notifyStart_calls exS ctxt g = Some (c1, g1)
    ∧ exec_steps cpuid xed u steps c1 g1 = Some (c2, g2)
    ∧ exec_rtn_entry cpuid entryE notifyEnd_calls exE c2 g2 = Some (c3, g3)
    ∧ stores g3 = stores g ++ new
    ∧ disk g3 !! file
      = Some (TestcaseMarker true id :: body ++ [TestcaseMarker false id])
    ∧ new.*2 `sublist_of` body
    ∧ (Z.of_nat (length new) < tw_size tw - K → body = new.*2)
    ∧ traced (set_writer_file tw None None) c3 g3.
Proof.
  intros T HtidS HtidE Hsteps id file.
  destruct (notifyStart_buffered cpuid entryS exS tw ctxt g T HtidS)
    as (c1 & g1 & Hstart & Bf1 & Hn1 & S1).
  fold id in Hstart, Bf1. change (trace_file_name (tw_prefix tw) id) with file in Bf1.
  set (tw1 := set_writer_file tw (Some file) (Some id)) in *.
  destruct (exec_steps_buffered cpuid xed u steps tw1 _ c1 g1 Bf1 Hsteps)
    as (c2 & g2 & new & B2 & Hrun & Bf2 & S2 & _ & (tail & HB2 & Hsub & Hfit)).
  destruct (notifyEnd_buffered cpuid entryE exE tw1 B2 file id c2 g2 Bf2 HtidE
              eq_refl eq_refl)
    as (c3 & g3 & Hend & Hdisk & T3 & S3).
  exists c1, g1, c2, g2, c3, g3, new, tail.
  split_and!; [done|done|done| | |done| |done].
  - by rewrite S3, S2, S1.
  - by rewrite Hdisk, HB2.
  - intros Hlen. apply Hfit.
    rewrite Hn1, length_fmap. unfold End, Begin, tw1. simpl. lia.
Qed.

Lemma X13_witness :
  ('(c1, g1) ← exec_rtn_entry cpuid_default 0x1100 notifyStart_calls (ex_plain 0)
                 (started 0x1234).1 (started 0x1234).2;
   '(c2, g2) ← exec_steps cpuid_default sample_xed true
                 [(true, ins_load, ex_plain 0)] c1 g1;
   '(c3, g3) ← exec_rtn_entry cpuid_default 0x1200 notifyEnd_calls (ex_plain 0) c2 g2;
   Some (disk g3 !! "out_t7.trace"))
  = Some (Some [TestcaseMarker true 7; MemoryRead 0x1000 0x7000; TestcaseMarker false 7]).
Proof.
  assert (Hchain :
    ('(c1, g1) ← exec_rtn_entry cpuid_default 0x1100 notifyStart_calls (ex_plain 0)
                   (started 0x1234).1 (started 0x1234).2;
     '(c2, g2) ← exec_steps cpuid_default sample_xed true
                   [(true, ins_load, ex_plain 0)] c1 g1;
     '(c3, g3) ← exec_rtn_entry cpuid_default 0x1200 notifyEnd_calls (ex_plain 0) c2 g2;
     Some (stores g3))
    = Some [(100, MemoryRead 0x1000 0x7000)]) by (vm_compute; reflexivity).
  destruct (X13_testcase_file sample_xed cpuid_default true 0x1100 (ex_plain 0)
              [(true, ins_load, ex_plain 0)] 0x1200 (ex_plain 0)
              sample_tw (started 0x1234).1 (started 0x1234).2
              (started_traced 0x1234) eq_refl eq_refl)
    as (c1 & g1 & c2 & g2 & c3 & g3 & new & body
        & Hs & Hr & He & Hst & Hd & _ & Hexact & _).
  { by repeat constructor. }
  rewrite Hs in Hchain |- *. step_bind. cbn [mbind option_bind] in Hchain.
  rewrite Hr in Hchain |- *. step_bind. cbn [mbind option_bind] in Hchain.
  rewrite He in Hchain |- *. step_bind. cbn [mbind option_bind] in Hchain.
  injection Hchain as Hstores. rewrite Hst in Hstores.
  change (stores (started 0x1234).2) with (@nil (Z * TraceEntry)) in Hstores.
  rewrite app_nil_l in Hstores. subst new.
  f_equal. etransitivity; [exact Hd|]. rewrite Hexact by done. reflexivity.
Defined.

Lemma X12_witness :
  ∃ c1 g1 c2 g2 P',
    exec_rtn_entry cpuid_default 0x1100 notifyStart_calls (ex_plain 0)
      (started 0x1234).1 (started 0x1234).2 = Some (c1, g1)
    ∧ exec_steps cpuid_default sample_xed true
        [(true, ins_load, ex_plain 0); (true, ins_load, ex_plain 0)] c1 g1 = Some (c2, g2)
    ∧ pending (set_writer_file sample_tw (Some "out_t7.trace") (Some 7))
        (c2 _nextBufferEntryReg) g2 = Some P'
    ∧ [MemoryRead 0x1000 0x7000; MemoryRead 0x1000 0x7000]
      `sublist_of` default [] (disk g2 !! "out_t7.trace") ++ P'.
Proof.
  assert (Hchain :
    ('(c1, g1) ← exec_rtn_entry cpuid_default 0x1100 notifyStart_calls (ex_plain 0)
                   (started 0x1234).1 (started 0x1234).2;
     '(c2, g2) ← exec_steps cpuid_default sample_xed true
                   [(true, ins_load, ex_plain 0); (true, ins_load, ex_plain 0)] c1 g1;
     Some (stores g2))
    = Some [(100, MemoryRead 0x1000 0x7000); (101, MemoryRead 0x1000 0x7000)])
    by (vm_compute; reflexivity).
  destruct (notifyStart_buffered cpuid_default 0x1100 (ex_plain 0) sample_tw
              (started 0x1234).1 (started 0x1234).2 (started_traced 0x1234) eq_refl)
    as (c1 & g1 & Hs & Bf1 & _ & S1).
  destruct (X12_recorded_entries_are_kept sample_xed cpuid_default true
              [(true, ins_load, ex_plain 0); (true, ins_load, ex_plain 0)]
              (set_writer_file sample_tw (Some "out_t7.trace") (Some 7)) "out_t7.trace"
              c1 g1 (buffered_traced _ _ _ _ Bf1) eq_refl)
    as (c2 & g2 & new & P & P' & tail & Hr & _ & Hst & _ & HP & HP' & Hcontent & Hsub & _).
  { by repeat constructor. }
  destruct (buffered_content _ _ _ _ Bf1 "out_t7.trace" eq_refl) as (P0 & HP0 & HB0).
  change (pending (set_writer_file sample_tw (Some "out_t7.trace") (Some 7))
            (c1 _nextBufferEntryReg) g1 = Some P0) in HP0.
  rewrite HP in HP0. injection HP0 as <-.
  rewrite HB0 in Hcontent.
  rewrite Hs in Hchain. cbn [mbind option_bind] in Hchain.
  rewrite Hr in Hchain. cbn [mbind option_bind] in Hchain.
  injection Hchain as Hstores. rewrite Hst, S1 in Hstores.
  change (stores (started 0x1234).2) with (@nil (Z * TraceEntry)) in Hstores.
  rewrite app_nil_l in Hstores. subst new.
  exists c1, g1, c2, g2, P'. split_and!; [done..|].
  rewrite Hcontent. apply sublist_cons. exact Hsub.
Defined.

(** X14: the three recording hooks on the traced thread.  Entering
    [PinNotifyStackPointer] records its first two arguments, in this order;
    entering [RtlAllocateHeap] records its third argument as the size and
    returning from it records [RAX] as the address; entering [RtlFreeHeap]
    records its third argument.  Each hook runs to completion and leaves
    the write pointer inside the buffer. *)
Theorem X14_recording_hooks cpuid img g entry ex tw ctxt gr :
  traced tw ctxt gr → ex_tid ex = 0 →
  let hook name := rtn_calls name (InstrumentImage img g).1 in
  let records run (es : list TraceEntry) :=
    ∃ ctxt' gr' new,
      run = Some (ctxt', gr') ∧ traced tw ctxt' gr'
      ∧ stores gr' = stores gr ++ new ∧ new.*2 = es
      ∧ Forall (λ se, Begin tw ≤ se.1 < End tw) new in
  ("PinNotifyStackPointer" ∈ IMG_Rtns img →
     records (exec_rtn_entry cpuid entry (hook "PinNotifyStackPointer") ex ctxt gr)
       [StackPointer (ex_funcarg ex 0); StackPointer (ex_funcarg ex 1)])
  ∧ ("RtlAllocateHeap" ∈ IMG_Rtns img →
       records (exec_rtn_entry cpuid entry (hook "RtlAllocateHeap") ex ctxt gr)
         [AllocSize (ex_funcarg ex 2)]
       ∧ records (exec_rtn_return cpuid entry (hook "RtlAllocateHeap") ex ctxt gr)
           [AllocReturn (ctxt REG_RAX)])
  ∧ ("RtlFreeHeap" ∈ IMG_Rtns img →
       records (exec_rtn_entry cpuid entry (hook "RtlFreeHeap") ex ctxt gr)
         [FreeAddress (ex_funcarg ex 2)]).
Proof.
  intros T Htid hook records.
  destruct (traced_buffered tw ctxt gr T) as [B Bf].
  destruct (rtn_calls_all img g) as (_ & _ & Hsp & Hmalloc & Hfree).
  pose proof (traced_next _ _ _ T) as Hnext.
  assert (Hone : ∀ at_ insert value e pre post,
            return_reg [IARG_REG_VALUE _nextBufferEntryReg; value;
                        IARG_RETURN_REGS _nextBufferEntryReg] = Some _nextBufferEntryReg →
            (∀ g0, analysis cpuid insert
                     (eval_iargs entry ex ctxt [IARG_REG_VALUE _nextBufferEntryReg; value;
                                               IARG_RETURN_REGS _nextBufferEntryReg]) ctxt g0 =
               '(r, g1) ← InsertEntry (ctxt _nextBufferEntryReg) e g0; Some (r, ctxt, g1)) →
            Forall (λ c, call_ipoint c ≠ at_) pre →
            Forall (λ c, call_ipoint c ≠ at_) post →
            records (run_calls cpuid entry ex at_
                       (pre ++ hook_store at_ insert value ++ post) 0 ctxt gr) [e]).
  { intros at_ insert value e pre post Hret Hins Hpre Hpost.
    rewrite run_calls_other_point by done.
    destruct (run_hook_store_buffered cpuid entry ex at_ insert value e post 0
                tw B ctxt gr Bf Htid Hret Hins)
      as (c1 & g1 & B1 & -> & Bf1 & S1 & _ & _).
    rewrite run_calls_skip by done.
    exists c1, g1, [(ctxt _nextBufferEntryReg, e)].
    split_and!; [done| |done|done|by constructor].
    exact (buffered_traced _ _ _ _ Bf1). }
  split_and!.
  - intros Hin. unfold hook. rewrite Hsp. unfold RTN_Valid.
    rewrite bool_decide_eq_true_2 by done.
    unfold exec_rtn_entry, notifyStackPointer_calls.
    destruct (run_hook_store_buffered cpuid entry ex IPOINT_BEFORE
                fp_TraceWriter_InsertStackPointerWriteEntry (IARG_FUNCARG_ENTRYPOINT_VALUE 0)
                (StackPointer (ex_funcarg ex 0))
                (hook_store IPOINT_BEFORE fp_TraceWriter_InsertStackPointerWriteEntry
                   (IARG_FUNCARG_ENTRYPOINT_VALUE 1)) 0 tw B ctxt gr Bf Htid eq_refl)
      as (c1 & g1 & B1 & -> & Bf1 & S1 & _ & _); [done|].
    rewrite <- (app_nil_r (hook_store _ _ _)).
    destruct (run_hook_store_buffered cpuid entry ex IPOINT_BEFORE
                fp_TraceWriter_InsertStackPointerWriteEntry (IARG_FUNCARG_ENTRYPOINT_VALUE 1)
                (StackPointer (ex_funcarg ex 1)) [] 0 tw B1 c1 g1 Bf1 Htid eq_refl)
      as (c2 & g2 & B2 & -> & Bf2 & S2 & _ & _); [done|].
    exists c2, g2, [(ctxt _nextBufferEntryReg, StackPointer (ex_funcarg ex 0));
                    (c1 _nextBufferEntryReg, StackPointer (ex_funcarg ex 1))].
    split_and!; [done| | |done|].
    + exact (buffered_traced _ _ _ _ Bf2).
    + by rewrite S2, S1, <- app_assoc.
    + constructor; [done|]. constructor; [|done].
      exact (traced_next _ _ _ (buffered_traced _ _ _ _ Bf1)).
  - intros Hin. unfold hook. rewrite Hmalloc. unfold RTN_Valid.
    rewrite bool_decide_eq_true_2 by done.
    unfold exec_rtn_entry, exec_rtn_return, malloc_calls. split.
    + apply (Hone IPOINT_BEFORE fp_TraceWriter_InsertAllocSizeParameterEntry
               (IARG_FUNCARG_ENTRYPOINT_VALUE 2) (AllocSize (ex_funcarg ex 2)) []);
        [done|done|constructor|by apply hook_store_other_point].
    + rewrite <- (app_nil_r (hook_store IPOINT_AFTER _ _)).
      apply (Hone IPOINT_AFTER fp_TraceWriter_InsertAllocAddressReturnEntry
               (IARG_REG_VALUE REG_RAX) (AllocReturn (ctxt REG_RAX)) _ []);
        [done|done|by apply hook_store_other_point|constructor].
  - intros Hin. unfold hook. rewrite Hfree. unfold RTN_Valid.
    rewrite bool_decide_eq_true_2 by done.
    unfold exec_rtn_entry, free_calls.
    rewrite <- (app_nil_r (hook_store _ _ _)).
    apply (Hone IPOINT_BEFORE fp_TraceWriter_InsertFreeAddressParameterEntry
             (IARG_FUNCARG_ENTRYPOINT_VALUE 2) (FreeAddress (ex_funcarg ex 2)) [] []);
      [done|done|constructor|constructor].
Qed.

Lemma X14_witness :
  ∃ ctxt' gr',
    exec_rtn_return cpuid_default 0x4100
      (rtn_calls "RtlAllocateHeap"
         (InstrumentImage img_b (InstrumentImage img_a (main "out" "a.exe" 0x1234)).2).1)
      (ex_plain 0) (PIN_SetContextReg (started 0x1234).1 REG_RAX 0x5000) (started 0x1234).2
    = Some (ctxt', gr')
    ∧ (stores gr').*2 = [AllocReturn 0x5000].
Proof.
  assert (T : traced sample_tw (PIN_SetContextReg (started 0x1234).1 REG_RAX 0x5000)
                (started 0x1234).2).
  { apply (traced_ext sample_tw (started 0x1234).1); [done|done|].
    apply started_traced. }
  destruct (X14_recording_hooks cpuid_default img_b
              (InstrumentImage img_a (main "out" "a.exe" 0x1234)).2 0x4100 (ex_plain 0)
              sample_tw _ _ T eq_refl)
    as (_ & Hmalloc & _).
  destruct Hmalloc as [_ (ctxt' & gr' & new & Hrun & _ & Hst & Hnew & _)].
  { by repeat constructor. }
  exists ctxt', gr'. split; [exact Hrun|].
  rewrite Hst. change (stores (started 0x1234).2) with (@nil (Z * TraceEntry)).
  by rewrite app_nil_l, Hnew.
Defined.

(** ** The end of a thread *)

Lemma free_slots_lookup h first n p :
  free_slots h first n !! p
  = if bool_decide (first ≤ p < first + Z.of_nat n) then None else h !! p.
Proof.
  revert first. induction n as [|n IH]; intros first.
  - cbn [free_slots]. rewrite bool_decide_eq_false_2; [done|lia].
  - cbn [free_slots]. destruct (decide (p = first)) as [->|Hne].
    + rewrite lookup_delete_eq. rewrite bool_decide_eq_true_2; [done|lia].
    + rewrite lookup_delete_ne by done. rewrite IH.
      destruct (decide (first ≤ p < first + Z.of_nat (S n))).
      * rewrite !bool_decide_eq_true_2; [done|done|lia].
      * rewrite !bool_decide_eq_false_2; [done|done|lia].
Qed.

(** X15: when the traced thread ends, [ThreadFini] appends to the open
    trace file exactly the entries pending in the buffer, the slots below
    the write pointer and no stale slot, then releases the buffer and
    clears the thread data; other files and other memory stay as they
    are.  For any other thread it does nothing. *)
Theorem X15_ThreadFini_flushes_pending tw f ctxt g :
  traced tw ctxt g → tw_file tw = Some f →
  (∃ P g',
     pending tw (ctxt _nextBufferEntryReg) g = Some P
     ∧ Z.of_nat (length P) = ctxt _nextBufferEntryReg - Begin tw
     ∧ ThreadFini 0 ctxt g = Some g'
     ∧ disk g' = <[f := default [] (disk g !! f) ++ P]> (disk g)
     ∧ tls g' !! 0 = None
     ∧ (∀ p, heap g' !! p
             = if bool_decide (Begin tw ≤ p < End tw) then None else heap g !! p)
     ∧ stores g' = stores g)
  ∧ (∀ tid, tid ≠ 0 → ThreadFini tid ctxt g = Some g).
Proof.
  intros T Hf. split.
  - destruct (traced_pending _ _ _ T) as [P HP].
    pose proof (traced_next _ _ _ T) as Hn.
    pose proof (traced_size _ _ _ T) as Hsz.
    exists P. eexists. split; [done|]. split.
    { apply read_slots_length in HP. lia. }
    unfold ThreadFini, PIN_GetThreadData, PIN_GetContextReg. simpl.
    rewrite (traced_writer _ _ _ T). simpl.
    rewrite (WriteBufferToFile_flushed 0 _ g tw P);
      [|apply (traced_writer _ _ _ T)|lia|done].
    simpl. split; [reflexivity|]. simpl. split_and!.
    + unfold flushed_disk. by rewrite Hf.
    + by rewrite lookup_delete_eq.
    + intros p. rewrite free_slots_lookup. unfold End.
      by rewrite Z2Nat.id by lia.
    + done.
  - intros tid Htid. unfold ThreadFini. by destruct (Z.eqb_spec tid 0).
Qed.

Lemma X15_witness :
  ∃ c1 g1 c2 g2 g3,
    exec_rtn_entry cpuid_default 0x1100 notifyStart_calls (ex_plain 0)
      (started 0x1234).1 (started 0x1234).2 = Some (c1, g1)
    ∧ exec_steps cpuid_default sample_xed true [(true, ins_load, ex_plain 0)] c1 g1
      = Some (c2, g2)
    ∧ ThreadFini 0 c2 g2 = Some g3
    ∧ tls g3 !! 0 = None ∧ heap g3 !! 100 = None.
Proof.
  destruct (notifyStart_buffered cpuid_default 0x1100 (ex_plain 0) sample_tw
              (started 0x1234).1 (started 0x1234).2 (started_traced 0x1234) eq_refl)
    as (c1 & g1 & Hs & Bf1 & _ & _).
  destruct (exec_steps_buffered cpuid_default sample_xed true [(true, ins_load, ex_plain 0)]
              _ _ c1 g1 Bf1)
    as (c2 & g2 & new & B2 & Hr & Bf2 & _ & _ & _).
  { by repeat constructor. }
  destruct (X15_ThreadFini_flushes_pending _ "out_t7.trace" c2 g2
              (buffered_traced _ _ _ _ Bf2) eq_refl)
    as [(P & g3 & _ & _ & Hfini & _ & Htls & Hheap & _) _].
  exists c1, g1, c2, g2, g3. split_and!; [done..|].
  rewrite Hheap. reflexivity.
Defined.

(** ** Routine hooks on the other threads *)

(** The store of a routine hook through a null write pointer: the insert
    routine is called, skips the entry and hands the null pointer back, and
    the flush helper hands it back as well. *)
Lemma run_hook_store_null cpuid ip ex at_ insert value e rest guard ctxt g :
  ctxt _nextBufferEntryReg = NULL →
  return_reg [IARG_REG_VALUE _nextBufferEntryReg; value;
              IARG_RETURN_REGS _nextBufferEntryReg] = Some _nextBufferEntryReg →
  (∀ g0, analysis cpuid insert
           (eval_iargs ip ex ctxt [IARG_REG_VALUE _nextBufferEntryReg; value;
                                   IARG_RETURN_REGS _nextBufferEntryReg]) ctxt g0 =
     '(r, g1) ← InsertEntry (ctxt _nextBufferEntryReg) e g0; Some (r, ctxt, g1)) →
  ∃ ctxt',
    run_calls cpuid ip ex at_ (hook_store at_ insert value ++ rest) guard ctxt g
    = run_calls cpuid ip ex at_ rest guard ctxt' g
    ∧ ctxt' _nextBufferEntryReg = NULL
    ∧ (∀ r, r ≠ _nextBufferEntryReg → ctxt' r = ctxt r).
Proof.
  intros Hnull Hret Hins.
  change (hook_store at_ insert value ++ rest) with
    (RTN_InsertCall at_ insert
       [IARG_REG_VALUE _nextBufferEntryReg; value; IARG_RETURN_REGS _nextBufferEntryReg]
     :: RTN_InsertCall at_ fp_CheckBufferAndStore
          [IARG_REG_VALUE _nextBufferEntryReg; IARG_REG_VALUE _entryBufferEndReg;
           IARG_THREAD_ID; IARG_RETURN_REGS _nextBufferEntryReg]
     :: rest).
  rewrite run_calls_Rtn. unfold invoke at 1. rewrite Hins, Hnull.
  unfold InsertEntry. change (NULL =? NULL) with true. step_bind.
  rewrite Hret. step_bind.
  rewrite run_calls_Rtn, invoke_CheckBufferAndStore.
  rewrite PIN_SetContextReg_same by done.
  unfold CheckBufferAndStore. change (NULL =? NULL) with true.
  rewrite orb_true_r. cbn [orb]. step_bind.
  eexists. split; [reflexivity|]. split.
  - by rewrite PIN_SetContextReg_same.
  - intros r Hr. by rewrite !PIN_SetContextReg_other_tool.
Qed.

(** The three recording hooks on a thread whose write pointer is null, at
    the entry of the routine and at its return: the globals stay as they
    are, the pointer stays null, and no other register changes. *)
Lemma recording_hooks_null cpuid img g0 entry ex name at_ ctxt g :
  ctxt _nextBufferEntryReg = NULL →
  name ∈ ["PinNotifyStackPointer"; "RtlAllocateHeap"; "RtlFreeHeap"] →
  ∃ ctxt',
    run_calls cpuid entry ex at_ (rtn_calls name (InstrumentImage img g0).1) 0 ctxt g
    = Some (ctxt', g)
    ∧ ctxt' _nextBufferEntryReg = NULL
    ∧ (∀ r, r ≠ _nextBufferEntryReg → ctxt' r = ctxt r).
Proof.
  intros Hnull Hname.
  assert (Hone : ∀ point insert value e rest c,
            c _nextBufferEntryReg = NULL →
            return_reg [IARG_REG_VALUE _nextBufferEntryReg; value;
                        IARG_RETURN_REGS _nextBufferEntryReg] = Some _nextBufferEntryReg →
            (∀ g1, analysis cpuid insert
                     (eval_iargs entry ex c [IARG_REG_VALUE _nextBufferEntryReg; value;
                                             IARG_RETURN_REGS _nextBufferEntryReg]) c g1 =
               '(r, g2) ← InsertEntry (c _nextBufferEntryReg) e g1; Some (r, c, g2)) →
            ∃ c', run_calls cpuid entry ex at_ (hook_store point insert value ++ rest) 0 c g
                  = run_calls cpuid entry ex at_ rest 0 c' g
                  ∧ c' _nextBufferEntryReg = NULL
                  ∧ (∀ r, r ≠ _nextBufferEntryReg → c' r = c r)).
  { intros point insert value e rest c Hc Hret Hins.
    destruct (decide (point = at_)) as [->|Hne].
    - by apply (run_hook_store_null cpuid entry ex at_ insert value e).
    - exists c. split; [|done].
      apply run_calls_other_point. by apply hook_store_other_point. }
  destruct (rtn_calls_all img g0) as (_ & _ & Hsp & Hmalloc & Hfree).
  repeat (apply elem_of_cons in Hname as [-> | Hname]);
    [rewrite Hsp|rewrite Hmalloc|rewrite Hfree|by apply elem_of_nil in Hname];
    (match goal with |- context [if ?b then _ else _] => destruct b end;
     [|by exists ctxt]).
  - unfold notifyStackPointer_calls.
    destruct (Hone IPOINT_BEFORE fp_TraceWriter_InsertStackPointerWriteEntry
                (IARG_FUNCARG_ENTRYPOINT_VALUE 0) (StackPointer (ex_funcarg ex 0))
                (hook_store IPOINT_BEFORE fp_TraceWriter_InsertStackPointerWriteEntry
                   (IARG_FUNCARG_ENTRYPOINT_VALUE 1)) ctxt Hnull eq_refl)
      as (c1 & -> & N1 & O1); [done|].
    rewrite <- (app_nil_r (hook_store _ _ _)).
    destruct (Hone IPOINT_BEFORE fp_TraceWriter_InsertStackPointerWriteEntry
                (IARG_FUNCARG_ENTRYPOINT_VALUE 1) (StackPointer (ex_funcarg ex 1))
                [] c1 N1 eq_refl)
      as (c2 & -> & N2 & O2); [done|].
    exists c2. split_and!; [done|done|].
    intros r Hr. by rewrite O2, O1.
  - unfold malloc_calls.
    destruct (Hone IPOINT_BEFORE fp_TraceWriter_InsertAllocSizeParameterEntry
                (IARG_FUNCARG_ENTRYPOINT_VALUE 2) (AllocSize (ex_funcarg ex 2))
                (hook_store IPOINT_AFTER fp_TraceWriter_InsertAllocAddressReturnEntry
                   (IARG_REG_VALUE REG_RAX)) ctxt Hnull eq_refl)
      as (c1 & -> & N1 & O1); [done|].
    rewrite <- (app_nil_r (hook_store _ _ _)).
    destruct (Hone IPOINT_AFTER fp_TraceWriter_InsertAllocAddressReturnEntry
                (IARG_REG_VALUE REG_RAX) (AllocReturn (c1 REG_RAX))
                [] c1 N1 eq_refl)
      as (c2 & -> & N2 & O2); [done|].
    exists c2. split_and!; [done|done|].
    intros r Hr. by rewrite O2, O1.
  - unfold free_calls.
    rewrite <- (app_nil_r (hook_store _ _ _)).
    destruct (Hone IPOINT_BEFORE fp_TraceWriter_InsertFreeAddressParameterEntry
                (IARG_FUNCARG_ENTRYPOINT_VALUE 2) (FreeAddress (ex_funcarg ex 2))
                [] ctxt Hnull eq_refl)
      as (c1 & -> & N1 & O1); [done|].
    by exists c1.
Qed.




(** X16: the routine hooks carry no guard; they are plain calls and run
    on every thread.  On a thread that has no thread data and whose write
    pointer is null, entering one of the two testcase routines is
    undefined: the hook calls a method on the missing thread data (lines
    580-581, 589-590).  The three recording hooks run to completion there,
    at the entry of the routine and at its return: the insert routine is
    called with the null pointer and skips the entry, the flush helper
    hands the pointer back, no global changes and no register but the
    write pointer is written, which stays null.  The insert routines are
    those of the specification. *)
Theorem X16_hooks_on_untraced_thread cpuid img g entry ex ctxt gr name :
  tls gr !! ex_tid ex = None → ctxt _nextBufferEntryReg = NULL →
  name ∈ IMG_Rtns img →
  let hook := rtn_calls name (InstrumentImage img g).1 in
  (∀ c, c ∈ hook → ∃ ip f args, c = RTN_InsertCall ip f args)
  ∧ (name ∈ ["PinNotifyTestcaseStart"; "PinNotifyTestcaseEnd"] →
       hook ≠ [] ∧ exec_rtn_entry cpuid entry hook ex ctxt gr = None)
  ∧ (name ∈ ["PinNotifyStackPointer"; "RtlAllocateHeap"; "RtlFreeHeap"] →
       hook ≠ []
       ∧ (∃ ctxt',
            exec_rtn_entry cpuid entry hook ex ctxt gr = Some (ctxt', gr)
            ∧ ctxt' _nextBufferEntryReg = NULL
            ∧ ∀ r, r ≠ _nextBufferEntryReg → ctxt' r = ctxt r)
       ∧ (∃ ctxt',
            exec_rtn_return cpuid entry hook ex ctxt gr = Some (ctxt', gr)
            ∧ ctxt' _nextBufferEntryReg = NULL
            ∧ ∀ r, r ≠ _nextBufferEntryReg → ctxt' r = ctxt r)).
Proof.
  intros Htls Hnull Hin hook.
  assert (Hv : RTN_Valid img name = true) by (by apply bool_decide_eq_true_2).
  destruct (rtn_calls_all img g) as (Hstart & Hend & Hsp & Hmalloc & Hfree).
  split_and!.
  - intros c Hc. unfold hook, rtn_calls in Hc.
    apply list_elem_of_fmap in Hc as ([n c'] & -> & Hc).
    apply list_elem_of_filter in Hc as [_ Hc].
    by apply InstrumentImage_pointer_only in Hc as [_ ?].
  - intros Hname. unfold hook, exec_rtn_entry.
    repeat (apply elem_of_cons in Hname as [-> | Hname]);
      [rewrite Hstart|rewrite Hend|by apply elem_of_nil in Hname];
      rewrite Hv; (split; [done|]).
    + unfold notifyStart_calls. rewrite run_calls_Rtn. unfold invoke. simpl.
      unfold TestcaseStart, PIN_GetThreadData. by rewrite Htls.
    + unfold notifyEnd_calls. rewrite run_calls_Rtn. unfold invoke. simpl.
      unfold TestcaseEnd, PIN_GetThreadData. by rewrite Htls.
  - intros Hname. split.
    + unfold hook.
      repeat (apply elem_of_cons in Hname as [-> | Hname]);
        [rewrite Hsp|rewrite Hmalloc|rewrite Hfree|by apply elem_of_nil in Hname];
        by rewrite Hv.
    + unfold exec_rtn_entry, exec_rtn_return. split.
      * by apply recording_hooks_null.
      * by apply recording_hooks_null.
Qed.

Lemma X16_witness :
  let start := ThreadStart 200 garbage4 5 (started 0x1234).1 (started 0x1234).2 in
  let g_a := main "out" "a.exe" 0x1234 in
  exec_rtn_entry cpuid_default 0x1180
    (rtn_calls "PinNotifyTestcaseEnd" (InstrumentImage img_a g_a).1)
    (ex_plain 5) start.1 start.2 = None
  ∧ ∃ ctxt',
      exec_rtn_return cpuid_default 0x4100
        (rtn_calls "RtlAllocateHeap" (InstrumentImage img_b (InstrumentImage img_a g_a).2).1)
        (ex_plain 5) start.1 start.2 = Some (ctxt', start.2)
      ∧ ctxt' _nextBufferEntryReg = NULL.
Proof.
  intros start g_a. split.
  - destruct (X16_hooks_on_untraced_thread cpuid_default img_a g_a 0x1180 (ex_plain 5)
                start.1 start.2 "PinNotifyTestcaseEnd") as (_ & Hundef & _).
    + reflexivity.
    + reflexivity.
    + by repeat constructor.
    + apply Hundef.
      repeat first [by apply list_elem_of_here | apply list_elem_of_further].
  - destruct (X16_hooks_on_untraced_thread cpuid_default img_b (InstrumentImage img_a g_a).2
                0x4100 (ex_plain 5) start.1 start.2 "RtlAllocateHeap") as (_ & _ & Hrec).
    + reflexivity.
    + reflexivity.
    + by repeat constructor.
    + destruct Hrec as (_ & _ & (c' & Hrun & Hn & _)).
      { repeat first [by apply list_elem_of_here | apply list_elem_of_further]. }
      by exists c'.
Defined.

(** ** Traces are instrumented block by block *)

(** X17: the requests an instruction gets do not depend on how the host
    groups blocks into traces, nor on what was printed before: the
    requests of a trace are those of its blocks taken one at a time, in
    order, and inside a block with an owner those of its instructions taken
    one at a time, each depending only on the instruction, the owner's
    interest flag and the RDRAND switch. *)
Theorem X17_blocks_are_independent xed trace g :
  (InstrumentTrace xed trace g).1
  = flat_map (λ bbl, (InstrumentTrace xed [bbl] g).1) trace
  ∧ (∀ t1 t2, (InstrumentTrace xed (t1 ++ t2) g).1
              = (InstrumentTrace xed t1 g).1 ++ (InstrumentTrace xed t2 g).1)
  ∧ (∀ bbl img, image_of_bbl (_images g) bbl = Some img →
       (InstrumentTrace xed [bbl] g).1
       = flat_map (λ ins, map (λ c, (ins, c))
                            (InstrumentIns xed (_useFixedRandomNumber g)
                               (IsInteresting img) ins).1) (BBL_Ins bbl))
  ∧ (∀ bbl os, (InstrumentTrace xed [bbl] (set_cerr g os)).1
               = (InstrumentTrace xed [bbl] g).1).
Proof.
  assert (Happ : ∀ t1 t2 g0, (InstrumentTrace xed (t1 ++ t2) g0).1
            = (InstrumentTrace xed t1 g0).1 ++ (InstrumentTrace xed t2 g0).1).
  { intros t1 t2 g0. rewrite InstrumentTrace_app.
    destruct (InstrumentTrace_globals xed t1 g0) as [os Hos].
    destruct (InstrumentTrace xed t1 g0) as [c1 g1] eqn:E1. simpl in Hos. subst g1.
    rewrite <- (InstrumentTrace_calls_cerr xed t2 g0 os).
    by destruct (InstrumentTrace xed t2 (set_cerr g0 os)). }
  split_and!.
  - induction trace as [|bbl rest IH]; [done|].
    change (bbl :: rest) with ([bbl] ++ rest) at 1. rewrite Happ, IH. done.
  - intros t1 t2. apply Happ.
  - intros bbl img Himg. simpl. rewrite Himg. simpl. by rewrite app_nil_r.
  - intros bbl os. apply InstrumentTrace_calls_cerr.
Qed.
